(** * Classi-fy: the confidence-graded crop classification pipeline

    A shallow embedding of the placeholder model [CropClassificationModel]
    (feature extraction, prediction, confidence tiers), of the
    classification, export and upload handlers with the CSV and GeoJSON
    formatters and the statistics of the report, and of the utilities around
    them (client-side file check and cache, validation schemas, file-name
    sanitizing, password rating, rate limiter, file middleware, error
    monitor, retry helper), followed by the properties established about
    them.

    Numbers.  JavaScript numbers are modelled as exact rationals [Q]; a
    decimal literal of the source such as [0.8] is the rational 8/10, and
    the comparisons [>] and [>=] are the order of [Q].  Sizes, times and
    counts are integers.  [Math.random()] is a read from an explicit source
    of draws, each draw in [0, 1). *)

From Stdlib Require Import QArith Qround Lqa Lia ZArith List String Ascii Bool Sorted DecimalString.
Import ListNotations.

Open Scope Q_scope.

(** ** JavaScript primitives used by the pipeline *)

Module JS.

(** [a > b] *)
Definition gt (a b : Q) : bool := negb (Qle_bool a b).

(** [a >= b] *)
Definition ge (a b : Q) : bool := Qle_bool b a.

(** [Number.prototype.toFixed(3)] picks the integer [n] for which
    [n / 1000] is closest to the magnitude of the number, the larger [n]
    on a tie, and restores the sign. *)
Definition nearest_thousandth (x : Q) : Z := Qfloor (x * 1000 + (1 # 2)).

(** [parseFloat(x.toFixed(3))] *)
Definition toFixed3 (x : Q) : Q :=
  if Qle_bool 0 x
  then nearest_thousandth x # 1000
  else - (nearest_thousandth (- x) # 1000).

(** A statement either completes normally with a value or throws. *)
Inductive Completion (A : Type) : Type :=
| Normal (value : A)
| Throw (message : string).
Arguments Normal {A} value.
Arguments Throw {A} message.

(** Two steps in sequence, either of which may throw. *)
Definition andThen {A B : Type} (c : Completion A) (k : A -> Completion B)
  : Completion B :=
  match c with
  | Normal a => k a
  | Throw message => Throw message
  end.

(** A loop over an array ([forEach], [map], [reduce]) whose callback may
    throw: the first throw ends the loop and nothing is returned. *)
Fixpoint each {A B : Type} (f : A -> Completion B) (l : list A) : Completion (list B) :=
  match l with
  | [] => Normal []
  | a :: rest =>
      andThen (f a) (fun b => andThen (each f rest) (fun bs => Normal (b :: bs)))
  end.

(** [x.field], where [x] is an object or is [undefined] or [null]:
    reading a property of [undefined] or [null] throws a TypeError. *)
Definition read {A : Type} (x : option A) : Completion A :=
  match x with
  | Some a => Normal a
  | None => Throw "TypeError: Cannot read properties of undefined"
  end.

(** The draws that successive calls of [Math.random()] will return. *)
Definition RandomSource : Type := nat -> Q.

Definition uniform (src : RandomSource) : Prop :=
  forall n : nat, 0 <= src n /\ src n < 1.

Definition advance (src : RandomSource) : RandomSource :=
  fun n => src (S n).

(** Code that may call [Math.random()] and may throw. *)
Definition Run (A : Type) : Type := RandomSource -> Completion A * RandomSource.

Definition ret {A : Type} (a : A) : Run A := fun src => (Normal a, src).

Definition throw {A : Type} (message : string) : Run A :=
  fun src => (Throw message, src).

Definition bind {A B : Type} (c : Run A) (k : A -> Run B) : Run B :=
  fun src =>
    match c src with
    | (Normal a, src') => k a src'
    | (Throw message, src') => (Throw message, src')
    end.

Definition Math_random : Run Q := fun src => (Normal (src 0%nat), advance src).

(** [obj[key]] on an object literal, kept as its list of properties in
    insertion order. *)
Fixpoint property {A : Type} (key : string) (obj : list (string * A)) : option A :=
  match obj with
  | [] => None
  | (k, v) :: rest => if String.eqb k key then Some v else property key rest
  end.

(** A cell of an array that holds numbers and strings. *)
Inductive Value : Type :=
| Num (q : Q)
| Str (s : string).

(** [x || fallback] where [x] is a number or is absent: an absent value
    and the number 0 are both falsy. *)
Definition or_else (x : option Q) (fallback : Value) : Value :=
  match x with
  | Some q => if Qeq_bool q 0 then fallback else Num q
  | None => fallback
  end.

(** [array.map((element, index) => f(element, index))], counting from
    [start]. *)
Fixpoint map_indexed {A B : Type} (f : A -> nat -> B) (start : nat) (l : list A) : list B :=
  match l with
  | [] => []
  | a :: rest => f a start :: map_indexed f (S start) rest
  end.

(** [array.forEach((element, index) => ...)] on a body that updates one
    accumulator, counting from [start]. *)
Fixpoint forEach_indexed {A Acc : Type} (body : Acc -> A -> nat -> Acc) (start : nat)
    (l : list A) (acc : Acc) : Acc :=
  match l with
  | [] => acc
  | a :: rest => forEach_indexed body (S start) rest (body acc a start)
  end.

Definition newline : string := String "010"%char EmptyString.

Definition dquote : string := String "034"%char EmptyString.

(** [s.replace(/[:.]/g, '-')] *)
Fixpoint replace_colon_dot (s : string) : string :=
  match s with
  | EmptyString => EmptyString
  | String c rest =>
      String (if Ascii.eqb c ":"%char || Ascii.eqb c "."%char then "-"%char else c)
             (replace_colon_dot rest)
  end.

(** *** Strings

    In the code that inspects strings, a string is the sequence of its
    code units; [toLowerCase] is the host's and is taken as a parameter
    where it is used. *)

(** [s.endsWith(suffix)] *)
Definition endsWith (s suffix : string) : bool :=
  let n := String.length s in
  let m := String.length suffix in
  (m <=? n)%nat && String.eqb (String.substring (n - m) m s) suffix.

(** [s.slice(start)]: a negative [start] counts from the end. *)
Definition slice_from (start : Z) (s : string) : string :=
  let n := Z.of_nat (String.length s) in
  let from := if (start <? 0)%Z then Z.max (n + start) 0 else Z.min start n in
  String.substring (Z.to_nat from) (Z.to_nat (n - from)) s.

(** [s.slice(0, stop)] for a [stop] that is not negative. *)
Definition slice_to (stop : nat) (s : string) : string :=
  String.substring 0 stop s.

(** [array.includes(x)] on an array of strings. *)
Definition includes (array : list string) (x : string) : bool :=
  existsb (String.eqb x) array.

End JS.

Import JS.

Declare Scope run_scope.
Delimit Scope run_scope with run.
Notation "x <- c ;; k" := (bind c (fun x => k))
  (at level 61, c at next level, right associativity) : run_scope.
Notation "' pat <- c ;; k" := (bind c (fun x => match x with pat => k end))
  (at level 61, pat pattern, c at next level, right associativity) : run_scope.

Open Scope string_scope.
Open Scope list_scope.

(** ** The model: [CropClassificationModel] *)

Record ConfidenceLevel : Type := mkConfidenceLevel {
  level : Z;
  threshold : Q;
  label : string;
  action : string
}.

Record Features : Type := mkFeatures {
  ndvi : Q;
  evi : Q;
  savi : Q;
  mean_red : Q;
  mean_nir : Q;
  std_red : Q;
  std_nir : Q;
  area_ha : Q
}.

Record Prediction : Type := mkPrediction {
  predicted_class : string;
  confidence : Q;
  confidence_level : Z;
  confidence_label : string;
  recommended_action : string;
  probabilities : list (string * Q)
}.

Module CropClassificationModel.

(** [this.classes] *)
Definition classes : list string := ["Palmier à huile"; "Cacao"; "Forêt"].

(** [this.confidenceLevels] *)
Definition confidenceLevels : list ConfidenceLevel :=
  [ mkConfidenceLevel 5 0.8 "Très haute confiance" "Utilisation automatique recommandée";
    mkConfidenceLevel 4 0.6 "Confiance élevée" "Cartographie automatique avec vérifications";
    mkConfidenceLevel 3 0.4 "Confiance moyenne" "Vérification visuelle recommandée";
    mkConfidenceLevel 2 0.2 "Faible confiance" "Vérification sur le terrain nécessaire";
    mkConfidenceLevel 1 0.0 "Très faible confiance" "Analyse approfondie requise" ].

(** [calculateNDVI]: [0.65 + (Math.random() * 0.3)]. *)
Definition calculateNDVI : Run Q :=
  (r <- Math_random ;;
   ret (0.65 + r * 0.3))%run.

(** [extractFeatures]: the three indices derive from one NDVI draw, the
    other five fields from one draw each, in the order of the object
    literal. *)
Definition extractFeatures : Run Features :=
  (ndvi <- calculateNDVI ;;
   r_mean_red <- Math_random ;;
   r_mean_nir <- Math_random ;;
   r_std_red <- Math_random ;;
   r_std_nir <- Math_random ;;
   r_area <- Math_random ;;
   ret {| ndvi := toFixed3 ndvi;
          evi := toFixed3 (ndvi * 1.2);
          savi := toFixed3 (ndvi * 0.9);
          mean_red := r_mean_red * 0.3 + 0.1;
          mean_nir := r_mean_nir * 0.4 + 0.6;
          std_red := r_std_red * 0.05 + 0.02;
          std_nir := r_std_nir * 0.08 + 0.03;
          area_ha := r_area * 5 + 0.5 |})%run.

(** The tier lookup of [predict]:
    [levels.find(level => confidence >= level.threshold)
       || levels[levels.length - 1]];
    reading a field of the result throws when the table is empty. *)
Definition resolveConfidenceLevel (levels : list ConfidenceLevel) (confidence : Q)
  : Completion ConfidenceLevel :=
  match find (fun level => ge confidence (threshold level)) levels with
  | Some level => Normal level
  | None =>
      match nth_error levels (List.length levels - 1) with
      | Some level => Normal level
      | None => Throw "TypeError: Cannot read properties of undefined"
      end
  end.

(** One entry of the [probabilities] literal. *)
Definition probabilityOf (class predictedClass : string) (confidence : Q) : Run Q :=
  if String.eqb predictedClass class
  then ret confidence
  else (r <- Math_random ;; ret (r * (1 - confidence)))%run.

(** [predict(features)] *)
Definition predict (features : Features) : Run Prediction :=
  ('(predictedClass, confidence) <-
     (if gt (ndvi features) 0.8 then
        if gt (evi features) 0.9 then
          r <- Math_random ;; ret ("Forêt", 0.85 + r * 0.1)
        else
          r <- Math_random ;; ret ("Palmier à huile", 0.75 + r * 0.15)
      else if gt (ndvi features) 0.6 then
        if gt (savi features) 0.7 then
          r <- Math_random ;; ret ("Palmier à huile", 0.70 + r * 0.2)
        else
          r <- Math_random ;; ret ("Cacao", 0.65 + r * 0.25)
      else
        r <- Math_random ;; ret ("Cacao", 0.45 + r * 0.3)) ;;
   match resolveConfidenceLevel confidenceLevels confidence with
   | Throw message => throw message
   | Normal confidenceLevel =>
       p_palm <- probabilityOf "Palmier à huile" predictedClass confidence ;;
       p_cacao <- probabilityOf "Cacao" predictedClass confidence ;;
       p_forest <- probabilityOf "Forêt" predictedClass confidence ;;
       ret {| predicted_class := predictedClass;
              confidence := toFixed3 confidence;
              confidence_level := level confidenceLevel;
              confidence_label := label confidenceLevel;
              recommended_action := action confidenceLevel;
              probabilities := [ ("Palmier à huile", p_palm);
                                 ("Cacao", p_cacao);
                                 ("Forêt", p_forest) ] |}
   end)%run.

End CropClassificationModel.

Import CropClassificationModel.

(** ** Classification results *)

Record Metadata : Type := mkMetadata {
  model_version : string;
  processing_time : Q;
  timestamp : string
}.

Record Coordinates : Type := mkCoordinates {
  lat : option Q;
  lng : option Q
}.

(** The object a successful [classify] returns, with the [coordinates] the
    request handler attaches when the request carries them. *)
Record ClassificationResult : Type := mkClassificationResult {
  features : Features;
  prediction : Prediction;
  metadata : Metadata;
  coordinates : option Coordinates
}.

(** What [classify] returns: [{success: true, ...}] or
    [{success: false, error}]. *)
Inductive Classified : Type :=
| Success (result : ClassificationResult)
| Failure (error : string).

Module Classifier.

Section Host.

(** [fs.existsSync] and the ISO string of [new Date()]. *)
Variable existsSync : string -> bool.
Variable now : string.

(** [classify(imagePath)]: whatever the [try] block throws is turned
    into a failure object by the [catch]. *)
Definition classify (imagePath : string) : Run Classified :=
  fun src =>
    match
      (if negb (existsSync imagePath) then throw "Fichier image non trouvé"
       else
         extracted <- extractFeatures ;;
         predicted <- predict extracted ;;
         r <- Math_random ;;
         ret (Success {| features := extracted;
                         prediction := predicted;
                         metadata := {| model_version := "1.0.0";
                                        processing_time := r * 2 + 1;
                                        timestamp := now |};
                         coordinates := None |}))%run src
    with
    | (Normal result, src') => (Normal result, src')
    | (Throw message, src') => (Normal (Failure message), src')
    end.

End Host.

End Classifier.

(** ** The classification API *)

(** [result.coordinates = coordinates] *)
Definition with_coordinates (result : ClassificationResult) (c : Coordinates)
  : ClassificationResult :=
  {| features := features result;
     prediction := prediction result;
     metadata := metadata result;
     coordinates := Some c |}.

Module ClassifyApi.

(** The [filePath] member of the body, as far as the handler tells its
    values apart: a value that is [undefined], [null], [false] or 0; a
    string (the empty one is falsy too); any other value, which is truthy
    and is not a string (a number other than 0, [true], an array, an
    object). *)
Inductive FilePath : Type :=
| missing
| text (path : string)
| not_text.

(** The body of the request: its [filePath] and [coordinates] members.
    [position] is [None] when [coordinates] is absent or falsy, and is
    otherwise taken to be an object, with or without numbers under [lat]
    and [lng]. *)
Record Body : Type := mkBody {
  filePath : FilePath;
  position : option Coordinates
}.

(** The request: its method and its body, [None] when [req.body] is
    [undefined] or [null]. *)
Record Request : Type := mkRequest {
  method : string;
  body : option Body
}.

(** [res.status(s).json({error})] or [res.status(200).json(result)].  The
    [details] member that the [catch] adds to its answer, the text of the
    engine's message, is not represented. *)
Inductive Response : Type :=
| failed (status : Z) (error : string)
| classified (result : ClassificationResult).

Section Host.

(** [fs.existsSync] as it answers when the handler calls it and as it
    answers afterwards, when [classify] calls it; the path
    [path.join(process.cwd(), 'uploads', path.basename(filePath))]; the ISO
    string of [new Date()]. *)
Variable existsSync : string -> bool.
Variable existsSync_later : string -> bool.
Variable uploadPath : string -> string.
Variable now : string.

(** The classification [handler].  Inside the [try], destructuring a
    missing body throws, and so does [path.basename] on a value that is not
    a string; the [catch] answers 500. *)
Definition handler (req : Request) : Run Response :=
  if negb (String.eqb (method req) "POST") then ret (failed 405 "Méthode non autorisée")
  else
    fun src =>
      match
        (match body req with
         | None => throw "TypeError: Cannot destructure property 'filePath'"
         | Some body =>
             match filePath body with
             | missing => ret (failed 400 "Chemin du fichier requis")
             | not_text => throw "TypeError: The path argument must be of type string"
             | text path =>
                 if String.eqb path "" then ret (failed 400 "Chemin du fichier requis")
                 else
                   let fullPath := uploadPath path in
                   if negb (existsSync fullPath) then ret (failed 404 "Fichier non trouvé")
                   else
                     result <- Classifier.classify existsSync_later now fullPath ;;
                     match result with
                     | Failure error => ret (failed 500 error)
                     | Success result =>
                         match position body with
                         | Some c => ret (classified (with_coordinates result c))
                         | None => ret (classified result)
                         end
                     end
             end
         end)%run src
      with
      | (Normal response, src') => (Normal response, src')
      | (Throw _, src') => (Normal (failed 500 "Erreur lors de la classification"), src')
      end.

End Host.

End ClassifyApi.

(** ** The export API *)

Module GeoJSON.

Record Properties : Type := mkProperties {
  id : Q;
  culture_predite : string;
  confiance : Q;
  niveau_confiance : Z;
  action_recommandee : string;
  ndvi : Q;
  evi : Q;
  savi : Q;
  surface_ha : Q;
  timestamp : string
}.

Record Geometry : Type := mkGeometry {
  geometry_type : string;
  coordinates : list Value
}.

Record Feature : Type := mkFeature {
  feature_type : string;
  properties : Properties;
  geometry : Geometry
}.

Record FeatureCollection : Type := mkFeatureCollection {
  collection_type : string;
  features : list Feature
}.

End GeoJSON.

Module ExportApi.

(** [result.coordinates?.lat] and [result.coordinates?.lng] *)
Definition optional_lat (result : ClassificationResult) : option Q :=
  match coordinates result with
  | Some c => lat c
  | None => None
  end.

Definition optional_lng (result : ClassificationResult) : option Q :=
  match coordinates result with
  | Some c => lng c
  | None => None
  end.

(** The [headers] array of [generateCSV]. *)
Definition headers : list string :=
  [ "ID"; "Culture_Predite"; "Confiance"; "Niveau_Confiance"; "Action_Recommandee";
    "NDVI"; "EVI"; "SAVI"; "Surface_Ha"; "Latitude"; "Longitude"; "Timestamp" ].

Definition quoted (s : string) : string := (dquote ++ s ++ dquote)%string.

(** The [row] array built for the result at position [index]. *)
Definition csvRow (result : ClassificationResult) (index : nat) : list Value :=
  [ Num (inject_Z (Z.of_nat index) + 1);
    Str (quoted (predicted_class (prediction result)));
    Num (confidence (prediction result));
    Num (inject_Z (confidence_level (prediction result)));
    Str (quoted (recommended_action (prediction result)));
    Num (ndvi (features result));
    Num (evi (features result));
    Num (savi (features result));
    Num (area_ha (features result));
    or_else (optional_lat result) (Str "");
    or_else (optional_lng result) (Str "");
    Str (timestamp (metadata result)) ].

(** [generateGeoJSON(results)] *)
Definition generateGeoJSON (results : list ClassificationResult) : GeoJSON.FeatureCollection :=
  let collected :=
    map_indexed
      (fun result index =>
         {| GeoJSON.feature_type := "Feature";
            GeoJSON.properties :=
              {| GeoJSON.id := inject_Z (Z.of_nat index) + 1;
                 GeoJSON.culture_predite := predicted_class (prediction result);
                 GeoJSON.confiance := confidence (prediction result);
                 GeoJSON.niveau_confiance := confidence_level (prediction result);
                 GeoJSON.action_recommandee := recommended_action (prediction result);
                 GeoJSON.ndvi := ndvi (features result);
                 GeoJSON.evi := evi (features result);
                 GeoJSON.savi := savi (features result);
                 GeoJSON.surface_ha := area_ha (features result);
                 GeoJSON.timestamp := timestamp (metadata result) |};
            GeoJSON.geometry :=
              {| GeoJSON.geometry_type := "Point";
                 GeoJSON.coordinates :=
                   [ or_else (optional_lng result) (Num 0);
                     or_else (optional_lat result) (Num 0) ] |} |})
      0 results in
  {| GeoJSON.collection_type := "FeatureCollection";
     GeoJSON.features := collected |}.

(** An element of the [results] array as a request carries it.  The
    formatters read its [prediction], [features], [metadata] and
    [coordinates]; a member is [None] when the element has no such property
    or holds [null] there (an element that is a number, a string or a
    boolean has none of the four).  A member that is present is taken to
    be the object [classify] puts there. *)
Module Posted.

Record Result : Type := mkResult {
  features : option Features;
  prediction : option Prediction;
  metadata : option Metadata;
  coordinates : option Coordinates
}.

End Posted.

(** What [generateCSV] and [generateGeoJSON] read of one element of the
    array, [None] standing for a [null] element: fields of
    [result.prediction], of [result.features] and of [result.metadata], each
    read throwing when the member is missing, and [result.coordinates]
    through [?.], which never throws. *)
Definition complete (element : option Posted.Result) : Completion ClassificationResult :=
  andThen (read element) (fun result =>
  andThen (read (Posted.prediction result)) (fun predicted =>
  andThen (read (Posted.features result)) (fun extracted =>
  andThen (read (Posted.metadata result)) (fun described =>
  Normal {| features := extracted;
            prediction := predicted;
            metadata := described;
            coordinates := Posted.coordinates result |})))).

(** What [generatePDFReport] reads of one element: fields of
    [result.prediction] and of [result.features] only. *)
Definition reportRow (element : option Posted.Result) : Completion (Prediction * Features) :=
  andThen (read element) (fun result =>
  andThen (read (Posted.prediction result)) (fun predicted =>
  andThen (read (Posted.features result)) (fun extracted =>
  Normal (predicted, extracted)))).

(** The body of the request: [format] is [None] when absent or not a
    string, [results] is [None] when absent, falsy or not an array. *)
Record Body : Type := mkBody {
  format : option string;
  results : option (list (option Posted.Result))
}.

(** The request: its method and its body, [None] when [req.body] is
    [undefined] or [null]. *)
Record Request : Type := mkRequest {
  method : string;
  body : option Body
}.

(** [res.status(s).json({error})] or the file download
    [res.setHeader(...); res.status(s).send(content)].  The [details]
    member that the [catch] adds to its answer, the text of the engine's
    message, is not represented. *)
Inductive Response : Type :=
| json (status : Z) (error : string)
| send (status : Z) (response_headers : list (string * string)) (content : string).

Section Host.

(** The host's number-to-string conversion, [JSON.stringify(_, null, 2)]
    on a feature collection, and the text of the HTML report as a function
    of what [generatePDFReport] reads of the elements; no property below
    inspects that text. *)
Variable Number_toString : Q -> string.
Variable JSON_stringify : GeoJSON.FeatureCollection -> string.
Variable generatePDFReport : list (Prediction * Features) -> string.

(** The conversion [Array.prototype.join] applies to each element. *)
Definition ToString (v : Value) : string :=
  match v with
  | Num q => Number_toString q
  | Str s => s
  end.

Definition join (separator : string) (cells : list Value) : string :=
  String.concat separator (map ToString cells).

(** [generateCSV(results)] *)
Definition generateCSV (results : list ClassificationResult) : string :=
  let csv := (String.concat "," headers ++ newline)%string in
  forEach_indexed
    (fun csv result index => (csv ++ (join "," (csvRow result index) ++ newline))%string)
    0 results csv.

(** The export [handler]; [now] is the ISO string of [new Date()].
    Inside the [try], destructuring a missing body throws, and a formatter
    throws on the first element of which it cannot read a member, what it
    had built being lost; the [catch] answers 500.  A formatter that reads
    every element is the formatter on the results read. *)
Definition handler (now : string) (req : Request) : Response :=
  if negb (String.eqb (method req) "POST") then json 405 "Méthode non autorisée"
  else
    match
      andThen (read (body req)) (fun posted =>
        match results posted with
        | None | Some [] => Normal (json 400 "Données de résultats requises")
        | Some results =>
            let stamp := replace_colon_dot now in
            andThen
              (match format posted with
               | None => Normal None
               | Some format =>
                   if String.eqb format "csv" then
                     andThen (each complete results) (fun readable =>
                       Normal (Some (("classification_results_" ++ stamp ++ ".csv")%string,
                                     generateCSV readable, "text/csv")))
                   else if String.eqb format "geojson" then
                     andThen (each complete results) (fun readable =>
                       Normal (Some (("classification_results_" ++ stamp ++ ".geojson")%string,
                                     JSON_stringify (generateGeoJSON readable),
                                     "application/geo+json")))
                   else if String.eqb format "pdf" then
                     andThen (each reportRow results) (fun rows =>
                       Normal (Some (("rapport_classification_" ++ stamp ++ ".html")%string,
                                     generatePDFReport rows, "text/html")))
                   else Normal None
               end)
              (fun chosen =>
                 match chosen with
                 | None =>
                     Normal (json 400 "Format non supporté. Utilisez: csv, geojson, ou pdf")
                 | Some (filename, content, contentType) =>
                     Normal
                       (send 200
                          [ ("Content-Type", contentType);
                            ("Content-Disposition",
                             ("attachment; filename=" ++ quoted filename)%string);
                            ("Cache-Control", "no-cache") ]
                          content)
                 end)
        end)
    with
    | Normal response => response
    | Throw _ => json 500 "Erreur lors de l'export"
    end.

End Host.

End ExportApi.

(** ** The statistics of the report *)

(** What [generatePDFReport] computes before it renders the HTML text. *)
Module PDFReport.

(** [obj[key] = v] on an object kept as its list of properties: an
    existing property keeps its place, a new one goes last. *)
Fixpoint assign {A : Type} (key : string) (v : A) (obj : list (string * A))
  : list (string * A) :=
  match obj with
  | [] => [(key, v)]
  | (k, x) :: rest =>
      if String.eqb k key then (k, v) :: rest else (k, x) :: assign key v rest
  end.

(** [count || 0] on a property that holds a count or is absent. *)
Definition or_zero (count : option Z) : Z :=
  match count with
  | Some n => if (n =? 0)%Z then 0%Z else n
  | None => 0%Z
  end.

Definition totalResults (results : list ClassificationResult) : nat :=
  List.length results.

(** The [cultureStats] object after the [forEach]:
    [cultureStats[culture] = (cultureStats[culture] || 0) + 1]. *)
Definition cultureStats (results : list ClassificationResult) : list (string * Z) :=
  fold_left
    (fun stats result =>
       let culture := predicted_class (prediction result) in
       assign culture (or_zero (property culture stats) + 1)%Z stats)
    results [].


End PDFReport.

(** ** The validation schemas *)

Record Validation : Type := mkValidation {
  isValid : bool;
  errors : list string
}.

Module validationSchemas.

(** [validationSchemas.coordinates.validate(coords)]; [coords] is [None]
    when it is missing or not an object, a member is [None] when it is not
    a number. *)
Definition coordinates_validate (coords : option Coordinates) : Validation :=
  match coords with
  | None => {| isValid := false; errors := ["Coordonnées requises"] |}
  | Some coords =>
      let errors := [] in
      let errors :=
        match lat coords with
        | Some lat =>
            if gt (-90) lat || gt lat 90
            then errors ++ ["Latitude invalide (doit être entre -90 et 90)"]
            else errors
        | None => errors ++ ["Latitude invalide (doit être entre -90 et 90)"]
        end in
      let errors :=
        match lng coords with
        | Some lng =>
            if gt (-180) lng || gt lng 180
            then errors ++ ["Longitude invalide (doit être entre -180 et 180)"]
            else errors
        | None => errors ++ ["Longitude invalide (doit être entre -180 et 180)"]
        end in
      {| isValid := Nat.eqb (List.length errors) 0; errors := errors |}
  end.

(** The parameters of an export: [format] is [None] when missing or not a
    string, [results] is [None] when missing or not an array. *)
Record ExportParams : Type := mkExportParams {
  format : option string;
  results : option (list (option ExportApi.Posted.Result))
}.

Definition allowedFormats : list string := ["csv"; "geojson"; "pdf"].

(** [validationSchemas.exportParams.validate(params)] *)
Definition exportParams_validate (params : option ExportParams) : Validation :=
  match params with
  | None => {| isValid := false; errors := ["Paramètres d'export requis"] |}
  | Some params =>
      let errors := [] in
      let errors :=
        if match format params with
           | Some format => String.eqb format "" || negb (includes allowedFormats format)
           | None => true
           end
        then errors ++ [("Format invalide. Formats autorisés: "
                         ++ String.concat ", " allowedFormats)%string]
        else errors in
      let errors :=
        if match results params with
           | Some [] | None => true
           | Some _ => false
           end
        then errors ++ ["Aucun résultat à exporter"]
        else errors in
      {| isValid := Nat.eqb (List.length errors) 0; errors := errors |}
  end.

End validationSchemas.

(** ** The client services *)

(** A file as the browser hands it over. *)
Record File : Type := mkFile {
  size : Z;
  type : string;
  name : string
}.

Module Services.

Section Host.

Variable toLowerCase : string -> string.

(** [validateFile(file)] *)
Definition validateFile (file : File) : Validation :=
  let maxSize := (10 * 1024 * 1024)%Z in
  let allowedTypes := ["image/jpeg"; "image/png"; "image/tiff"; "image/geotiff"] in
  let errors := [] in
  let errors :=
    if (size file >? maxSize)%Z
    then errors ++ ["Le fichier dépasse la taille maximale de 10MB"]
    else errors in
  let isValidType :=
    includes allowedTypes (type file)
    || endsWith (toLowerCase (name file)) ".tif"
    || endsWith (toLowerCase (name file)) ".tiff" in
  let errors :=
    if negb isValidType
    then errors ++ ["Type de fichier non supporté. Utilisez JPEG, PNG, TIFF ou GeoTIFF"]
    else errors in
  {| isValid := Nat.eqb (List.length errors) 0; errors := errors |}.

End Host.

End Services.

(** [cacheService], over a [localStorage] kept as a function from keys to
    stored strings. *)
Module cacheService.

Definition Storage : Type := string -> option string.

Definition getItem (key : string) (store : Storage) : option string := store key.

Definition setItem (key value : string) (store : Storage) : Storage :=
  fun k => if String.eqb k key then Some value else store k.

Definition removeItem (key : string) (store : Storage) : Storage :=
  fun k => if String.eqb k key then None else store k.

Definition clear (store : Storage) : Storage := fun _ => None.

Section Host.

(** The cached data, and JSON for the stored items.  What [JSON.parse]
    gives: it throws, or it gives [null], or a value whose [data] and
    [expiration] members are read ([None] for a member that is absent). *)
Variable Data : Type.

Inductive Parsed : Type :=
| SyntaxError
| ParsedNull
| ParsedValue (data : option Data) (expiration : option Z).

Variable stringify : Data -> Z -> string.
Variable parse : string -> Parsed.

(** What [get] returns. *)
Inductive Cached : Type :=
| null
| undefined
| value (data : Data).

(** [set(key, data, expirationMinutes)] at time [now]. *)
Definition set (now : Z) (key : string) (data : Data) (expirationMinutes : Z)
    (store : Storage) : Storage :=
  setItem key (stringify data (now + expirationMinutes * 60 * 1000)%Z) store.

(** [get(key)] at time [now]: an absent and an empty item are both
    falsy; an item that does not parse, or parses to [null], is removed by
    the [catch]; a missing [expiration] never expires. *)
Definition get (now : Z) (key : string) (store : Storage) : Cached * Storage :=
  match getItem key store with
  | None => (null, store)
  | Some item =>
      if String.eqb item "" then (null, store)
      else
        match parse item with
        | SyntaxError | ParsedNull => (null, removeItem key store)
        | ParsedValue data expiration =>
            if match expiration with
               | Some expiration => (now >? expiration)%Z
               | None => false
               end
            then (null, removeItem key store)
            else (match data with Some d => value d | None => undefined end, store)
        end
  end.

(** [remove(key)] *)
Definition remove (key : string) (store : Storage) : Storage := removeItem key store.

End Host.

End cacheService.

(** ** The upload API *)

Module UploadApi.

(** A part of the multipart form as the filter sees it, and a parsed
    file. *)
Record Part : Type := mkPart {
  originalFilename : option string;
  mimetype : option string
}.

Record UploadedFile : Type := mkUploadedFile {
  newFilename : string;
  originalName : option string;
  fileSize : Z;
  fileType : option string;
  filepath : string
}.

Record FileInfo : Type := mkFileInfo {
  info_filename : string;
  info_originalName : option string;
  info_size : Z;
  info_mimetype : option string;
  info_path : string;
  uploadedAt : string
}.

Inductive Response : Type :=
| failed (status : Z) (error : string) (details : option string)
| uploaded (file : FileInfo).

Section Host.

Variable toLowerCase : string -> string.

(** The [filter] option given to formidable. *)
Definition filter (part : Part) : bool :=
  let allowedTypes := ["image/jpeg"; "image/png"; "image/tiff"; "image/geotiff"] in
  match mimetype part with
  | Some mimetype => includes allowedTypes mimetype
  | None => false
  end
  || match originalFilename part with
     | Some originalFilename => endsWith (toLowerCase originalFilename) ".tif"
     | None => false
     end
  || match originalFilename part with
     | Some originalFilename => endsWith (toLowerCase originalFilename) ".tiff"
     | None => false
     end.

(** The upload [handler] from the result of [form.parse(req)] on: the
    parse throws, or gives the first file of the field [file] when there is
    one.  Returns the response and the paths given to [fs.unlinkSync]. *)
Definition handler (now : string) (method : string)
    (parsed : Completion (option UploadedFile)) : Response * list string :=
  if negb (String.eqb method "POST") then (failed 405 "Méthode non autorisée" None, [])
  else
    match parsed with
    | Throw message => (failed 500 "Erreur lors de l'upload du fichier" (Some message), [])
    | Normal None => (failed 400 "Aucun fichier uploadé" None, [])
    | Normal (Some file) =>
        let fileInfo :=
          {| info_filename := newFilename file;
             info_originalName := originalName file;
             info_size := fileSize file;
             info_mimetype := fileType file;
             info_path := filepath file;
             uploadedAt := now |} in
        if (fileSize file >? 10 * 1024 * 1024)%Z
        then (failed 400 "Fichier trop volumineux (max 10MB)" None, [filepath file])
        else (uploaded fileInfo, [])
    end.

End Host.

End UploadApi.

(** ** Sanitizing and security utilities *)

Module sanitize.

(** The character class [[a-zA-Z0-9._-]]. *)
Definition allowed (c : ascii) : bool :=
  let n := nat_of_ascii c in
  ((97 <=? n) && (n <=? 122) || (65 <=? n) && (n <=? 90) || (48 <=? n) && (n <=? 57)
   || (n =? 46) || (n =? 95) || (n =? 45))%nat.

Definition is_underscore (c : ascii) : bool := Ascii.eqb c "_"%char.

(** [.replace(/[^a-zA-Z0-9._-]/g, '_')] *)
Fixpoint replace_disallowed (s : string) : string :=
  match s with
  | EmptyString => EmptyString
  | String c rest => String (if allowed c then c else "_"%char) (replace_disallowed rest)
  end.

(** [.replace(/_{2,}/g, '_')]: an underscore followed by an underscore is
    dropped, so that every run leaves one. *)
Fixpoint collapse_underscores (s : string) : string :=
  match s with
  | EmptyString => EmptyString
  | String c rest =>
      if is_underscore c then
        match rest with
        | String c' _ =>
            if is_underscore c' then collapse_underscores rest
            else String c (collapse_underscores rest)
        | EmptyString => String c EmptyString
        end
      else String c (collapse_underscores rest)
  end.

(** [.replace(/^_+|_+$/g, '')]: the leading run, then the trailing run. *)
Fixpoint strip_leading (s : string) : string :=
  match s with
  | EmptyString => EmptyString
  | String c rest => if is_underscore c then strip_leading rest else s
  end.

Fixpoint strip_trailing (s : string) : string :=
  match s with
  | EmptyString => EmptyString
  | String c rest =>
      match strip_trailing rest with
      | EmptyString => if is_underscore c then EmptyString else String c EmptyString
      | kept => String c kept
      end
  end.

(** [sanitize.filename(filename)] on a string. *)
Definition filename (filename : string) : string :=
  slice_to 255
    (strip_trailing (strip_leading (collapse_underscores (replace_disallowed filename)))).

End sanitize.

Module security.

(** [regex.test(s)] for a regular expression that is one character
    class. *)
Fixpoint some_char (class : ascii -> bool) (s : string) : bool :=
  match s with
  | EmptyString => false
  | String c rest => class c || some_char class rest
  end.

Definition lowercase (c : ascii) : bool :=
  let n := nat_of_ascii c in ((97 <=? n) && (n <=? 122))%nat.

Definition uppercase (c : ascii) : bool :=
  let n := nat_of_ascii c in ((65 <=? n) && (n <=? 90))%nat.

Definition digit (c : ascii) : bool :=
  let n := nat_of_ascii c in ((48 <=? n) && (n <=? 57))%nat.

(** The class of the [symbols] check: ! @ # $ % ^ & * ( ) , . ? : { } | < >
    and the double quote. *)
Definition symbol (c : ascii) : bool :=
  existsb (Ascii.eqb c)
    [ "!"; "@"; "#"; "$"; "%"; "^"; "&"; "*"; "("; ")"; ","; "."; "?"; "034";
      ":"; "{"; "}"; "|"; "<"; ">" ]%char.

Record Checks : Type := mkChecks {
  check_length : bool;
  check_lowercase : bool;
  check_uppercase : bool;
  check_numbers : bool;
  check_symbols : bool
}.

Record Strength : Type := mkStrength {
  score : nat;
  maxScore : nat;
  strength : string;
  checks : Checks
}.

(** [security.checkPasswordStrength(password)] *)
Definition checkPasswordStrength (password : string) : Strength :=
  let checks :=
    {| check_length := (8 <=? String.length password)%nat;
       check_lowercase := some_char lowercase password;
       check_uppercase := some_char uppercase password;
       check_numbers := some_char digit password;
       check_symbols := some_char symbol password |} in
  let score :=
    List.length
      (List.filter (fun b : bool => b)
         [ check_length checks; check_lowercase checks; check_uppercase checks;
           check_numbers checks; check_symbols checks ]) in
  {| score := score;
     maxScore := 5;
     strength := if (score <? 2)%nat then "weak"
                 else if (score <? 4)%nat then "medium" else "strong";
     checks := checks |}.

(** The [rateLimiter] map: the times of the requests kept for each key. *)
Definition RateLimiter : Type := string -> option (list Z).

Record RateLimit : Type := mkRateLimit {
  allowed : bool;
  remaining : Z;
  resetTime : option Z
}.

(** [Math.min(...times)]; [None] stands for the [Infinity] of the empty
    list. *)
Definition minimum (times : list Z) : option Z :=
  match times with
  | [] => None
  | t :: rest => Some (fold_left Z.min rest t)
  end.

(** [security.checkRateLimit(key, maxRequests, windowMs)] at time [now]. *)
Definition checkRateLimit (now : Z) (key : string) (maxRequests windowMs : Z)
    (rateLimiter : RateLimiter) : RateLimit * RateLimiter :=
  let windowStart := (now - windowMs)%Z in
  let rateLimiter :=
    match rateLimiter key with
    | Some _ => rateLimiter
    | None => fun k => if String.eqb k key then Some [] else rateLimiter k
    end in
  let requests := match rateLimiter key with Some requests => requests | None => [] end in
  let validRequests := List.filter (fun time => (time >? windowStart)%Z) requests in
  if (Z.of_nat (List.length validRequests) >=? maxRequests)%Z then
    ({| allowed := false;
        remaining := 0;
        resetTime := option_map (fun oldest => (oldest + windowMs)%Z) (minimum validRequests) |},
     rateLimiter)
  else
    let validRequests := validRequests ++ [now] in
    ({| allowed := true;
        remaining := (maxRequests - Z.of_nat (List.length validRequests))%Z;
        resetTime := Some (now + windowMs)%Z |},
     fun k => if String.eqb k key then Some validRequests else rateLimiter k).

End security.

(** ** The file middleware *)

Module Middleware.

(** [req.file] as multer leaves it. *)
Record MulterFile : Type := mkMulterFile {
  mimetype : string;
  size : Z;
  originalname : string
}.

(** What the middleware does: it answers 400 with an error, or calls
    [next()]. *)
Inductive Outcome : Type :=
| rejected (status : Z) (error : string)
| next.

Section Host.

Variable toLowerCase : string -> string.

(** [validateFileMiddleware]; [file] is [None] when the request carries
    no file. *)
Definition validateFileMiddleware (file : option MulterFile) : Outcome :=
  let allowedMimeTypes := ["image/jpeg"; "image/png"; "image/tiff"; "image/geotiff"] in
  let maxFileSize := (10 * 1024 * 1024)%Z in
  match file with
  | Some file =>
      if negb (includes allowedMimeTypes (mimetype file))
      then rejected 400 "Type de fichier non autorisé"
      else if (size file >? maxFileSize)%Z
      then rejected 400 "Fichier trop volumineux"
      else
        let allowedExtensions := [".jpg"; ".jpeg"; ".png"; ".tif"; ".tiff"] in
        let fileExtension := slice_from (-4) (toLowerCase (originalname file)) in
        if negb (existsb (fun ext => endsWith fileExtension ext) allowedExtensions)
        then rejected 400 "Extension de fichier non autorisée"
        else next
  | None => next
  end.

End Host.

End Middleware.

(** ** Error monitoring *)

Module Monitoring.

(** An error as it is caught: its [message] and [stack] members, [None]
    when absent. *)
Record JsError : Type := mkJsError {
  message : option string;
  stack : option string
}.

(** What the browser is asked for: [Date.now()], [window.location.href]
    and [pathname], [navigator.userAgent] and the size of the window. *)
Record Env : Type := mkEnv {
  now : Z;
  href : string;
  pathname : string;
  userAgent : string;
  viewport : Z * Z
}.

Section Host.

(** The [context] objects, and the two constants of the [Analytics]
    instance. *)
Variable Context : Type.
Variable isEnabled : bool.
Variable sessionId : string.

Record ErrorInfo : Type := mkErrorInfo {
  info_message : string;
  info_stack : option string;
  info_timestamp : Z;
  info_url : string;
  info_userAgent : string;
  info_context : Context
}.

(** The [error_occurred] event that [trackError] hands to [track]. *)
Record Event : Type := mkEvent {
  event_name : string;
  event_error : option string;
  event_stack : option string;
  event_context : Context;
  event_sessionId : string;
  event_timestamp : Z;
  event_url : string;
  event_userAgent : string;
  event_viewport : Z * Z
}.

(** [errorMonitor.errors] and [analytics.events]. *)
Record State : Type := mkState {
  errors : list ErrorInfo;
  events : list Event
}.

(** [analytics.trackError(error, context)]: outside production [track]
    only logs; in production it also posts the event, which leaves no
    trace in the two logs kept here. *)
Definition trackError (env : Env) (error : JsError) (context : Context)
    (events : list Event) : list Event :=
  if negb isEnabled then events
  else
    events ++ [ {| event_name := "error_occurred";
                   event_error := message error;
                   event_stack := stack error;
                   event_context := context;
                   event_sessionId := sessionId;
                   event_timestamp := now env;
                   event_url := pathname env;
                   event_userAgent := userAgent env;
                   event_viewport := viewport env |} ].

(** [array.slice(-count)] *)
Definition last_elements {A : Type} (count : nat) (l : list A) : list A :=
  skipn (List.length l - count) l.

(** [errorMonitor.captureError(error, context)] *)
Definition captureError (env : Env) (error : JsError) (context : Context)
    (state : State) : State :=
  let errorInfo :=
    {| info_message :=
         match message error with
         | Some text => if String.eqb text "" then "Unknown error" else text
         | None => "Unknown error"
         end;
       info_stack := stack error;
       info_timestamp := now env;
       info_url := href env;
       info_userAgent := userAgent env;
       info_context := context |} in
  let errors := errors state ++ [errorInfo] in
  let events := trackError env error context (events state) in
  let errors :=
    if (100 <? List.length errors)%nat then last_elements 50 errors else errors in
  {| errors := errors; events := events |}.

End Host.

End Monitoring.

(** ** Retrying *)

Module Performance.

Section Host.

(** The values and the errors of the retried function. *)
Variable Value : Type.
Variable Error : Type.

Inductive Attempt : Type :=
| resolves (value : Value)
| rejects (error : Error).

(** How [withRetry] settles: with the value of an attempt, with the
    error of the last one, or with [undefined] when the loop ends without
    an attempt. *)
Inductive Settled : Type :=
| fulfilled (value : Value)
| rejected (error : Error)
| fulfilled_undefined.

(** The loop of [withRetry] from [i] on, with [rounds] iterations left
    before [i <= maxRetries] fails; [fn] gives the outcome of each call of
    the function, counted from 0.  Returns how the promise settles and the
    delays waited, in order. *)
Fixpoint retry_from (fn : nat -> Attempt) (maxRetries delay : Z)
    (i : nat) (rounds : nat) (waited : list Z) : Settled * list Z :=
  match rounds with
  | O => (fulfilled_undefined, waited)
  | S rounds' =>
      match fn i with
      | resolves value => (fulfilled value, waited)
      | rejects error =>
          if (Z.of_nat i =? maxRetries)%Z then (rejected error, waited)
          else
            retry_from fn maxRetries delay (S i) rounds'
              (waited ++ [(delay * 2 ^ Z.of_nat i)%Z])
      end
  end.

(** [withRetry(fn, maxRetries, delay)], for integers. *)
Definition withRetry (fn : nat -> Attempt) (maxRetries delay : Z) : Settled * list Z :=
  retry_from fn maxRetries delay 0 (Z.to_nat (maxRetries + 1)) [].

End Host.

End Performance.

(** ** Vocabulary of the statements *)

(** Thresholds strictly decrease along the table. *)
Definition descending (levels : list ConfidenceLevel) : Prop :=
  StronglySorted (fun a b => threshold b < threshold a) levels.

(** [t] is the first tier, in table order, whose threshold is at most [c]. *)
Definition first_match (levels : list ConfidenceLevel) (c : Q) (t : ConfidenceLevel) : Prop :=
  exists before after,
    levels = before ++ t :: after /\
    Forall (fun l => c < threshold l) before /\
    threshold t <= c.

(** [t] qualifies for [c] and no tier of strictly higher threshold does. *)
Definition highest_qualifying (levels : list ConfidenceLevel) (c : Q) (t : ConfidenceLevel) : Prop :=
  In t levels /\
  threshold t <= c /\
  (forall t', In t' levels -> threshold t < threshold t' -> ~ threshold t' <= c).

(** [run] started on [src] completes normally with [a]. *)
Definition returns {A : Type} (run : Run A) (src : RandomSource) (a : A) : Prop :=
  fst (run src) = Normal a.

(** [run] started on [src] throws. *)
Definition throws {A : Type} (run : Run A) (src : RandomSource) : Prop :=
  exists message, fst (run src) = Throw message.

(** The leaves of the decision policy of [predict]: the label, and the
    lower end and the width of the interval the confidence is drawn from. *)
Inductive policy (f : Features) : string -> Q -> Q -> Prop :=
| dense_forest :
    0.8 < ndvi f -> 0.9 < evi f -> policy f "Forêt" 0.85 0.1
| dense_palm :
    0.8 < ndvi f -> evi f <= 0.9 -> policy f "Palmier à huile" 0.75 0.15
| mid_palm :
    ndvi f <= 0.8 -> 0.6 < ndvi f -> 0.7 < savi f -> policy f "Palmier à huile" 0.70 0.2
| mid_cacao :
    ndvi f <= 0.8 -> 0.6 < ndvi f -> savi f <= 0.7 -> policy f "Cacao" 0.65 0.25
| sparse :
    ndvi f <= 0.6 -> policy f "Cacao" 0.45 0.3.

(** The [probabilities] literal of [predict] once its draws are made: the
    predicted class gets [raw]; the two other classes, in the order of the
    literal, get [q1] and [q2]. *)
Definition spread (class : string) (raw q1 q2 : Q) : list (string * Q) :=
  if String.eqb class "Palmier à huile" then
    [ ("Palmier à huile", raw); ("Cacao", q1); ("Forêt", q2) ]
  else if String.eqb class "Cacao" then
    [ ("Palmier à huile", q1); ("Cacao", raw); ("Forêt", q2) ]
  else
    [ ("Palmier à huile", q1); ("Cacao", q2); ("Forêt", raw) ].

(** How many of [results] were predicted as [class]. *)
Definition occurrences (class : string) (results : list ClassificationResult) : Z :=
  Z.of_nat
    (List.length
       (filter (fun r => String.eqb (predicted_class (prediction r)) class) results)).

(** Every code unit of [s] is in [class]. *)
Fixpoint every_char (class : ascii -> bool) (s : string) : bool :=
  match s with
  | EmptyString => true
  | String c rest => class c && every_char class rest
  end.

Definition starts_with_underscore (s : string) : bool :=
  match s with
  | EmptyString => false
  | String c _ => sanitize.is_underscore c
  end.

Fixpoint ends_with_underscore (s : string) : bool :=
  match s with
  | EmptyString => false
  | String c EmptyString => sanitize.is_underscore c
  | String _ rest => ends_with_underscore rest
  end.

(** No underscore of [s] is followed by an underscore. *)
Fixpoint no_double_underscore (s : string) : bool :=
  match s with
  | EmptyString => true
  | String c rest =>
      negb (sanitize.is_underscore c && starts_with_underscore rest)
      && no_double_underscore rest
  end.

(** A session with the rate limiter: [checkRateLimit(key, maxRequests,
    windowMs)] is called for each pair of a key and a time, in order, from
    an empty map.  Gives the calls that were allowed, oldest first, and the
    map the session leaves. *)
Definition rate_step (maxRequests windowMs : Z)
    (state : list (string * Z) * security.RateLimiter) (call : string * Z)
  : list (string * Z) * security.RateLimiter :=
  let (result, rateLimiter) :=
    security.checkRateLimit (snd call) (fst call) maxRequests windowMs (snd state) in
  (if security.allowed result then fst state ++ [call] else fst state, rateLimiter).

Definition rate_session (maxRequests windowMs : Z) (calls : list (string * Z))
  : list (string * Z) * security.RateLimiter :=
  fold_left (rate_step maxRequests windowMs) calls ([], fun _ => None).

(** The calls of [log] made for [key] in the window that ends at [now]. *)
Definition in_window (windowMs now : Z) (key : string) (log : list (string * Z))
  : list (string * Z) :=
  List.filter (fun call => String.eqb (fst call) key && (snd call >? now - windowMs)%Z) log.

(** The delays [withRetry] waits before a [k]-th retry: [delay * 2^j]
    for [j] below [k]. *)
Definition backoff (delay : Z) (k : nat) : list Z :=
  map (fun j => (delay * 2 ^ Z.of_nat j)%Z) (seq 0 k).

(** A session of the error monitor: [captureError] is called for each
    error, in order. *)
Definition capture_all {Context : Type} (isEnabled : bool) (sessionId : string)
    (captures : list (Monitoring.Env * Monitoring.JsError * Context))
    (state : Monitoring.State Context) : Monitoring.State Context :=
  fold_left
    (fun state capture =>
       Monitoring.captureError Context isEnabled sessionId
         (fst (fst capture)) (snd (fst capture)) (snd capture) state)
    captures state.

(** What [captureError] records for one error, on its own. *)
Definition recorded {Context : Type} (isEnabled : bool) (sessionId : string)
    (capture : Monitoring.Env * Monitoring.JsError * Context)
  : list (Monitoring.ErrorInfo Context) :=
  Monitoring.errors Context
    (Monitoring.captureError Context isEnabled sessionId
       (fst (fst capture)) (snd (fst capture)) (snd capture)
       (Monitoring.mkState Context [] [])).

(** The times the map of the rate limiter holds for a key. *)
Definition stored (rateLimiter : security.RateLimiter) (key : string) : list Z :=
  match rateLimiter key with
  | Some requests => requests
  | None => []
  end.

(** What the map holds agrees, in every window that ends at [bound] or
    later, with the calls that were allowed. *)
Definition tracks (windowMs : Z) (state : list (string * Z) * security.RateLimiter)
    (bound : Z) : Prop :=
  forall key t,
    (bound <= t)%Z ->
    List.filter (fun time => (time >? t - windowMs)%Z) (stored (snd state) key)
    = map snd (in_window windowMs t key (fst state)).

(** The declared domain of a feature vector: the three indices in
    [-1, 1], means and standard deviations not negative, a positive area. *)
Definition in_domain (f : Features) : Prop :=
  (-1 <= ndvi f <= 1) /\ (-1 <= evi f <= 1) /\ (-1 <= savi f <= 1) /\
  0 <= mean_red f /\ 0 <= mean_nir f /\ 0 <= std_red f /\ 0 <= std_nir f /\
  0 < area_ha f.

(** The formats the export handler serves. *)
Definition supported_formats : list string := ["csv"; "geojson"; "pdf"].

Definition supported (format : option string) : Prop :=
  exists name, format = Some name /\ In name supported_formats.

(** The two failures of the export handler, as it reports them. *)
Definition EmptyInputError : ExportApi.Response :=
  ExportApi.json 400 "Données de résultats requises".

Definition UnsupportedFormatError : ExportApi.Response :=
  ExportApi.json 400 "Format non supporté. Utilisez: csv, geojson, ou pdf".

(** The answer of the [catch] of the export handler. *)
Definition ExportError : ExportApi.Response :=
  ExportApi.json 500 "Erreur lors de l'export".

(** The file download the export handler answers with. *)
Definition download (filename contentType content : string) : ExportApi.Response :=
  ExportApi.send 200
    [ ("Content-Type", contentType);
      ("Content-Disposition", ("attachment; filename=" ++ ExportApi.quoted filename)%string);
      ("Cache-Control", "no-cache") ]
    content.

(** A POST request for an export of [results] in [format]. *)
Definition post (format : option string) (results : list (option ExportApi.Posted.Result))
  : ExportApi.Request :=
  ExportApi.mkRequest "POST" (Some (ExportApi.mkBody format (Some results))).

(** A classification result as an element of a posted array. *)
Definition posted (result : ClassificationResult) : option ExportApi.Posted.Result :=
  Some {| ExportApi.Posted.features := Some (features result);
          ExportApi.Posted.prediction := Some (prediction result);
          ExportApi.Posted.metadata := Some (metadata result);
          ExportApi.Posted.coordinates := coordinates result |}.

Definition present {A : Type} (member : option A) : bool :=
  match member with
  | Some _ => true
  | None => false
  end.

(** The element is an object that has the members the formatter of
    [format] reads: [prediction] and [features], and [metadata] as well
    unless the format is pdf. *)
Definition readable (format : string) (element : option ExportApi.Posted.Result) : bool :=
  match element with
  | None => false
  | Some result =>
      present (ExportApi.Posted.prediction result)
      && present (ExportApi.Posted.features result)
      && (String.eqb format "pdf" || present (ExportApi.Posted.metadata result))
  end.

(** [name] occurs in the error message of [response]. *)
Definition mentions (name : string) (response : ExportApi.Response) : bool :=
  match response with
  | ExportApi.json _ message =>
      match String.index 0 name message with
      | Some _ => true
      | None => false
      end
  | ExportApi.send _ _ _ => false
  end.


(** A number-to-string conversion for numbers with a short decimal
    expansion: sign, integer part and, when there is one, the fractional part
    (at most [precision] digits). *)
Fixpoint fraction_digits (precision : nat) (remainder denominator : Z) : string :=
  match precision with
  | O => ""
  | S precision' =>
      if (remainder =? 0)%Z then ""
      else
        (NilZero.string_of_int (Z.to_int (remainder * 10 / denominator))
         ++ fraction_digits precision' (remainder * 10 mod denominator) denominator)%string
  end.

Definition decimalString (q : Q) : string :=
  let magnitude := Z.abs (Qnum q) in
  let denominator := Zpos (Qden q) in
  let whole := NilZero.string_of_int (Z.to_int (magnitude / denominator)) in
  let remainder := (magnitude mod denominator)%Z in
  ((if (Qnum q <? 0)%Z then "-" else "")
   ++ whole
   ++ (if (remainder =? 0)%Z then "" else "." ++ fraction_digits 17 remainder denominator))%string.

(** ** Sample data *)

(** Every draw is 1/2. *)
Definition steady_source : RandomSource := fun _ => 1 # 2.


Definition dense_features : Features :=
  mkFeatures 0.85 0.95 0.8 0.2 0.7 0.03 0.05 1.5.

(** An NDVI of 2 and a negative area. *)
Definition wild_features : Features :=
  mkFeatures 2 0.95 0.8 0.2 0.7 0.03 0.05 (-1).

(** A forest result without coordinates, and the same with a position. *)
Definition forest_result : ClassificationResult :=
  {| features := dense_features;
     prediction :=
       {| predicted_class := "Forêt";
          confidence := 0.862;
          confidence_level := 5;
          confidence_label := "Très haute confiance";
          recommended_action := "Utilisation automatique recommandée";
          probabilities := [ ("Palmier à huile", 0.05); ("Cacao", 0.02); ("Forêt", 0.86234) ] |};
     metadata := mkMetadata "1.0.0" 1.5 "2024-01-15T10:30:00.000Z";
     coordinates := None |}.

Definition located_result : ClassificationResult :=
  {| features := features forest_result;
     prediction := prediction forest_result;
     metadata := metadata forest_result;
     coordinates := Some (mkCoordinates (Some 5.25) (Some (-3.5))) |}.

(** The same without its [prediction] member. *)
Definition unpredicted_result : ExportApi.Posted.Result :=
  {| ExportApi.Posted.features := Some (features forest_result);
     ExportApi.Posted.prediction := None;
     ExportApi.Posted.metadata := Some (metadata forest_result);
     ExportApi.Posted.coordinates := None |}.

(** * Properties *)

(** ** Comparisons and rounding *)

Lemma gt_true (a b : Q) : gt a b = true <-> b < a.
Proof.
  unfold gt. rewrite negb_true_iff. split.
  - intro H. apply Qnot_le_lt. intro Hle.
    apply Qle_bool_iff in Hle. congruence.
  - intro H. destruct (Qle_bool a b) eqn:E; [| reflexivity].
    apply Qle_bool_iff in E. lra.
Qed.

Lemma gt_false (a b : Q) : gt a b = false <-> a <= b.
Proof.
  unfold gt. rewrite negb_false_iff. apply Qle_bool_iff.
Qed.

Lemma ge_true (a b : Q) : ge a b = true <-> b <= a.
Proof. unfold ge. apply Qle_bool_iff. Qed.

Lemma ge_false (a b : Q) : ge a b = false <-> a < b.
Proof.
  unfold ge. split.
  - intro H. apply Qnot_le_lt. intro Hle.
    apply Qle_bool_iff in Hle. congruence.
  - intro H. destruct (Qle_bool b a) eqn:E; [| reflexivity].
    apply Qle_bool_iff in E. lra.
Qed.

Lemma thousandths_le (n m : Z) : (n <= m)%Z -> n # 1000 <= m # 1000.
Proof. intro H. unfold Qle. simpl. lia. Qed.

Lemma thousandths_inject (n : Z) : n # 1000 == inject_Z n * (1 # 1000).
Proof. unfold Qeq, Qmult, inject_Z. simpl. lia. Qed.

(** The rounding error of [toFixed3] on a non-negative number is at most
    half a thousandth. *)
Lemma toFixed3_error (x : Q) :
  0 <= x -> x - (1 # 2000) < toFixed3 x /\ toFixed3 x <= x + (1 # 2000).
Proof.
  intro Hx. unfold toFixed3.
  destruct (Qle_bool 0 x) eqn:E.
  2:{ apply Qle_bool_iff in Hx. congruence. }
  unfold nearest_thousandth. rewrite thousandths_inject.
  pose proof (Qfloor_le (x * 1000 + (1 # 2))) as Hlo.
  pose proof (Qlt_floor (x * 1000 + (1 # 2))) as Hhi.
  rewrite inject_Z_plus in Hhi.
  change (inject_Z 1) with 1 in Hhi.
  set (f := inject_Z (Qfloor (x * 1000 + (1 # 2)))) in *.
  split; lra.
Qed.

(** Rounding never crosses a multiple of 0.001 lying below the number. *)
Lemma toFixed3_lower (n : Z) (x : Q) :
  0 <= x -> n # 1000 <= x -> n # 1000 <= toFixed3 x.
Proof.
  intros Hx Hn. unfold toFixed3.
  destruct (Qle_bool 0 x) eqn:E.
  2:{ apply Qle_bool_iff in Hx. congruence. }
  apply thousandths_le. unfold nearest_thousandth.
  rewrite <- (Qfloor_Z n). apply Qfloor_resp_le.
  rewrite thousandths_inject in Hn.
  lra.
Qed.

(** Nor a multiple of 0.001 lying above it. *)
Lemma toFixed3_upper (n : Z) (x : Q) :
  0 <= x -> x <= n # 1000 -> toFixed3 x <= n # 1000.
Proof.
  intros Hx Hn. unfold toFixed3.
  destruct (Qle_bool 0 x) eqn:E.
  2:{ apply Qle_bool_iff in Hx. congruence. }
  apply thousandths_le. unfold nearest_thousandth.
  rewrite thousandths_inject in Hn.
  pose proof (Qfloor_le (x * 1000 + (1 # 2))) as Hlo.
  assert (Hlt : inject_Z (Qfloor (x * 1000 + (1 # 2))) < inject_Z (n + 1)).
  { rewrite inject_Z_plus. change (inject_Z 1) with 1. lra. }
  rewrite <- Zlt_Qlt in Hlt. lia.
Qed.

(** ** Concrete runs *)

Example predict_dense_features :
  fst (predict dense_features steady_source) =
    Normal {| predicted_class := "Forêt";
              confidence := 0.900;
              confidence_level := 5;
              confidence_label := "Très haute confiance";
              recommended_action := "Utilisation automatique recommandée";
              probabilities := [ ("Palmier à huile", 200 # 4000);
                                 ("Cacao", 200 # 4000);
                                 ("Forêt", 1800 # 2000) ] |}.
Proof. vm_compute. reflexivity. Qed.

Example extractFeatures_steady :
  exists f,
    fst (extractFeatures steady_source) = Normal f /\
    ndvi f == 0.8 /\ evi f == 0.96 /\ savi f == 0.72.
Proof. eexists. split; [vm_compute; reflexivity |]. repeat split; reflexivity. Qed.

Example toFixed3_ties_away_from_zero :
  toFixed3 0.0005 == 0.001 /\ toFixed3 (-0.0005) == -0.001 /\ toFixed3 0.86234 == 0.862.
Proof. repeat split; reflexivity. Qed.

Example generateCSV_two_results :
  ExportApi.generateCSV decimalString [forest_result; located_result] =
    ("ID,Culture_Predite,Confiance,Niveau_Confiance,Action_Recommandee,"
     ++ "NDVI,EVI,SAVI,Surface_Ha,Latitude,Longitude,Timestamp" ++ newline
     ++ "1," ++ ExportApi.quoted "Forêt" ++ ",0.862,5,"
     ++ ExportApi.quoted "Utilisation automatique recommandée"
     ++ ",0.85,0.95,0.8,1.5,,,2024-01-15T10:30:00.000Z" ++ newline
     ++ "2," ++ ExportApi.quoted "Forêt" ++ ",0.862,5,"
     ++ ExportApi.quoted "Utilisation automatique recommandée"
     ++ ",0.85,0.95,0.8,1.5,5.25,-3.5,2024-01-15T10:30:00.000Z" ++ newline)%string.
Proof. vm_compute. reflexivity. Qed.

Example generateGeoJSON_longitude_first :
  map (fun feature => GeoJSON.coordinates (GeoJSON.geometry feature))
      (GeoJSON.features (ExportApi.generateGeoJSON [forest_result; located_result]))
  = [ [Num 0; Num 0]; [Num (-3.5); Num 5.25] ].
Proof. reflexivity. Qed.

Example handler_rejects_xml :
  ExportApi.handler decimalString (fun _ => "{}") (fun _ => "<html>")
    "2024-01-15T10:30:00.000Z" (post (Some "xml") [posted forest_result])
  = UnsupportedFormatError.
Proof. reflexivity. Qed.

Example handler_rejects_get :
  ExportApi.handler decimalString (fun _ => "{}") (fun _ => "<html>")
    "2024-01-15T10:30:00.000Z"
    (ExportApi.mkRequest "GET"
       (Some (ExportApi.mkBody (Some "csv") (Some [posted forest_result]))))
  = ExportApi.json 405 "Méthode non autorisée".
Proof. reflexivity. Qed.

Example handler_sends_csv :
  ExportApi.handler decimalString (fun _ => "{}") (fun _ => "<html>")
    "2024-01-15T10:30:00.000Z" (post (Some "csv") [posted forest_result])
  = download "classification_results_2024-01-15T10-30-00-000Z.csv" "text/csv"
      (ExportApi.generateCSV decimalString [forest_result]).
Proof. reflexivity. Qed.

(** ** The confidence tiers *)

Lemma find_first_match {A : Type} (f : A -> bool) (l : list A) (x : A) :
  find f l = Some x ->
  exists before after,
    l = before ++ x :: after /\ Forall (fun y => f y = false) before /\ f x = true.
Proof.
  induction l as [| a l IH]; simpl; [discriminate |].
  destruct (f a) eqn:Fa.
  - intros [= ->]. exists [], l. auto.
  - intro H. destruct (IH H) as (before & after & -> & Hb & Hx).
    exists (a :: before), after. auto.
Qed.

Lemma scan_first_match (levels : list ConfidenceLevel) (c : Q) (t : ConfidenceLevel) :
  find (fun l => ge c (threshold l)) levels = Some t -> first_match levels c t.
Proof.
  intro H. apply find_first_match in H.
  destruct H as (before & after & -> & Hb & Ht).
  exists before, after. repeat split.
  - eapply Forall_impl; [| exact Hb]. intros a Ha. now apply ge_false.
  - now apply ge_true.
Qed.

(** On any table sorted by strictly decreasing threshold, the first match
    of the scan is the qualifying tier of highest threshold. *)
Lemma scan_highest_qualifying (levels : list ConfidenceLevel) (c : Q) (t : ConfidenceLevel) :
  descending levels ->
  find (fun l => ge c (threshold l)) levels = Some t ->
  highest_qualifying levels c t.
Proof.
  unfold descending, highest_qualifying.
  induction 1 as [| a l Hsorted IH Ha]; simpl; [discriminate |].
  destruct (ge c (threshold a)) eqn:Ga.
  - intros [= <-]. apply ge_true in Ga. repeat split; auto.
    intros t' [<- | Hin] Hlt Hq.
    + lra.
    + rewrite Forall_forall in Ha. specialize (Ha _ Hin). lra.
  - intro Hfind. destruct (IH Hfind) as (Hin & Hq & Hmax).
    repeat split; auto.
    intros t' [<- | Hin'] Hlt Hq'.
    + apply ge_false in Ga. lra.
    + exact (Hmax _ Hin' Hlt Hq').
Qed.

Lemma confidenceLevels_descending : descending confidenceLevels.
Proof.
  unfold descending, confidenceLevels.
  repeat (constructor; [| repeat constructor; simpl; lra]).
  constructor.
Qed.

Lemma confidenceLevels_thresholds_distinct (a b : ConfidenceLevel) :
  In a confidenceLevels -> In b confidenceLevels ->
  threshold a == threshold b -> a = b.
Proof.
  unfold confidenceLevels. simpl.
  intros Ha Hb.
  repeat (destruct Ha as [<- | Ha]; [| try contradiction]);
    repeat (destruct Hb as [<- | Hb]; [| try contradiction]);
    simpl; intro H; solve [reflexivity | exfalso; lra].
Qed.

(** The scan finds a tier as soon as the confidence is not negative: the
    last tier has threshold 0. *)
Lemma scan_finds_nonnegative (c : Q) :
  0 <= c ->
  exists t, find (fun l => ge c (threshold l)) confidenceLevels = Some t.
Proof.
  intro Hc.
  destruct (find (fun l => ge c (threshold l)) confidenceLevels) as [t |] eqn:E.
  - now exists t.
  - exfalso.
    pose proof (find_none _ _ E
      (mkConfidenceLevel 1 0.0 "Très faible confiance" "Analyse approfondie requise")) as H.
    simpl in H. rewrite ge_false in H.
    assert (c < 0.0) by (apply H; unfold confidenceLevels; simpl; tauto).
    lra.
Qed.

(** C2: for every confidence in [0,1] the tier lookup walks the five
    tiers in the order of thresholds 0.8, 0.6, 0.4, 0.2, 0.0 and returns
    the first tier whose threshold is at most the confidence; that tier
    qualifies, no tier of strictly higher threshold qualifies, and it is the
    only tier with these two properties. *)
Theorem resolveConfidenceLevel_highest_tier (c : Q) :
  0 <= c <= 1 ->
  map threshold confidenceLevels = [0.8; 0.6; 0.4; 0.2; 0.0] /\
  exists t,
    resolveConfidenceLevel confidenceLevels c = Normal t /\
    first_match confidenceLevels c t /\
    highest_qualifying confidenceLevels c t /\
    (forall t', highest_qualifying confidenceLevels c t' -> t' = t).
Proof.
  intros [Hlo Hhi]. split; [reflexivity |].
  destruct (scan_finds_nonnegative c Hlo) as [t Hfind].
  exists t.
  assert (Hbest : highest_qualifying confidenceLevels c t)
    by (apply scan_highest_qualifying; [apply confidenceLevels_descending | exact Hfind]).
  repeat split.
  - unfold resolveConfidenceLevel. now rewrite Hfind.
  - now apply scan_first_match.
  - apply Hbest.
  - apply Hbest.
  - apply Hbest.
  - intros t' (Hin' & Hq' & Hmax').
    destruct Hbest as (Hin & Hq & Hmax).
    apply confidenceLevels_thresholds_distinct; auto.
    destruct (Qlt_le_dec (threshold t') (threshold t)) as [Hlt | Hge].
    + exfalso. exact (Hmax' _ Hin Hlt Hq).
    + destruct (Qlt_le_dec (threshold t) (threshold t')) as [Hlt | Hle].
      * exfalso. exact (Hmax _ Hin' Hlt Hq').
      * lra.
Qed.

Lemma resolveConfidenceLevel_highest_tier_witness :
  0 <= 0.73 <= 1 /\
  exists t,
    resolveConfidenceLevel confidenceLevels 0.73 = Normal t /\
    first_match confidenceLevels 0.73 t /\
    highest_qualifying confidenceLevels 0.73 t /\
    (forall t', highest_qualifying confidenceLevels 0.73 t' -> t' = t).
Proof.
  assert (H : 0 <= 0.73 <= 1) by (split; lra).
  split; [exact H |].
  exact (proj2 (resolveConfidenceLevel_highest_tier 0.73 H)).
Defined.

Lemma resolveConfidenceLevel_returns (c : Q) :
  exists t, resolveConfidenceLevel confidenceLevels c = Normal t /\ In t confidenceLevels.
Proof.
  unfold resolveConfidenceLevel.
  destruct (find (fun l => ge c (threshold l)) confidenceLevels) as [t |] eqn:E.
  - exists t. split; [reflexivity |]. now apply find_some in E.
  - simpl. eexists. split; [reflexivity |]. simpl. tauto.
Qed.

(** ** The predictor *)

Lemma policy_total (f : Features) :
  exists class base width, policy f class base width.
Proof.
  destruct (Qlt_le_dec 0.8 (ndvi f)) as [H8 | H8].
  - destruct (Qlt_le_dec 0.9 (evi f)); eauto using policy.
  - destruct (Qlt_le_dec 0.6 (ndvi f)) as [H6 | H6].
    + destruct (Qlt_le_dec 0.7 (savi f)); eauto using policy.
    + eauto using policy.
Qed.

(** Closes one leaf of [predict]: the tier exists, the rest computes. *)
Local Ltac close_leaf class base width src :=
  let t := fresh "t" in
  let Ht := fresh "Ht" in
  destruct (resolveConfidenceLevel_returns (base + src 0%nat * width)) as (t & Ht & _);
  exists class, base, width, t;
  cbv [bind Math_random ret]; rewrite Ht;
  do 4 eexists; split; [now constructor |];
  split; [reflexivity |]; split; reflexivity.

(** One run of [predict], spelled out: the leaf of the policy that
    applies, the confidence drawn with the first number of the source, the
    tier found for it, and the returned object. *)
Lemma predict_shape (f : Features) (src : RandomSource) :
  exists class base width t p_palm p_cacao p_forest src',
    policy f class base width /\
    resolveConfidenceLevel confidenceLevels (base + src 0%nat * width) = Normal t /\
    predict f src =
      (Normal {| predicted_class := class;
                 confidence := toFixed3 (base + src 0%nat * width);
                 confidence_level := level t;
                 confidence_label := label t;
                 recommended_action := action t;
                 probabilities := [ ("Palmier à huile", p_palm);
                                    ("Cacao", p_cacao);
                                    ("Forêt", p_forest) ] |}, src') /\
    property class [ ("Palmier à huile", p_palm); ("Cacao", p_cacao); ("Forêt", p_forest) ]
      = Some (base + src 0%nat * width).
Proof.
  unfold predict.
  destruct (gt (ndvi f) 0.8) eqn:H8; [apply gt_true in H8 | apply gt_false in H8].
  - destruct (gt (evi f) 0.9) eqn:H9; [apply gt_true in H9 | apply gt_false in H9].
    + close_leaf "Forêt" 0.85 0.1 src.
    + close_leaf "Palmier à huile" 0.75 0.15 src.
  - destruct (gt (ndvi f) 0.6) eqn:H6; [apply gt_true in H6 | apply gt_false in H6].
    + destruct (gt (savi f) 0.7) eqn:H7; [apply gt_true in H7 | apply gt_false in H7].
      * close_leaf "Palmier à huile" 0.70 0.2 src.
      * close_leaf "Cacao" 0.65 0.25 src.
    + close_leaf "Cacao" 0.45 0.3 src.
Qed.

(** Bounds on a rounded value from bounds lying on the grid of
    thousandths. *)
Local Ltac on_grid lo hi :=
  first
    [ apply Qle_trans with (lo # 1000); [lra | apply toFixed3_lower; lra]
    | apply Qle_trans with (hi # 1000); [apply toFixed3_upper; lra | lra] ].

(** C1: on every feature vector [predict] follows the decision policy:
    Forest with confidence in [0.85, 0.95] when ndvi > 0.8 and evi > 0.9;
    oil palm with confidence in [0.75, 0.90] when ndvi > 0.8 and
    evi <= 0.9; for 0.6 < ndvi <= 0.8, oil palm with confidence in
    [0.70, 0.90] when savi > 0.7 and cacao with confidence in [0.65, 0.90]
    otherwise; cacao with confidence in [0.45, 0.75] when ndvi <= 0.6. *)
Theorem predict_decision_policy (f : Features) (src : RandomSource) :
  uniform src ->
  exists p src',
    predict f src = (Normal p, src') /\
    (0.8 < ndvi f -> 0.9 < evi f ->
       predicted_class p = "Forêt" /\ 0.85 <= confidence p <= 0.95) /\
    (0.8 < ndvi f -> evi f <= 0.9 ->
       predicted_class p = "Palmier à huile" /\ 0.75 <= confidence p <= 0.90) /\
    (0.6 < ndvi f <= 0.8 -> 0.7 < savi f ->
       predicted_class p = "Palmier à huile" /\ 0.70 <= confidence p <= 0.90) /\
    (0.6 < ndvi f <= 0.8 -> savi f <= 0.7 ->
       predicted_class p = "Cacao" /\ 0.65 <= confidence p <= 0.90) /\
    (ndvi f <= 0.6 ->
       predicted_class p = "Cacao" /\ 0.45 <= confidence p <= 0.75).
Proof.
  intro Hsrc. destruct (Hsrc 0%nat) as [Hr0 Hr1].
  destruct (predict_shape f src)
    as (class & base & width & t & p1 & p2 & p3 & src' & Hpol & _ & Hrun & _).
  eexists. exists src'. split; [exact Hrun |]. simpl.
  repeat split; intros; inversion Hpol; subst; try lra; try reflexivity.
  - on_grid 850%Z 950%Z.
  - on_grid 850%Z 950%Z.
  - on_grid 750%Z 900%Z.
  - on_grid 750%Z 900%Z.
  - on_grid 700%Z 900%Z.
  - on_grid 700%Z 900%Z.
  - on_grid 650%Z 900%Z.
  - on_grid 650%Z 900%Z.
  - on_grid 450%Z 750%Z.
  - on_grid 450%Z 750%Z.
Qed.

Lemma predict_decision_policy_witness :
  uniform steady_source /\
  exists p src',
    predict dense_features steady_source = (Normal p, src') /\
    (0.8 < ndvi dense_features -> 0.9 < evi dense_features ->
       predicted_class p = "Forêt" /\ 0.85 <= confidence p <= 0.95) /\
    (0.8 < ndvi dense_features -> evi dense_features <= 0.9 ->
       predicted_class p = "Palmier à huile" /\ 0.75 <= confidence p <= 0.90) /\
    (0.6 < ndvi dense_features <= 0.8 -> 0.7 < savi dense_features ->
       predicted_class p = "Palmier à huile" /\ 0.70 <= confidence p <= 0.90) /\
    (0.6 < ndvi dense_features <= 0.8 -> savi dense_features <= 0.7 ->
       predicted_class p = "Cacao" /\ 0.65 <= confidence p <= 0.90) /\
    (ndvi dense_features <= 0.6 ->
       predicted_class p = "Cacao" /\ 0.45 <= confidence p <= 0.75).
Proof.
  split.
  - intro n. unfold steady_source. split; lra.
  - apply (predict_decision_policy dense_features steady_source).
    intro n. unfold steady_source. split; lra.
Defined.

(** A confidence of at least 0.4 lands in tier 3, 4 or 5. *)
Lemma resolveConfidenceLevel_upper_tiers (c : Q) (t : ConfidenceLevel) :
  0.4 <= c ->
  resolveConfidenceLevel confidenceLevels c = Normal t ->
  (level t = 3 \/ level t = 4 \/ level t = 5)%Z.
Proof.
  intros Hc. unfold resolveConfidenceLevel, confidenceLevels. simpl find.
  destruct (ge c 0.8); [intros [= <-]; simpl; tauto |].
  destruct (ge c 0.6); [intros [= <-]; simpl; tauto |].
  destruct (ge c 0.4) eqn:G4; [intros [= <-]; simpl; tauto |].
  apply ge_false in G4. lra.
Qed.

(** C9: whatever the features and the draws, the confidence [predict]
    produces lies in [0.45, 0.95], before and after rounding, so the tier
    it resolves is 3, 4 or 5 and never 1 or 2. *)
Theorem predict_confidence_range (f : Features) (src : RandomSource) :
  uniform src ->
  exists p src' raw,
    predict f src = (Normal p, src') /\
    property (predicted_class p) (probabilities p) = Some raw /\
    0.45 <= raw <= 0.95 /\
    0.45 <= confidence p <= 0.95 /\
    (confidence_level p = 3 \/ confidence_level p = 4 \/ confidence_level p = 5)%Z /\
    confidence_level p <> 1%Z /\
    confidence_level p <> 2%Z.
Proof.
  intro Hsrc. destruct (Hsrc 0%nat) as [Hr0 Hr1].
  destruct (predict_shape f src)
    as (class & base & width & t & p1 & p2 & p3 & src' & Hpol & Ht & Hrun & Hprob).
  assert (Hraw : 0.45 <= base + src 0%nat * width <= 0.95)
    by (inversion Hpol; subst; split; lra).
  assert (Hlevel : (level t = 3 \/ level t = 4 \/ level t = 5)%Z)
    by (apply (resolveConfidenceLevel_upper_tiers (base + src 0%nat * width)); [lra | exact Ht]).
  eexists. exists src', (base + src 0%nat * width).
  split; [exact Hrun |]. simpl.
  split; [exact Hprob |].
  split; [exact Hraw |].
  split; [split; on_grid 450%Z 950%Z |].
  split; [exact Hlevel |].
  split; lia.
Qed.

Lemma predict_confidence_range_witness :
  uniform steady_source /\
  exists p src' raw,
    predict dense_features steady_source = (Normal p, src') /\
    property (predicted_class p) (probabilities p) = Some raw /\
    0.45 <= raw <= 0.95 /\
    0.45 <= confidence p <= 0.95 /\
    (confidence_level p = 3 \/ confidence_level p = 4 \/ confidence_level p = 5)%Z /\
    confidence_level p <> 1%Z /\
    confidence_level p <> 2%Z.
Proof.
  split.
  - intro n. unfold steady_source. split; lra.
  - apply (predict_confidence_range dense_features steady_source).
    intro n. unfold steady_source. split; lra.
Defined.




(** C8, as the code has it: [predict] checks no domain; on every feature
    vector, in its declared domain or not, it returns a prediction whose
    label is one of the three classes, and it never throws. *)
Theorem predict_never_rejects (f : Features) (src : RandomSource) :
  ~ throws (predict f) src /\
  exists p, returns (predict f) src p /\ In (predicted_class p) classes.
Proof.
  destruct (predict_shape f src)
    as (class & base & width & t & p1 & p2 & p3 & src' & Hpol & _ & Hrun & _).
  unfold throws, returns. rewrite Hrun. simpl. split.
  - intros [message H]. discriminate.
  - eexists. split; [reflexivity |]. simpl.
    inversion Hpol; subst; tauto.
Qed.

(** C8 fails as stated: an NDVI of 2 with a negative area is classified
    as forest. *)
Lemma predict_accepts_out_of_domain :
  ~ in_domain wild_features /\
  ~ throws (predict wild_features) steady_source /\
  exists p,
    returns (predict wild_features) steady_source p /\
    predicted_class p = "Forêt".
Proof.
  split; [| split].
  - unfold in_domain, wild_features. simpl. lra.
  - intros [message H]. vm_compute in H. discriminate.
  - eexists. split; [vm_compute; reflexivity | reflexivity].
Qed.

(** ** The feature extractor *)

Lemma extractFeatures_shape (src : RandomSource) :
  exists f src',
    extractFeatures src = (Normal f, src') /\
    ndvi f = toFixed3 (0.65 + src 0%nat * 0.3) /\
    evi f = toFixed3 ((0.65 + src 0%nat * 0.3) * 1.2) /\
    savi f = toFixed3 ((0.65 + src 0%nat * 0.3) * 0.9).
Proof.
  eexists. eexists. split; [reflexivity |]. simpl. auto.
Qed.

(** C10: every vector [extractFeatures] produces has its NDVI in
    [0.65, 0.95], and its three indices are the drawn NDVI, 1.2 times it and
    0.9 times it, each rounded to three decimals.  Hence [predict] never
    takes its sparse branch on such a vector (ndvi <= 0.6 is impossible),
    an NDVI above 0.8 comes with an EVI above 0.9, so the oil-palm leaf of
    the dense branch is out of reach, and [predict] answers forest for
    every extracted vector whose NDVI exceeds 0.8. *)
Theorem extractFeatures_reachable_branches (src : RandomSource) :
  uniform src ->
  exists f src' raw,
    extractFeatures src = (Normal f, src') /\
    0.65 <= raw < 0.95 /\
    ndvi f = toFixed3 raw /\
    evi f = toFixed3 (raw * 1.2) /\
    savi f = toFixed3 (raw * 0.9) /\
    0.65 <= ndvi f <= 0.95 /\
    ~ ndvi f <= 0.6 /\
    (0.8 < ndvi f -> 0.9 < evi f) /\
    ~ (0.8 < ndvi f /\ evi f <= 0.9) /\
    (forall src2,
       0.8 < ndvi f ->
       exists p, returns (predict f) src2 p /\ predicted_class p = "Forêt").
Proof.
  intro Hsrc. destruct (Hsrc 0%nat) as [Hr0 Hr1].
  destruct (extractFeatures_shape src) as (f & src' & Hrun & Hndvi & Hevi & Hsavi).
  set (raw := 0.65 + src 0%nat * 0.3) in *.
  assert (Hraw : 0.65 <= raw < 0.95) by (unfold raw; split; lra).
  assert (Hband : 0.65 <= ndvi f <= 0.95)
    by (rewrite Hndvi; split; on_grid 650%Z 950%Z).
  assert (Hdense : 0.8 < ndvi f -> 0.9 < evi f).
  { rewrite Hndvi, Hevi. intro H.
    pose proof (toFixed3_error raw ltac:(lra)) as [_ Hup].
    pose proof (toFixed3_error (raw * 1.2) ltac:(lra)) as [Hlow _].
    lra. }
  exists f, src', raw.
  do 7 (split; [solve [assumption | lra] |]).
  split; [exact Hdense |].
  split.
  - intros [H1 H2]. specialize (Hdense H1). lra.
  - intros src2 H.
    destruct (predict_shape f src2)
      as (class & base & width & t & p1 & p2 & p3 & src2' & Hpol & _ & Hpredict & _).
    unfold returns. rewrite Hpredict. simpl.
    eexists. split; [reflexivity |]. simpl.
    specialize (Hdense H).
    inversion Hpol; subst; solve [reflexivity | lra].
Qed.

Lemma extractFeatures_reachable_branches_witness :
  uniform steady_source /\
  exists f src' raw,
    extractFeatures steady_source = (Normal f, src') /\
    0.65 <= raw < 0.95 /\
    ndvi f = toFixed3 raw /\
    evi f = toFixed3 (raw * 1.2) /\
    savi f = toFixed3 (raw * 0.9) /\
    0.65 <= ndvi f <= 0.95 /\
    ~ ndvi f <= 0.6 /\
    (0.8 < ndvi f -> 0.9 < evi f) /\
    ~ (0.8 < ndvi f /\ evi f <= 0.9) /\
    (forall src2,
       0.8 < ndvi f ->
       exists p, returns (predict f) src2 p /\ predicted_class p = "Forêt").
Proof.
  split.
  - intro n. unfold steady_source. split; lra.
  - apply (extractFeatures_reachable_branches steady_source).
    intro n. unfold steady_source. split; lra.
Defined.

(** ** The classification entry point *)

Lemma policy_confidence_range (f : Features) (class : string) (base width r : Q) :
  policy f class base width -> 0 <= r -> r < 1 ->
  0.45 <= base + r * width <= 0.95.
Proof. intros Hpol Hr0 Hr1. inversion Hpol; subst; split; lra. Qed.

(** X5: [classify] never throws.  A missing file gives the failure
    object with the message of the [throw] inside the [try]; on an existing
    file it succeeds, whatever the draws, with the clock's timestamp, no
    coordinates, and a prediction whose tier is between 3 and 5. *)
Lemma classify_outcomes (existsSync : string -> bool) (now imagePath : string)
    (src : RandomSource) :
  uniform src ->
  (existsSync imagePath = false ->
     returns (Classifier.classify existsSync now imagePath) src
       (Failure "Fichier image non trouvé")) /\
  (existsSync imagePath = true ->
     exists result,
       returns (Classifier.classify existsSync now imagePath) src (Success result) /\
       (3 <= confidence_level (prediction result) <= 5)%Z /\
       timestamp (metadata result) = now /\
       coordinates result = None).
Proof.
  intro Hsrc.
  split; intro Hexists; unfold returns, Classifier.classify; rewrite Hexists.
  - reflexivity.
  - cbv [negb bind extractFeatures calculateNDVI ret Math_random].
    match goal with
    | |- context [predict ?f ?s] =>
        destruct (predict_shape f s)
          as (class & base & width & t & p1 & p2 & p3 & s' & Hpol & Ht & Hrun & _);
        rewrite Hrun
    end.
    eexists. split; [reflexivity |]. simpl.
    split; [| split; reflexivity].
    destruct (Hsrc 6%nat) as [Hr0 Hr1].
    pose proof (policy_confidence_range _ _ _ _ _ Hpol Hr0 Hr1) as Hraw.
    assert (Hfloor : 0.4 <= base + src 6%nat * width) by lra.
    destruct (resolveConfidenceLevel_upper_tiers _ _ Hfloor Ht) as [H | [H | H]];
      rewrite H; lia.
Qed.

(** ** The export formatters and handler *)

Import ExportApi.

Lemma append_assoc (a b c : string) : ((a ++ b) ++ c = a ++ (b ++ c))%string.
Proof. induction a as [| x a IH]; simpl; [reflexivity | now rewrite IH]. Qed.

Lemma map_indexed_length {A B : Type} (f : A -> nat -> B) (start : nat) (l : list A) :
  List.length (map_indexed f start l) = List.length l.
Proof.
  revert start. induction l as [| a l IH]; intro start; simpl; [reflexivity |].
  now rewrite IH.
Qed.

Lemma map_indexed_nth_error {A B : Type} (f : A -> nat -> B) (start : nat) (l : list A)
    (i : nat) (a : A) :
  nth_error l i = Some a ->
  nth_error (map_indexed f start l) i = Some (f a (start + i)%nat).
Proof.
  revert start i. induction l as [| x l IH]; intros start i H.
  - destruct i; discriminate.
  - destruct i as [| i]; simpl in *.
    + injection H as ->. now rewrite Nat.add_0_r.
    + rewrite (IH (S start) i H). f_equal. f_equal. lia.
Qed.


Lemma one_based (i : nat) : inject_Z (Z.of_nat i) + 1 == inject_Z (Z.of_nat (S i)).
Proof. rewrite Nat2Z.inj_succ, <- Z.add_1_r, inject_Z_plus. reflexivity. Qed.

Lemma append_empty_r (a : string) : (a ++ "")%string = a.
Proof. induction a as [| x a IH]; simpl; [reflexivity | now rewrite IH]. Qed.

Lemma concat_empty_separator_cons (x : string) (xs : list string) :
  String.concat "" (x :: xs) = (x ++ String.concat "" xs)%string.
Proof.
  destruct xs as [| y ys]; simpl.
  - now rewrite append_empty_r.
  - reflexivity.
Qed.

(** A loop that appends one line per element builds the concatenation of
    the lines after what the accumulator held. *)
Lemma forEach_indexed_appends {A : Type} (line : A -> nat -> string) (start : nat)
    (l : list A) (acc : string) :
  forEach_indexed (fun csv a index => (csv ++ line a index)%string) start l acc
  = (acc ++ String.concat "" (map_indexed line start l))%string.
Proof.
  revert start acc. induction l as [| a l IH]; intros start acc.
  - simpl. now rewrite append_empty_r.
  - cbn [forEach_indexed map_indexed].
    now rewrite IH, concat_empty_separator_cons, append_assoc.
Qed.

(** A loop whose callback throws exactly on the elements that fail a
    test reads the whole array when every element passes it, and throws
    otherwise. *)
Lemma each_outcome {A B : Type} (ok : A -> bool) (f : A -> Completion B) (l : list A) :
  (forall a, if ok a then exists b, f a = Normal b else exists message, f a = Throw message) ->
  if forallb ok l
  then exists bs, each f l = Normal bs /\ List.length bs = List.length l
  else exists message, each f l = Throw message.
Proof.
  intro Hf. induction l as [| a l IH]; cbn [forallb each].
  - exists []. split; reflexivity.
  - specialize (Hf a). destruct (ok a); cbn [andb].
    + destruct Hf as [b Hb]. rewrite Hb. cbn [andThen].
      destruct (forallb ok l).
      * destruct IH as (bs & Hbs & Hlen). rewrite Hbs. cbn [andThen].
        exists (b :: bs). split; [reflexivity | cbn [List.length]; now rewrite Hlen].
      * destruct IH as [message Hm]. rewrite Hm. cbn [andThen]. now exists message.
    + destruct Hf as [message Hm]. rewrite Hm. cbn [andThen]. now exists message.
Qed.

Lemma complete_readable (name : string) (element : option Posted.Result) :
  String.eqb name "pdf" = false ->
  if readable name element
  then exists result, complete element = Normal result
  else exists message, complete element = Throw message.
Proof.
  intro Hname. unfold readable, complete. rewrite Hname.
  destruct element as [[[f |] [p |] [m |] c] |]; cbn; eauto.
Qed.

Lemma reportRow_readable (element : option Posted.Result) :
  if readable "pdf" element
  then exists row, reportRow element = Normal row
  else exists message, reportRow element = Throw message.
Proof.
  unfold readable, reportRow.
  destruct element as [[[f |] [p |] [m |] c] |]; cbn; eauto.
Qed.

(** A posted classification result is read back as it is. *)
Lemma each_complete_posted (results : list ClassificationResult) :
  each complete (map posted results) = Normal results.
Proof.
  induction results as [| [f p m c] results IH]; [reflexivity |].
  cbn [map each]. rewrite IH. reflexivity.
Qed.

Lemma each_reportRow_posted (results : list ClassificationResult) :
  each reportRow (map posted results)
  = Normal (map (fun result => (prediction result, features result)) results).
Proof.
  induction results as [| [f p m c] results IH]; [reflexivity |].
  cbn [map each]. rewrite IH. reflexivity.
Qed.

Section ExportProperties.

Variable Number_toString : Q -> string.
Variable JSON_stringify : GeoJSON.FeatureCollection -> string.
Variable generatePDFReport : list (Prediction * Features) -> string.

Local Abbreviation export := (handler Number_toString JSON_stringify generatePDFReport).

(** C4, as the code has it: a POST export of an empty result list fails
    with the empty-input error and no file; with results, a format outside
    csv, geojson and pdf fails with the unsupported-format error, whose
    message lists the three formats; with results and one of the three
    formats, the export fails with the 500 answer of the [catch] when some
    element of the list lacks a member the formatter reads, and otherwise
    the handler answers 200 with one file, whose name, content type and
    content are those of the formatter applied to the results read.  A
    request without a body fails with the 500 answer as well. *)
Theorem export_fails_exactly_on_invalid_input
    (now : string) (format : option string) (results : list (option Posted.Result)) :
  (results = [] -> export now (post format results) = EmptyInputError) /\
  (results <> [] -> ~ supported format ->
     export now (post format results) = UnsupportedFormatError) /\
  (forall name,
     results <> [] -> format = Some name -> In name supported_formats ->
     forallb (readable name) results = false ->
     export now (post format results) = ExportError) /\
  (results <> [] -> format = Some "csv" -> forallb (readable "csv") results = true ->
     exists readable_results,
       each complete results = Normal readable_results /\
       export now (post format results) =
         download ("classification_results_" ++ replace_colon_dot now ++ ".csv")%string
           "text/csv" (generateCSV Number_toString readable_results)) /\
  (results <> [] -> format = Some "geojson" ->
   forallb (readable "geojson") results = true ->
     exists readable_results,
       each complete results = Normal readable_results /\
       export now (post format results) =
         download ("classification_results_" ++ replace_colon_dot now ++ ".geojson")%string
           "application/geo+json" (JSON_stringify (generateGeoJSON readable_results))) /\
  (results <> [] -> format = Some "pdf" -> forallb (readable "pdf") results = true ->
     exists rows,
       each reportRow results = Normal rows /\
       export now (post format results) =
         download ("rapport_classification_" ++ replace_colon_dot now ++ ".html")%string
           "text/html" (generatePDFReport rows)) /\
  (forall complete_results : list ClassificationResult,
     complete_results <> [] ->
     export now (post (Some "csv") (map posted complete_results)) =
       download ("classification_results_" ++ replace_colon_dot now ++ ".csv")%string
         "text/csv" (generateCSV Number_toString complete_results)
     /\ export now (post (Some "geojson") (map posted complete_results)) =
          download ("classification_results_" ++ replace_colon_dot now ++ ".geojson")%string
            "application/geo+json" (JSON_stringify (generateGeoJSON complete_results))
     /\ export now (post (Some "pdf") (map posted complete_results)) =
          download ("rapport_classification_" ++ replace_colon_dot now ++ ".html")%string
            "text/html"
            (generatePDFReport
               (map (fun result => (prediction result, features result))
                  complete_results))) /\
  export now (mkRequest "POST" None) = ExportError /\
  EmptyInputError <> UnsupportedFormatError /\
  EmptyInputError <> ExportError /\
  UnsupportedFormatError <> ExportError /\
  Forall (fun name => mentions name UnsupportedFormatError = true) supported_formats /\
  mentions "xml" UnsupportedFormatError = false.
Proof.
  split; [intros ->; reflexivity |].
  split.
  { intros Hne Hno.
    destruct results as [| r rest]; [contradiction |].
    unfold export, handler, post. cbn.
    destruct format as [name |]; [| reflexivity].
    destruct (String.eqb name "csv") eqn:Ecsv.
    { apply String.eqb_eq in Ecsv. exfalso. apply Hno.
      exists name. split; [reflexivity |]. subst. simpl. tauto. }
    destruct (String.eqb name "geojson") eqn:Egeo.
    { apply String.eqb_eq in Egeo. exfalso. apply Hno.
      exists name. split; [reflexivity |]. subst. simpl. tauto. }
    destruct (String.eqb name "pdf") eqn:Epdf.
    { apply String.eqb_eq in Epdf. exfalso. apply Hno.
      exists name. split; [reflexivity |]. subst. simpl. tauto. }
    reflexivity. }
  pose proof (each_outcome (readable "csv") complete results
                (fun e => complete_readable "csv" e eq_refl)) as Hcsv.
  pose proof (each_outcome (readable "geojson") complete results
                (fun e => complete_readable "geojson" e eq_refl)) as Hgeo.
  pose proof (each_outcome (readable "pdf") reportRow results reportRow_readable) as Hpdf.
  split.
  { intros name Hne -> Hin Hbad.
    destruct results as [| r rest]; [contradiction |].
    unfold export, handler, post.
    cbn [method body results ExportApi.format negb String.eqb Ascii.eqb Bool.eqb read andThen].
    destruct Hin as [<- | [<- | [<- | []]]];
      cbn [String.eqb Ascii.eqb Bool.eqb].
    - rewrite Hbad in Hcsv. destruct Hcsv as [message ->]. reflexivity.
    - rewrite Hbad in Hgeo. destruct Hgeo as [message ->]. reflexivity.
    - rewrite Hbad in Hpdf. destruct Hpdf as [message ->]. reflexivity. }
  split.
  { intros Hne -> Hok. rewrite Hok in Hcsv. destruct Hcsv as (read_back & Hread & _).
    exists read_back. split; [exact Hread |].
    destruct results as [| r rest]; [contradiction |].
    unfold export, handler, post.
    cbn [method body results ExportApi.format negb String.eqb Ascii.eqb Bool.eqb read andThen].
    rewrite Hread. reflexivity. }
  split.
  { intros Hne -> Hok. rewrite Hok in Hgeo. destruct Hgeo as (read_back & Hread & _).
    exists read_back. split; [exact Hread |].
    destruct results as [| r rest]; [contradiction |].
    unfold export, handler, post.
    cbn [method body results ExportApi.format negb String.eqb Ascii.eqb Bool.eqb read andThen].
    rewrite Hread. reflexivity. }
  split.
  { intros Hne -> Hok. rewrite Hok in Hpdf. destruct Hpdf as (rows & Hread & _).
    exists rows. split; [exact Hread |].
    destruct results as [| r rest]; [contradiction |].
    unfold export, handler, post.
    cbn [method body results ExportApi.format negb String.eqb Ascii.eqb Bool.eqb read andThen].
    rewrite Hread. reflexivity. }
  split.
  { intros [| r rest] Hne; [contradiction |].
    unfold export, handler, post.
    cbn [method body ExportApi.results ExportApi.format negb String.eqb Ascii.eqb Bool.eqb
         read andThen map].
    change (posted r :: map posted rest) with (map posted (r :: rest)).
    rewrite each_complete_posted, each_reportRow_posted.
    repeat split; reflexivity. }
  split; [reflexivity |].
  split; [discriminate |].
  split; [discriminate |].
  split; [discriminate |].
  split; [repeat constructor | reflexivity].
Qed.

(** C5, as the code has it: the CSV text is a header line of the twelve
    fixed column names followed by one line per result, in order; the line
    of the result at position [i] has twelve cells and starts with the
    identifier [i + 1]; the predicted class and the recommended action are
    wrapped in double quotes, the timestamp is written as it is, and a
    missing latitude or longitude gives an empty cell. *)
Theorem generateCSV_layout (results : list ClassificationResult) :
  List.length headers = 12%nat /\
  generateCSV Number_toString results =
    (String.concat "," headers ++ newline ++
     String.concat ""
       (map_indexed
          (fun result index => join Number_toString "," (csvRow result index) ++ newline)
          0 results))%string /\
  List.length
    (map_indexed
       (fun result index => join Number_toString "," (csvRow result index) ++ newline)%string
       0 results) = List.length results /\
  (forall i result,
     nth_error results i = Some result ->
     nth_error
       (map_indexed
          (fun result index => join Number_toString "," (csvRow result index) ++ newline)%string
          0 results) i
     = Some (join Number_toString "," (csvRow result i) ++ newline)%string) /\
  (forall i result,
     List.length (csvRow result i) = 12%nat /\
     nth_error (csvRow result i) 0 = Some (Num (inject_Z (Z.of_nat i) + 1)) /\
     inject_Z (Z.of_nat i) + 1 == inject_Z (Z.of_nat (S i)) /\
     nth_error (csvRow result i) 1 = Some (Str (quoted (predicted_class (prediction result)))) /\
     nth_error (csvRow result i) 4 = Some (Str (quoted (recommended_action (prediction result)))) /\
     nth_error (csvRow result i) 11 = Some (Str (timestamp (metadata result))) /\
     (optional_lat result = None -> nth_error (csvRow result i) 9 = Some (Str "")) /\
     (optional_lng result = None -> nth_error (csvRow result i) 10 = Some (Str ""))).
Proof.
  split; [reflexivity |].
  split.
  { unfold generateCSV. rewrite forEach_indexed_appends. apply append_assoc. }
  split; [apply map_indexed_length |].
  split.
  { intros i result H.
    now rewrite (map_indexed_nth_error _ 0 results i result H). }
  intros i result.
  split; [reflexivity |].
  split; [reflexivity |].
  split; [apply one_based |].
  do 3 (split; [reflexivity |]).
  split; intro H; simpl; rewrite H; reflexivity.
Qed.

End ExportProperties.

(** C4 fails as stated: a list of one result that has no [prediction]
    member is not empty and csv is a supported format, yet the export
    answers 500 and sends no file. *)
Lemma export_fails_on_missing_prediction :
  [Some unpredicted_result] <> [] /\
  supported (Some "csv") /\
  handler decimalString (fun _ => "{}") (fun _ => "<html>") "2024-01-15T10:30:00.000Z"
    (post (Some "csv") [Some unpredicted_result])
  = json 500 "Erreur lors de l'export".
Proof.
  split; [discriminate |].
  split; [exists "csv"; split; [reflexivity | simpl; tauto] |].
  reflexivity.
Qed.

(** C5 fails as stated: the timestamp is a string field and reaches the
    row without quotes, and the header carries the code's own column
    names. *)
Lemma generateCSV_timestamp_unquoted :
  nth_error (csvRow forest_result 0) 11 = Some (Str "2024-01-15T10:30:00.000Z") /\
  Str "2024-01-15T10:30:00.000Z" <> Str (quoted "2024-01-15T10:30:00.000Z") /\
  generateCSV decimalString [forest_result] =
    ("ID,Culture_Predite,Confiance,Niveau_Confiance,Action_Recommandee,"
     ++ "NDVI,EVI,SAVI,Surface_Ha,Latitude,Longitude,Timestamp" ++ newline
     ++ "1," ++ quoted "Forêt" ++ ",0.862,5," ++ quoted "Utilisation automatique recommandée"
     ++ ",0.85,0.95,0.8,1.5,,," ++ "2024-01-15T10:30:00.000Z" ++ newline)%string /\
  String.concat "," headers <>
    "ID,PredictedClass,Confidence,ConfidenceLevel,RecommendedAction,NDVI,EVI,SAVI,AreaHa,Latitude,Longitude,Timestamp".
Proof.
  split; [reflexivity |].
  split; [discriminate |].
  split; [vm_compute; reflexivity | discriminate].
Qed.


(** ** More on the predictor *)

(** Closes one leaf of [predict] with its three probabilities spelled
    out. *)
Local Ltac spell_leaf class base width src :=
  let t := fresh "t" in
  let Ht := fresh "Ht" in
  let Hin := fresh "Hin" in
  destruct (resolveConfidenceLevel_returns (base + src 0%nat * width)) as (t & Ht & Hin);
  exists class, base, width, t;
  cbv [bind Math_random ret probabilityOf]; rewrite Ht;
  split; [once (constructor; assumption) |];
  split; [reflexivity |]; split; [assumption |]; reflexivity.

(** One run of [predict] with everything it draws: the confidence from
    the first number of the source, and the probabilities of the two classes
    that were not predicted from the second and the third.  Three numbers
    are consumed. *)
Lemma predict_draws (f : Features) (src : RandomSource) :
  exists class base width t,
    policy f class base width /\
    resolveConfidenceLevel confidenceLevels (base + src 0%nat * width) = Normal t /\
    In t confidenceLevels /\
    predict f src =
      (Normal {| predicted_class := class;
                 confidence := toFixed3 (base + src 0%nat * width);
                 confidence_level := level t;
                 confidence_label := label t;
                 recommended_action := action t;
                 probabilities :=
                   spread class (base + src 0%nat * width)
                     (src 1%nat * (1 - (base + src 0%nat * width)))
                     (src 2%nat * (1 - (base + src 0%nat * width))) |},
       advance (advance (advance src))).
Proof.
  unfold predict.
  destruct (gt (ndvi f) 0.8) eqn:H8; [apply gt_true in H8 | apply gt_false in H8].
  - destruct (gt (evi f) 0.9) eqn:H9; [apply gt_true in H9 | apply gt_false in H9].
    + spell_leaf "Forêt" 0.85 0.1 src.
    + spell_leaf "Palmier à huile" 0.75 0.15 src.
  - destruct (gt (ndvi f) 0.6) eqn:H6; [apply gt_true in H6 | apply gt_false in H6].
    + destruct (gt (savi f) 0.7) eqn:H7; [apply gt_true in H7 | apply gt_false in H7].
      * spell_leaf "Palmier à huile" 0.70 0.2 src.
      * spell_leaf "Cacao" 0.65 0.25 src.
    + spell_leaf "Cacao" 0.45 0.3 src.
Qed.

Lemma policy_classes (f : Features) (class : string) (base width : Q) :
  policy f class base width ->
  class = "Forêt" \/ class = "Palmier à huile" \/ class = "Cacao".
Proof. intro H. inversion H; subst; tauto. Qed.

Lemma draw_scaled (r c : Q) : 0 <= r -> r < 1 -> 0 < c -> 0 <= r * c /\ r * c < c.
Proof.
  intros Hr0 Hr1 Hc. split.
  - apply Qmult_le_0_compat; lra.
  - rewrite <- (Qmult_1_l c) at 2. apply Qmult_lt_r; assumption.
Qed.

(** X1: for every feature vector whose NDVI exceeds 0.6, the class
    [predict] returns is the one with the strictly largest entry of
    [probabilities]: each other class gets a draw times [1 - confidence],
    which stays below 0.35 while the confidence is at least 0.65. *)
Theorem predict_label_most_probable (f : Features) (src : RandomSource) :
  uniform src ->
  0.6 < ndvi f ->
  exists p src' raw,
    predict f src = (Normal p, src') /\
    property (predicted_class p) (probabilities p) = Some raw /\
    0.65 <= raw /\
    (forall class q,
       In (class, q) (probabilities p) ->
       class <> predicted_class p ->
       0 <= q /\ q < 0.35 /\ q < raw).
Proof.
  intros Hsrc Hndvi.
  destruct (Hsrc 0%nat) as [Hr0 Hr1].
  destruct (predict_draws f src) as (class & base & width & t & Hpol & _ & _ & Hrun).
  set (raw := base + src 0%nat * width) in *.
  assert (Hraw : 0.65 <= raw /\ raw < 0.95)
    by (unfold raw; inversion Hpol; subst; split; lra).
  pose proof (draw_scaled (src 1%nat) (1 - raw)
                (proj1 (Hsrc 1%nat)) (proj2 (Hsrc 1%nat)) ltac:(lra)) as H1.
  pose proof (draw_scaled (src 2%nat) (1 - raw)
                (proj1 (Hsrc 2%nat)) (proj2 (Hsrc 2%nat)) ltac:(lra)) as H2.
  eexists. exists (advance (advance (advance src))), raw.
  split; [exact Hrun |]. cbn [predicted_class probabilities].
  destruct (policy_classes _ _ _ _ Hpol) as [-> | [-> | ->]];
    (split; [reflexivity |]); (split; [lra |]);
    intros class q [Hin | [Hin | [Hin | []]]] Hother;
    injection Hin as <- <-;
    solve [ contradiction | lra ].
Qed.

Lemma predict_label_most_probable_witness :
  uniform steady_source /\
  0.6 < ndvi dense_features /\
  exists p src' raw,
    predict dense_features steady_source = (Normal p, src') /\
    property (predicted_class p) (probabilities p) = Some raw /\
    0.65 <= raw /\
    (forall class q,
       In (class, q) (probabilities p) ->
       class <> predicted_class p ->
       0 <= q /\ q < 0.35 /\ q < raw).
Proof.
  assert (Hsrc : uniform steady_source) by (intro n; unfold steady_source; split; lra).
  assert (Hndvi : 0.6 < ndvi dense_features) by (simpl; lra).
  split; [exact Hsrc |]. split; [exact Hndvi |].
  exact (predict_label_most_probable dense_features steady_source Hsrc Hndvi).
Defined.

(** X2: the entries of [probabilities] are not normalised.  There is
    one for each of the three classes, each between 0 and 1, but their total
    follows the two draws made for the classes that were not predicted: it
    is below 1 when both draws are at most 0.4 and above 1 when both are at
    least 0.6. *)
Theorem predict_probabilities_total (f : Features) (src : RandomSource) :
  uniform src ->
  exists p src',
    predict f src = (Normal p, src') /\
    map fst (probabilities p) = classes /\
    Forall (fun q => 0 <= q <= 1) (map snd (probabilities p)) /\
    (src 1%nat <= 0.4 -> src 2%nat <= 0.4 ->
       fold_right Qplus 0 (map snd (probabilities p)) < 1) /\
    (0.6 <= src 1%nat -> 0.6 <= src 2%nat ->
       1 < fold_right Qplus 0 (map snd (probabilities p))).
Proof.
  intro Hsrc.
  destruct (Hsrc 0%nat) as [Hr0 Hr1].
  destruct (predict_draws f src) as (class & base & width & t & Hpol & _ & _ & Hrun).
  set (raw := base + src 0%nat * width) in *.
  assert (Hraw : 0.45 <= raw /\ raw < 0.95)
    by (unfold raw; inversion Hpol; subst; split; lra).
  pose proof (draw_scaled (src 1%nat) (1 - raw)
                (proj1 (Hsrc 1%nat)) (proj2 (Hsrc 1%nat)) ltac:(lra)) as H1.
  pose proof (draw_scaled (src 2%nat) (1 - raw)
                (proj1 (Hsrc 2%nat)) (proj2 (Hsrc 2%nat)) ltac:(lra)) as H2.
  assert (Hlow : forall r, r <= 0.4 -> r * (1 - raw) <= 0.4 * (1 - raw))
    by (intros r Hr; apply Qmult_le_compat_r; lra).
  assert (Hhigh : forall r, 0.6 <= r -> 0.6 * (1 - raw) <= r * (1 - raw))
    by (intros r Hr; apply Qmult_le_compat_r; lra).
  eexists. exists (advance (advance (advance src))).
  split; [exact Hrun |]. cbn [predicted_class probabilities].
  destruct (policy_classes _ _ _ _ Hpol) as [-> | [-> | ->]];
    cbn [spread String.eqb Ascii.eqb Bool.eqb map fst snd fold_right];
    (split; [reflexivity |]);
    (split; [repeat constructor; lra |]);
    (split; intros Ha Hb;
     [ pose proof (Hlow _ Ha); pose proof (Hlow _ Hb)
     | pose proof (Hhigh _ Ha); pose proof (Hhigh _ Hb) ]; lra).
Qed.

Lemma predict_probabilities_total_witness :
  uniform steady_source /\
  exists p src',
    predict dense_features steady_source = (Normal p, src') /\
    map fst (probabilities p) = classes /\
    Forall (fun q => 0 <= q <= 1) (map snd (probabilities p)) /\
    (steady_source 1%nat <= 0.4 -> steady_source 2%nat <= 0.4 ->
       fold_right Qplus 0 (map snd (probabilities p)) < 1) /\
    (0.6 <= steady_source 1%nat -> 0.6 <= steady_source 2%nat ->
       1 < fold_right Qplus 0 (map snd (probabilities p))).
Proof.
  assert (Hsrc : uniform steady_source) by (intro n; unfold steady_source; split; lra).
  split; [exact Hsrc |].
  exact (predict_probabilities_total dense_features steady_source Hsrc).
Defined.

(** With a confidence of 0.9, draws of 0.1 make the entries add up to
    0.92, and draws of 0.9 to 1.08. *)
Example predict_probabilities_off_one :
  exists low high,
    returns (predict dense_features) (fun n => if Nat.eqb n 0 then 0.5 else 0.1) low /\
    fold_right Qplus 0 (map snd (probabilities low)) == 0.92 /\
    returns (predict dense_features) (fun n => if Nat.eqb n 0 then 0.5 else 0.9) high /\
    fold_right Qplus 0 (map snd (probabilities high)) == 1.08.
Proof.
  eexists. eexists.
  split; [vm_compute; reflexivity |].
  split; [reflexivity |].
  split; [vm_compute; reflexivity |].
  reflexivity.
Qed.

Lemma confidenceLevels_on_grid (t : ConfidenceLevel) :
  In t confidenceLevels -> exists n : Z, threshold t == n # 1000.
Proof.
  unfold confidenceLevels. simpl.
  intros [<- | [<- | [<- | [<- | [<- | []]]]]]; simpl.
  - now exists 800%Z.
  - now exists 600%Z.
  - now exists 400%Z.
  - now exists 200%Z.
  - now exists 0%Z.
Qed.

Lemma resolveConfidenceLevel_scan (c : Q) (t : ConfidenceLevel) :
  0 <= c ->
  resolveConfidenceLevel confidenceLevels c = Normal t ->
  highest_qualifying confidenceLevels c t.
Proof.
  intros Hc Ht.
  destruct (scan_finds_nonnegative c Hc) as [t' Hfind].
  unfold resolveConfidenceLevel in Ht. rewrite Hfind in Ht.
  injection Ht as <-.
  apply scan_highest_qualifying; [apply confidenceLevels_descending | exact Hfind].
Qed.

(** X3: the tier [predict] reports is the one of the confidence as
    drawn, before rounding: level, label and action are those of the row the
    lookup finds for the lower end of the interval of the leaf plus the first
    draw times its width, while the [confidence] field is that number
    rounded.  The two stay consistent in that the threshold of the row is at
    most the reported confidence and the reported confidence never exceeds
    the threshold of a higher row; but it can reach it: from a draw of 0.7996
    the prediction reports a confidence of 0.8 with level 4, although 0.8
    itself belongs to level 5. *)
Theorem predict_tier_consistent_with_rounding (f : Features) (src : RandomSource) :
  uniform src ->
  (exists p src' base width t,
     predict f src = (Normal p, src') /\
     policy f (predicted_class p) base width /\
     resolveConfidenceLevel confidenceLevels (base + src 0%nat * width) = Normal t /\
     confidence p = toFixed3 (base + src 0%nat * width) /\
     confidence_level p = level t /\
     confidence_label p = label t /\
     recommended_action p = action t /\
     threshold t <= confidence p /\
     (forall t', In t' confidenceLevels ->
                 threshold t < threshold t' -> confidence p <= threshold t')) /\
  (exists f0 src0 p0 t0,
     uniform src0 /\
     returns (predict f0) src0 p0 /\
     src0 0%nat == 0.498 /\
     confidence p0 == 0.8 /\
     confidence_level p0 = 4%Z /\
     resolveConfidenceLevel confidenceLevels (confidence p0) = Normal t0 /\
     level t0 = 5%Z).
Proof.
  intro Hsrc. split.
  - destruct (Hsrc 0%nat) as [Hr0 Hr1].
    destruct (predict_draws f src) as (class & base & width & t & Hpol & Ht & Hin & Hrun).
    set (raw := base + src 0%nat * width) in *.
    assert (Hraw : 0 <= raw) by (unfold raw; inversion Hpol; subst; lra).
    destruct (resolveConfidenceLevel_scan raw t Hraw Ht) as (_ & Hq & Hmax).
    eexists. exists (advance (advance (advance src))), base, width, t.
    split; [exact Hrun |].
    cbn [predicted_class confidence confidence_level confidence_label recommended_action].
    do 6 (split; [solve [assumption | reflexivity] |]).
    split.
    + destruct (confidenceLevels_on_grid t Hin) as [n Hn].
      rewrite Hn in *. now apply toFixed3_lower.
    + intros t' Hin' Hlt.
      destruct (confidenceLevels_on_grid t' Hin') as [n Hn].
      assert (Hbelow : raw <= threshold t').
      { destruct (Qlt_le_dec raw (threshold t')) as [H | H]; [lra |].
        exfalso. exact (Hmax t' Hin' Hlt H). }
      rewrite Hn in *. now apply toFixed3_upper.
  - exists (mkFeatures 0.79 0.948 0.711 0.2 0.7 0.03 0.05 1.5), (fun _ => 0.498).
    eexists. eexists.
    split; [intro n; split; lra |].
    split; [vm_compute; reflexivity |].
    split; [reflexivity |].
    split; [reflexivity |].
    split; [reflexivity |].
    split; [vm_compute; reflexivity | reflexivity].
Qed.

Lemma predict_tier_consistent_with_rounding_witness :
  uniform steady_source /\
  exists p src' base width t,
    predict dense_features steady_source = (Normal p, src') /\
    policy dense_features (predicted_class p) base width /\
    resolveConfidenceLevel confidenceLevels (base + steady_source 0%nat * width) = Normal t /\
    confidence p = toFixed3 (base + steady_source 0%nat * width) /\
    confidence_level p = level t /\
    confidence_label p = label t /\
    recommended_action p = action t /\
    threshold t <= confidence p /\
    (forall t', In t' confidenceLevels ->
                threshold t < threshold t' -> confidence p <= threshold t').
Proof.
  assert (Hsrc : uniform steady_source) by (intro n; unfold steady_source; split; lra).
  split; [exact Hsrc |].
  exact (proj1 (predict_tier_consistent_with_rounding dense_features steady_source Hsrc)).
Defined.

(** ** More on the feature extractor and on [classify] *)

(** X4: whatever the draws, [extractFeatures] consumes six of them and
    every field of the vector it returns stays in a fixed range: NDVI in
    [0.65, 0.95], EVI in [0.78, 1.14], SAVI in [0.585, 0.855], the red mean
    in [0.1, 0.4], the near-infrared mean in [0.6, 1], the two deviations in
    [0.02, 0.07] and [0.03, 0.11], the area in [0.5, 5.5] hectares.  The EVI
    exceeds 1 as soon as the first draw is 0.62 or more. *)
Theorem extractFeatures_ranges (src : RandomSource) :
  uniform src ->
  exists f,
    extractFeatures src
      = (Normal f, advance (advance (advance (advance (advance (advance src)))))) /\
    0.65 <= ndvi f <= 0.95 /\
    0.78 <= evi f <= 1.14 /\
    0.585 <= savi f <= 0.855 /\
    0.1 <= mean_red f <= 0.4 /\
    0.6 <= mean_nir f <= 1 /\
    0.02 <= std_red f <= 0.07 /\
    0.03 <= std_nir f <= 0.11 /\
    0.5 <= area_ha f <= 5.5 /\
    (0.62 <= src 0%nat -> 1 < evi f).
Proof.
  intro Hsrc.
  pose proof (Hsrc 0%nat) as [H0 H0'].
  pose proof (Hsrc 1%nat) as [H1 H1'].
  pose proof (Hsrc 2%nat) as [H2 H2'].
  pose proof (Hsrc 3%nat) as [H3 H3'].
  pose proof (Hsrc 4%nat) as [H4 H4'].
  pose proof (Hsrc 5%nat) as [H5 H5'].
  eexists. split; [reflexivity |].
  cbn [ndvi evi savi mean_red mean_nir std_red std_nir area_ha].
  unfold advance.
  split; [split; on_grid 650%Z 950%Z |].
  split; [split; on_grid 780%Z 1140%Z |].
  split; [split; on_grid 585%Z 855%Z |].
  do 5 (split; [split; lra |]).
  intro Hhigh.
  apply Qlt_le_trans with (1003 # 1000); [lra |].
  apply toFixed3_lower; lra.
Qed.

Lemma extractFeatures_ranges_witness :
  uniform steady_source /\
  exists f,
    extractFeatures steady_source
      = (Normal f,
         advance (advance (advance (advance (advance (advance steady_source)))))) /\
    0.65 <= ndvi f <= 0.95 /\
    0.78 <= evi f <= 1.14 /\
    0.585 <= savi f <= 0.855 /\
    0.1 <= mean_red f <= 0.4 /\
    0.6 <= mean_nir f <= 1 /\
    0.02 <= std_red f <= 0.07 /\
    0.03 <= std_nir f <= 0.11 /\
    0.5 <= area_ha f <= 5.5 /\
    (0.62 <= steady_source 0%nat -> 1 < evi f).
Proof.
  assert (Hsrc : uniform steady_source) by (intro n; unfold steady_source; split; lra).
  split; [exact Hsrc |].
  exact (extractFeatures_ranges steady_source Hsrc).
Defined.

Lemma classify_outcomes_witness :
  uniform steady_source /\
  ((fun _ : string => true) "uploads/plot.tif" = false ->
     returns (Classifier.classify (fun _ => true) "2024-01-15T10:30:00.000Z" "uploads/plot.tif")
       steady_source (Failure "Fichier image non trouvé")) /\
  ((fun _ : string => true) "uploads/plot.tif" = true ->
     exists result,
       returns (Classifier.classify (fun _ => true) "2024-01-15T10:30:00.000Z" "uploads/plot.tif")
         steady_source (Success result) /\
       (3 <= confidence_level (prediction result) <= 5)%Z /\
       timestamp (metadata result) = "2024-01-15T10:30:00.000Z" /\
       coordinates result = None).
Proof.
  assert (Hsrc : uniform steady_source) by (intro n; unfold steady_source; split; lra).
  split; [exact Hsrc |].
  exact (classify_outcomes (fun _ => true) "2024-01-15T10:30:00.000Z" "uploads/plot.tif"
           steady_source Hsrc).
Defined.

(** ** The classification handler *)

(** A successful [classify], with what it returns: the features
    extracted, their prediction, and a processing time made of the next
    draw. *)
Lemma classify_run (existsSync : string -> bool) (now imagePath : string)
    (src : RandomSource) :
  existsSync imagePath = true ->
  exists extracted src1 predicted src2,
    extractFeatures src = (Normal extracted, src1) /\
    predict extracted src1 = (Normal predicted, src2) /\
    Classifier.classify existsSync now imagePath src
      = (Normal (Success {| features := extracted;
                            prediction := predicted;
                            metadata := {| model_version := "1.0.0";
                                           processing_time := src2 0%nat * 2 + 1;
                                           timestamp := now |};
                            coordinates := None |}),
         advance src2).
Proof.
  intro Hexists. unfold Classifier.classify. rewrite Hexists.
  cbv [negb bind extractFeatures calculateNDVI ret Math_random].
  match goal with
  | |- context [predict ?f ?s] =>
      destruct (predict_shape f s)
        as (class & base & width & t & p1 & p2 & p3 & s' & _ & _ & Hrun & _);
      exists f, s; do 2 eexists;
      split; [reflexivity |]; split; [exact Hrun |];
      rewrite Hrun
  end.
  reflexivity.
Qed.

(** X6: the classification handler always answers.  It answers 405 to a
    method other than POST; 500, from its [catch], to a POST without a body
    or with a [filePath] that is truthy and not a string; 400 when
    [filePath] is missing or empty; 404 when the file is not under the
    uploads directory; 500 with the message of [classify] when the file is
    there for the handler and gone when [classify] looks for it; and
    otherwise 200 with the features extracted, the prediction made from
    them, the metadata, and the coordinates of the request as they came. *)
Theorem classify_handler_responses (existsSync existsSync_later : string -> bool)
    (uploadPath : string -> string) (now : string)
    (req : ClassifyApi.Request) (src : RandomSource) :
  exists response src',
    ClassifyApi.handler existsSync existsSync_later uploadPath now req src
      = (Normal response, src') /\
    (ClassifyApi.method req <> "POST" ->
       response = ClassifyApi.failed 405 "Méthode non autorisée") /\
    (ClassifyApi.method req = "POST" -> ClassifyApi.body req = None ->
       response = ClassifyApi.failed 500 "Erreur lors de la classification") /\
    (forall posted,
       ClassifyApi.method req = "POST" -> ClassifyApi.body req = Some posted ->
       ClassifyApi.filePath posted = ClassifyApi.not_text ->
       response = ClassifyApi.failed 500 "Erreur lors de la classification") /\
    (forall posted,
       ClassifyApi.method req = "POST" -> ClassifyApi.body req = Some posted ->
       ClassifyApi.filePath posted = ClassifyApi.missing
       \/ ClassifyApi.filePath posted = ClassifyApi.text "" ->
       response = ClassifyApi.failed 400 "Chemin du fichier requis") /\
    (forall posted path,
       ClassifyApi.method req = "POST" -> ClassifyApi.body req = Some posted ->
       ClassifyApi.filePath posted = ClassifyApi.text path -> path <> "" ->
       existsSync (uploadPath path) = false ->
       response = ClassifyApi.failed 404 "Fichier non trouvé") /\
    (forall posted path,
       ClassifyApi.method req = "POST" -> ClassifyApi.body req = Some posted ->
       ClassifyApi.filePath posted = ClassifyApi.text path -> path <> "" ->
       existsSync (uploadPath path) = true ->
       existsSync_later (uploadPath path) = false ->
       response = ClassifyApi.failed 500 "Fichier image non trouvé") /\
    (forall posted path,
       ClassifyApi.method req = "POST" -> ClassifyApi.body req = Some posted ->
       ClassifyApi.filePath posted = ClassifyApi.text path -> path <> "" ->
       existsSync (uploadPath path) = true ->
       existsSync_later (uploadPath path) = true ->
       exists extracted src1 predicted src2,
         extractFeatures src = (Normal extracted, src1) /\
         predict extracted src1 = (Normal predicted, src2) /\
         response =
           ClassifyApi.classified
             {| features := extracted;
                prediction := predicted;
                metadata := {| model_version := "1.0.0";
                               processing_time := src2 0%nat * 2 + 1;
                               timestamp := now |};
                coordinates := ClassifyApi.position posted |}).
Proof.
  unfold ClassifyApi.handler.
  destruct (String.eqb (ClassifyApi.method req) "POST") eqn:Emethod; cbn [negb].
  2:{ apply String.eqb_neq in Emethod.
      eexists. eexists. split; [reflexivity |].
      split; [reflexivity |].
      repeat split; intros; contradiction. }
  apply String.eqb_eq in Emethod.
  destruct (ClassifyApi.body req) as [posted |] eqn:Ebody.
  2:{ eexists. eexists. split; [reflexivity |].
      split; [intros; contradiction |].
      split; [reflexivity |].
      repeat split; intros; discriminate. }
  destruct (ClassifyApi.filePath posted) as [| path |] eqn:Epath.
  - eexists. eexists. split; [reflexivity |].
    split; [intros; contradiction |].
    split; [intros; discriminate |].
    split; [intros posted' _ [= <-]; congruence |].
    split; [reflexivity |].
    repeat split; intros posted' path' _ [= <-]; congruence.
  - destruct (String.eqb path "") eqn:Eempty.
    { apply String.eqb_eq in Eempty. subst path.
      eexists. eexists. split; [reflexivity |].
      split; [intros; contradiction |].
      split; [intros; discriminate |].
      split; [intros posted' _ [= <-]; congruence |].
      split; [reflexivity |].
      repeat split; intros posted' path' _ [= <-] Hpath Hne;
        rewrite Epath in Hpath; injection Hpath as <-; contradiction. }
    apply String.eqb_neq in Eempty.
    assert (Hnot400 :
              ClassifyApi.filePath posted = ClassifyApi.missing
              \/ ClassifyApi.filePath posted = ClassifyApi.text "" -> False).
    { rewrite Epath. intros [H | H]; [discriminate | injection H as ->; contradiction]. }
    destruct (existsSync (uploadPath path)) eqn:Eexists; cbn [negb].
    2:{ eexists. eexists. split; [reflexivity |].
        split; [intros; contradiction |].
        split; [intros; discriminate |].
        split; [intros posted' _ [= <-]; congruence |].
        split; [intros posted' _ [= <-] H; destruct (Hnot400 H) |].
        split; [reflexivity |].
        split; intros posted' path' _ [= <-] Hpath _ H;
          rewrite Epath in Hpath; injection Hpath as <-; congruence. }
    destruct (existsSync_later (uploadPath path)) eqn:Elater.
    2:{ unfold bind, Classifier.classify. rewrite Elater. cbn.
        eexists. eexists. split; [reflexivity |].
        split; [intros; contradiction |].
        split; [intros; discriminate |].
        split; [intros posted' _ [= <-]; congruence |].
        split; [intros posted' _ [= <-] H; destruct (Hnot400 H) |].
        split; [intros posted' path' _ [= <-] Hpath _ H;
                rewrite Epath in Hpath; injection Hpath as <-; congruence |].
        split; [reflexivity |].
        intros posted' path' _ [= <-] Hpath _ _ H.
        rewrite Epath in Hpath. injection Hpath as <-. congruence. }
    destruct (classify_run existsSync_later now (uploadPath path) src Elater)
      as (extracted & src1 & predicted & src2 & Hextract & Hpredict & Hrun).
    unfold bind. rewrite Hrun.
    destruct (ClassifyApi.position posted) as [c |] eqn:Eposition;
      (eexists; eexists; split; [reflexivity |];
       split; [intros; contradiction |];
       split; [intros; discriminate |];
       split; [intros posted' _ [= <-]; congruence |];
       split; [intros posted' _ [= <-] H; destruct (Hnot400 H) |];
       split; [intros posted' path' _ [= <-] Hpath _ H;
               rewrite Epath in Hpath; injection Hpath as <-; congruence |];
       split; [intros posted' path' _ [= <-] Hpath _ _ H;
               rewrite Epath in Hpath; injection Hpath as <-; congruence |];
       intros posted' path' _ [= <-] Hpath _ _ _;
       exists extracted, src1, predicted, src2;
       rewrite Eposition;
       split; [exact Hextract |]; split; [exact Hpredict |]; reflexivity).
  - eexists. eexists. split; [reflexivity |].
    split; [intros; contradiction |].
    split; [intros; discriminate |].
    split; [reflexivity |].
    split; [intros posted' _ [= <-] [H | H]; congruence |].
    repeat split; intros posted' path' _ [= <-]; congruence.
Qed.

(** X7: the classification handler looks at one file only, the one named
    by [path.basename(filePath)] under the uploads directory: two file
    systems that agree on that path, when the handler looks and when
    [classify] does, get the same answer, whatever else they hold. *)
Theorem classify_handler_confined (disk1 disk2 later1 later2 : string -> bool)
    (uploadPath : string -> string) (now : string)
    (req : ClassifyApi.Request) (src : RandomSource) :
  (forall posted path,
     ClassifyApi.body req = Some posted ->
     ClassifyApi.filePath posted = ClassifyApi.text path ->
     disk1 (uploadPath path) = disk2 (uploadPath path)
     /\ later1 (uploadPath path) = later2 (uploadPath path)) ->
  ClassifyApi.handler disk1 later1 uploadPath now req src
  = ClassifyApi.handler disk2 later2 uploadPath now req src.
Proof.
  intro Hagree. unfold ClassifyApi.handler.
  destruct (negb (String.eqb (ClassifyApi.method req) "POST")); [reflexivity |].
  destruct (ClassifyApi.body req) as [posted |]; [| reflexivity].
  destruct (ClassifyApi.filePath posted) as [| path |] eqn:Epath; [reflexivity | | reflexivity].
  destruct (String.eqb path ""); [reflexivity |].
  destruct (Hagree posted path eq_refl Epath) as [Hfirst Hlater].
  unfold bind, Classifier.classify.
  rewrite <- Hfirst, <- Hlater. reflexivity.
Qed.

Lemma classify_handler_confined_witness :
  (forall posted path,
     ClassifyApi.body
       (ClassifyApi.mkRequest "POST"
          (Some (ClassifyApi.mkBody (ClassifyApi.text "plot.tif") None))) = Some posted ->
     ClassifyApi.filePath posted = ClassifyApi.text path ->
     String.eqb ("uploads/" ++ path)%string "uploads/plot.tif" = true
     /\ String.eqb ("uploads/" ++ path)%string "uploads/plot.tif" = true) /\
  ClassifyApi.handler (fun p => String.eqb p "uploads/plot.tif")
    (fun p => String.eqb p "uploads/plot.tif")
    (fun name => "uploads/" ++ name)%string "2024-01-15T10:30:00.000Z"
    (ClassifyApi.mkRequest "POST"
       (Some (ClassifyApi.mkBody (ClassifyApi.text "plot.tif") None))) steady_source
  = ClassifyApi.handler (fun _ => true) (fun _ => true)
      (fun name => "uploads/" ++ name)%string "2024-01-15T10:30:00.000Z"
      (ClassifyApi.mkRequest "POST"
         (Some (ClassifyApi.mkBody (ClassifyApi.text "plot.tif") None))) steady_source.
Proof.
  assert (H : forall posted path,
            ClassifyApi.body
              (ClassifyApi.mkRequest "POST"
                 (Some (ClassifyApi.mkBody (ClassifyApi.text "plot.tif") None))) = Some posted ->
            ClassifyApi.filePath posted = ClassifyApi.text path ->
            String.eqb ("uploads/" ++ path)%string "uploads/plot.tif" = true
            /\ String.eqb ("uploads/" ++ path)%string "uploads/plot.tif" = true)
    by (intros posted path [= <-] [= <-]; split; reflexivity).
  split; [exact H |].
  exact (classify_handler_confined (fun p => String.eqb p "uploads/plot.tif") (fun _ => true)
           (fun p => String.eqb p "uploads/plot.tif") (fun _ => true)
           (fun name => "uploads/" ++ name)%string "2024-01-15T10:30:00.000Z"
           (ClassifyApi.mkRequest "POST"
              (Some (ClassifyApi.mkBody (ClassifyApi.text "plot.tif") None)))
           steady_source H).
Defined.

(** The handler on a request for a file that is there: 200, with the
    coordinates attached. *)
Example classify_handler_attaches_coordinates :
  exists result src',
    ClassifyApi.handler (fun _ => true) (fun _ => true)
      (fun name => "uploads/" ++ name)%string "2024-01-15T10:30:00.000Z"
      (ClassifyApi.mkRequest "POST"
         (Some (ClassifyApi.mkBody (ClassifyApi.text "plot.tif")
                  (Some (mkCoordinates (Some 5.25) (Some (-3.5)))))))
      steady_source = (Normal (ClassifyApi.classified result), src') /\
    coordinates result = Some (mkCoordinates (Some 5.25) (Some (-3.5))) /\
    predicted_class (prediction result) = "Palmier à huile" /\
    ndvi (features result) == 0.8.
Proof.
  eexists. eexists. split; [vm_compute; reflexivity |].
  repeat split; reflexivity.
Qed.

(** ** Validation schemas against the export API *)

Section ExportAgreement.

Variable Number_toString : Q -> string.
Variable JSON_stringify : GeoJSON.FeatureCollection -> string.
Variable generatePDFReport : list (Prediction * Features) -> string.

Lemma supported_format_outcome (now : string) (name : string)
    (r : option Posted.Result) (rest : list (option Posted.Result)) :
  In name supported_formats ->
  let response :=
    handler Number_toString JSON_stringify generatePDFReport now
      (mkRequest "POST" (Some (mkBody (Some name) (Some (r :: rest))))) in
  (forallb (readable name) (r :: rest) = false -> response = ExportError) /\
  (forallb (readable name) (r :: rest) = true ->
     exists response_headers content, response = send 200 response_headers content).
Proof.
  intros Hin. cbv zeta.
  pose proof (each_outcome (readable "csv") complete (r :: rest)
                (fun e => complete_readable "csv" e eq_refl)) as Hcsv.
  pose proof (each_outcome (readable "geojson") complete (r :: rest)
                (fun e => complete_readable "geojson" e eq_refl)) as Hgeo.
  pose proof (each_outcome (readable "pdf") reportRow (r :: rest) reportRow_readable) as Hpdf.
  unfold handler.
  cbn [method body results ExportApi.format negb String.eqb Ascii.eqb Bool.eqb read andThen].
  destruct Hin as [<- | [<- | [<- | []]]]; cbn [String.eqb Ascii.eqb Bool.eqb].
  - destruct (forallb (readable "csv") (r :: rest)).
    + destruct Hcsv as (rs & -> & _). split; [discriminate |]. intros _. do 2 eexists. reflexivity.
    + destruct Hcsv as (m & ->). split; [reflexivity | discriminate].
  - destruct (forallb (readable "geojson") (r :: rest)).
    + destruct Hgeo as (rs & -> & _). split; [discriminate |]. intros _. do 2 eexists. reflexivity.
    + destruct Hgeo as (m & ->). split; [reflexivity | discriminate].
  - destruct (forallb (readable "pdf") (r :: rest)).
    + destruct Hpdf as (rs & -> & _). split; [discriminate |]. intros _. do 2 eexists. reflexivity.
    + destruct Hpdf as (m & ->). split; [reflexivity | discriminate].
Qed.

Lemma allowed_format (name : string) :
  (String.eqb name "" || negb (includes validationSchemas.allowedFormats name)) = false
  <-> In name supported_formats.
Proof.
  unfold includes, validationSchemas.allowedFormats, supported_formats. cbn [existsb In].
  rewrite orb_false_r.
  destruct (String.eqb name "csv") eqn:Ecsv;
    [apply String.eqb_eq in Ecsv; subst; cbn; tauto |].
  destruct (String.eqb name "geojson") eqn:Egeo;
    [apply String.eqb_eq in Egeo; subst; cbn; tauto |].
  destruct (String.eqb name "pdf") eqn:Epdf;
    [apply String.eqb_eq in Epdf; subst; cbn; tauto |].
  apply String.eqb_neq in Ecsv, Egeo, Epdf.
  cbn. rewrite orb_true_r. split; [discriminate |].
  intros [H | [H | [H | []]]]; congruence.
Qed.

(** X8: [validationSchemas.exportParams.validate] against the export
    handler.  Without parameters the schema rejects, and the handler
    answers a POST without a body with 500, from its [catch].  On the same
    format and results, the schema rejects them exactly when the handler
    answers a POST carrying them with 400.  The schema reports a missing or
    empty list exactly when the handler answers with the empty-input error,
    and then reports the format as well when it is wrong, which the handler
    does not look at; the handler's unsupported-format error comes with the
    schema's format error alone.  What the schema accepts the handler
    answers with a file or, when an element lacks a member the formatter
    reads, with 500: the schema does not look inside the list. *)
Theorem exportParams_validate_agrees_with_handler
    (now : string) (format : option string)
    (results : option (list (option Posted.Result))) :
  let verdict :=
    validationSchemas.exportParams_validate
      (Some (validationSchemas.mkExportParams format results)) in
  let response :=
    handler Number_toString JSON_stringify generatePDFReport now
      (mkRequest "POST" (Some (mkBody format results))) in
  (isValid (validationSchemas.exportParams_validate None) = false /\
   handler Number_toString JSON_stringify generatePDFReport now (mkRequest "POST" None)
   = ExportError) /\
  (isValid verdict = false <-> exists message, response = json 400 message) /\
  (In "Aucun résultat à exporter" (errors verdict) <-> response = EmptyInputError) /\
  (response = UnsupportedFormatError <->
     errors verdict = ["Format invalide. Formats autorisés: csv, geojson, pdf"]) /\
  (isValid verdict = true ->
     exists name entries,
       format = Some name /\ results = Some entries /\
       (forallb (readable name) entries = false -> response = ExportError) /\
       (forallb (readable name) entries = true ->
          exists response_headers content, response = send 200 response_headers content)).
Proof.
  cbv zeta.
  split; [split; reflexivity |].
  destruct results as [[| r rest] |].
  1,3: unfold validationSchemas.exportParams_validate, handler;
    cbn [validationSchemas.format validationSchemas.results method body negb
         String.eqb Ascii.eqb Bool.eqb read andThen ExportApi.format ExportApi.results];
    (destruct format as [name |]; [destruct (_ || _) |]; cbn;
      (split; [split; [intros _; eexists; reflexivity | reflexivity] |]);
      (split; [split; [reflexivity | tauto] |]);
      (split; [split; discriminate | discriminate])).
  destruct format as [name |].
  - pose proof (allowed_format name) as Hallowed.
    destruct (String.eqb name "" || negb (includes validationSchemas.allowedFormats name))
      eqn:Ebad.
    + assert (Hnone : String.eqb name "csv" = false /\ String.eqb name "geojson" = false
                      /\ String.eqb name "pdf" = false).
      { repeat split; apply String.eqb_neq; intros ->;
          assert (Hf : true = false) by (apply Hallowed; cbn; tauto); discriminate. }
      destruct Hnone as (Hc & Hg & Hp).
      unfold validationSchemas.exportParams_validate, handler.
      cbn [validationSchemas.format validationSchemas.results method body negb
           read andThen ExportApi.format ExportApi.results].
      rewrite Ebad.
      change (negb (String.eqb "POST" "POST")) with false. cbv iota.
      rewrite Hc, Hg, Hp. cbn.
      split; [split; [intros _; eexists; reflexivity | reflexivity] |].
      split; [split; [intros [H | []]; discriminate | discriminate] |].
      split; [split; reflexivity | discriminate].
    + assert (Hin : In name supported_formats) by (now apply Hallowed).
      destruct (supported_format_outcome now name r rest Hin) as [Hbad Hgood].
      assert (Hresponse :
                handler Number_toString JSON_stringify generatePDFReport now
                  (mkRequest "POST" (Some (mkBody (Some name) (Some (r :: rest)))))
                = ExportError
                \/ exists response_headers content,
                     handler Number_toString JSON_stringify generatePDFReport now
                       (mkRequest "POST" (Some (mkBody (Some name) (Some (r :: rest)))))
                     = send 200 response_headers content).
      { destruct (forallb (readable name) (r :: rest)); [right | left]; auto. }
      unfold validationSchemas.exportParams_validate.
      cbn [validationSchemas.format validationSchemas.results].
      rewrite Ebad. cbn [app List.length Nat.eqb isValid errors In].
      split.
      { split; [discriminate |]. intros [message H].
        destruct Hresponse as [H' | (h & c & H')]; rewrite H' in H; discriminate. }
      split.
      { split; [tauto |]. intro H.
        destruct Hresponse as [H' | (h & c & H')]; rewrite H' in H; discriminate. }
      split.
      { split; [| discriminate]. intro H.
        destruct Hresponse as [H' | (h & c & H')]; rewrite H' in H; discriminate. }
      intros _. exists name, (r :: rest). auto.
  - unfold validationSchemas.exportParams_validate, handler. cbn.
    split; [split; [intros _; eexists; reflexivity | reflexivity] |].
    split; [split; [intros [H | []]; discriminate | discriminate] |].
    split; [split; reflexivity | discriminate].
Qed.

End ExportAgreement.


Example equator_position_exported_without_latitude :
  let equator := mkCoordinates (Some 0) (Some 9.45) in
  let result := with_coordinates forest_result equator in
  isValid (validationSchemas.coordinates_validate (Some equator)) = true /\
  nth_error (csvRow result 0) 9 = Some (Str "") /\
  nth_error (csvRow result 0) 10 = Some (Num 9.45).
Proof. repeat split. Qed.

(** ** The statistics of the report *)

Lemma property_assign_same {A : Type} (key : string) (v : A) (obj : list (string * A)) :
  property key (PDFReport.assign key v obj) = Some v.
Proof.
  induction obj as [| [k x] rest IH]; simpl.
  - now rewrite String.eqb_refl.
  - destruct (String.eqb k key) eqn:E; simpl; rewrite E; [reflexivity | exact IH].
Qed.

Lemma property_assign_other {A : Type} (key other : string) (v : A)
    (obj : list (string * A)) :
  other <> key ->
  property other (PDFReport.assign key v obj) = property other obj.
Proof.
  intro Hne. induction obj as [| [k x] rest IH]; simpl.
  - destruct (String.eqb key other) eqn:E; [| reflexivity].
    apply String.eqb_eq in E. congruence.
  - destruct (String.eqb k key) eqn:E; simpl.
    + apply String.eqb_eq in E. subst k.
      destruct (String.eqb key other) eqn:E'; [| reflexivity].
      apply String.eqb_eq in E'. congruence.
    + now rewrite IH.
Qed.

Lemma property_none_keys {A : Type} (key : string) (obj : list (string * A)) :
  property key obj = None <-> ~ In key (map fst obj).
Proof.
  induction obj as [| [k x] rest IH]; simpl.
  - tauto.
  - destruct (String.eqb k key) eqn:E.
    + apply String.eqb_eq in E. split; [discriminate | tauto].
    + apply String.eqb_neq in E. tauto.
Qed.

Lemma property_some_in {A : Type} (key : string) (v : A) (obj : list (string * A)) :
  property key obj = Some v -> In (key, v) obj.
Proof.
  induction obj as [| [k x] rest IH]; simpl; [discriminate |].
  destruct (String.eqb k key) eqn:E.
  - apply String.eqb_eq in E. intros [= ->]. left. congruence.
  - auto.
Qed.

Lemma assign_keys {A : Type} (key : string) (v : A) (obj : list (string * A)) :
  map fst (PDFReport.assign key v obj)
  = match property key obj with
    | Some _ => map fst obj
    | None => map fst obj ++ [key]
    end.
Proof.
  induction obj as [| [k x] rest IH]; simpl; [reflexivity |].
  destruct (String.eqb k key) eqn:E; simpl; [reflexivity |].
  rewrite IH. now destruct (property key rest).
Qed.

Lemma assign_values (key : string) (obj : list (string * Z)) :
  fold_right Z.add 0%Z
    (map snd (PDFReport.assign key (PDFReport.or_zero (property key obj) + 1)%Z obj))
  = (fold_right Z.add 0%Z (map snd obj) + 1)%Z /\
  (Forall (fun entry => (0 < snd entry)%Z) obj ->
   Forall (fun entry => (0 < snd entry)%Z)
     (PDFReport.assign key (PDFReport.or_zero (property key obj) + 1)%Z obj)).
Proof.
  induction obj as [| [k x] rest [IHsum IHpos]]; simpl.
  - split; [reflexivity |]. intros _. repeat constructor.
  - destruct (String.eqb k key) eqn:E; simpl.
    + split.
      * destruct (x =? 0)%Z eqn:Ex; [apply Z.eqb_eq in Ex |]; lia.
      * intro H. inversion H as [| ? ? Hx Hrest]; subst. simpl in Hx.
        constructor; [| exact Hrest]. simpl.
        destruct (x =? 0)%Z; lia.
    + split; [rewrite IHsum; lia |].
      intro H. inversion H; subst. constructor; auto.
Qed.

Lemma or_zero_positive (obj : list (string * Z)) (key : string) :
  Forall (fun entry => (0 < snd entry)%Z) obj ->
  property key obj
  = if (PDFReport.or_zero (property key obj) =? 0)%Z then None
    else Some (PDFReport.or_zero (property key obj)).
Proof.
  intro Hpos. destruct (property key obj) as [n |] eqn:E; [| reflexivity].
  apply property_some_in in E. rewrite Forall_forall in Hpos.
  specialize (Hpos _ E). simpl in Hpos. simpl.
  destruct (n =? 0)%Z eqn:En; [apply Z.eqb_eq in En; lia |].
  now rewrite En.
Qed.

(** The counting loop, from any object it starts with. *)
Lemma cultureStats_loop (results : list ClassificationResult) (stats : list (string * Z)) :
  let final :=
    fold_left
      (fun stats result =>
         PDFReport.assign (predicted_class (prediction result))
           (PDFReport.or_zero (property (predicted_class (prediction result)) stats) + 1)%Z
           stats)
      results stats in
  NoDup (map fst stats) ->
  Forall (fun entry => (0 < snd entry)%Z) stats ->
  NoDup (map fst final) /\
  Forall (fun entry => (0 < snd entry)%Z) final /\
  (forall class,
     PDFReport.or_zero (property class final)
     = (PDFReport.or_zero (property class stats) + occurrences class results)%Z) /\
  fold_right Z.add 0%Z (map snd final)
  = (fold_right Z.add 0%Z (map snd stats) + Z.of_nat (List.length results))%Z /\
  (forall class, In class (map fst final) ->
     In class (map fst stats) \/
     In class (map (fun r => predicted_class (prediction r)) results)).
Proof.
  revert stats. induction results as [| r rest IH]; intros stats final Hnodup Hpos.
  - subst final. cbn [fold_left List.length]. unfold occurrences. cbn [filter List.length].
    split; [exact Hnodup |]. split; [exact Hpos |].
    split; [intro class; simpl; lia |].
    split; [simpl; lia | intros class H; now left].
  - subst final. cbn [fold_left].
    set (culture := predicted_class (prediction r)).
    set (next := PDFReport.assign culture
                   (PDFReport.or_zero (property culture stats) + 1)%Z stats).
    destruct (assign_values culture stats) as [Hsum Hpositive].
    assert (Hnodup' : NoDup (map fst next)).
    { unfold next. rewrite assign_keys.
      destruct (property culture stats) eqn:E; [exact Hnodup |].
      apply property_none_keys in E.
      apply NoDup_app; [exact Hnodup | repeat constructor; simpl; tauto |].
      intros x Hx [<- | []]. contradiction. }
    destruct (IH next Hnodup' (Hpositive Hpos)) as (H1 & H2 & H3 & H4 & H5).
    split; [exact H1 |]. split; [exact H2 |].
    split; [| split].
    + intro class. rewrite H3. unfold occurrences. cbn [filter].
      fold culture.
      destruct (String.eqb culture class) eqn:E.
      * apply String.eqb_eq in E. subst class.
        unfold next. rewrite property_assign_same.
        cbn [List.length]. rewrite Nat2Z.inj_succ.
        unfold PDFReport.or_zero at 1.
        destruct (PDFReport.or_zero (property culture stats) + 1 =? 0)%Z eqn:Ez.
        -- apply Z.eqb_eq in Ez.
           assert (0 <= PDFReport.or_zero (property culture stats))%Z.
           { destruct (property culture stats) as [n |] eqn:En; simpl; [| lia].
             apply property_some_in in En. rewrite Forall_forall in Hpos.
             specialize (Hpos _ En). simpl in Hpos.
             destruct (n =? 0)%Z; lia. }
           lia.
        -- lia.
      * apply String.eqb_neq in E.
        unfold next. rewrite property_assign_other by congruence. reflexivity.
    + rewrite H4. unfold next. rewrite Hsum. cbn [List.length].
      rewrite Nat2Z.inj_succ. lia.
    + intros class Hin. destruct (H5 class Hin) as [H | H].
      * unfold next in H. rewrite assign_keys in H.
        destruct (property culture stats); [now left |].
        apply in_app_or in H. destruct H as [H | [<- | []]]; [now left |].
        right. simpl. now left.
      * right. simpl. now right.
Qed.

(** X10: on results whose classes are the three of the model, the
    [cultureStats] object of the report has one property per class that
    occurs, holding the number of results of that class; the counts add up
    to the number of results, and at most three cultures are reported. *)
Theorem cultureStats_counts (results : list ClassificationResult) :
  Forall (fun r => In (predicted_class (prediction r)) classes) results ->
  NoDup (map fst (PDFReport.cultureStats results)) /\
  incl (map fst (PDFReport.cultureStats results)) classes /\
  (List.length (PDFReport.cultureStats results) <= 3)%nat /\
  (forall class,
     property class (PDFReport.cultureStats results)
     = if (occurrences class results =? 0)%Z then None
       else Some (occurrences class results)) /\
  fold_right Z.add 0%Z (map snd (PDFReport.cultureStats results))
  = Z.of_nat (PDFReport.totalResults results).
Proof.
  intro Hclasses.
  destruct (cultureStats_loop results [] (NoDup_nil _) (Forall_nil _))
    as (Hnodup & Hpos & Hcount & Hsum & Hkeys).
  fold (PDFReport.cultureStats results) in *.
  assert (Hincl : incl (map fst (PDFReport.cultureStats results)) classes).
  { intros class Hin. destruct (Hkeys class Hin) as [[] | H].
    apply in_map_iff in H. destruct H as (r & <- & Hr).
    rewrite Forall_forall in Hclasses. now apply Hclasses. }
  split; [exact Hnodup |]. split; [exact Hincl |].
  split.
  { rewrite <- (length_map fst). apply (NoDup_incl_length Hnodup Hincl). }
  split.
  - intro class. rewrite (or_zero_positive _ class Hpos), Hcount. reflexivity.
  - rewrite Hsum. reflexivity.
Qed.

Lemma cultureStats_counts_witness :
  Forall (fun r => In (predicted_class (prediction r)) classes)
    [forest_result; located_result] /\
  property "Forêt" (PDFReport.cultureStats [forest_result; located_result]) = Some 2%Z /\
  property "Cacao" (PDFReport.cultureStats [forest_result; located_result]) = None.
Proof.
  assert (H : Forall (fun r => In (predicted_class (prediction r)) classes)
                [forest_result; located_result])
    by (repeat constructor; simpl; tauto).
  split; [exact H |].
  destruct (cultureStats_counts [forest_result; located_result] H)
    as (_ & _ & _ & Hcount & _).
  split; [exact (Hcount "Forêt") | exact (Hcount "Cacao")].
Defined.



(** ** Upload: the client check and the server *)

(** X13: the client's [validateFile] and the server agree.  A file is
    valid for the client exactly when the upload filter lets a part with its
    name and type through and its size is at most 10 MiB; the upload handler
    then answers such a file with 200 and deletes nothing.  [validateFile]
    reports at most two errors, and none exactly when the file is valid. *)
Theorem validateFile_agrees_with_upload (toLowerCase : string -> string) (file : File) :
  (isValid (Services.validateFile toLowerCase file) = true
   <-> UploadApi.filter toLowerCase
         (UploadApi.mkPart (Some (name file)) (Some (type file))) = true
       /\ (size file <= 10 * 1024 * 1024)%Z) /\
  (isValid (Services.validateFile toLowerCase file) = true
   <-> errors (Services.validateFile toLowerCase file) = []) /\
  (List.length (errors (Services.validateFile toLowerCase file)) <= 2)%nat /\
  (forall now stored,
     isValid (Services.validateFile toLowerCase file) = true ->
     UploadApi.fileSize stored = size file ->
     exists info,
       UploadApi.handler now "POST" (Normal (Some stored)) = (UploadApi.uploaded info, [])).
Proof.
  unfold Services.validateFile, UploadApi.filter. cbn [UploadApi.originalFilename UploadApi.mimetype].
  set (typed := includes _ (type file)
                || endsWith (toLowerCase (name file)) ".tif"
                || endsWith (toLowerCase (name file)) ".tiff").
  unfold UploadApi.handler. cbn [String.eqb Ascii.eqb Bool.eqb negb].
  destruct (size file >? 10 * 1024 * 1024)%Z eqn:Esize;
    [apply Z.gtb_lt in Esize | rewrite Z.gtb_ltb in Esize; apply Z.ltb_ge in Esize];
    destruct typed; cbn [negb app List.length Nat.eqb isValid errors].
  - repeat split; try discriminate; try lia; intros; try lia; intuition (try discriminate; lia).
  - repeat split; try discriminate; try lia; intros; intuition (try discriminate; lia).
  - split; [split; [auto | reflexivity] |].
    split; [split; reflexivity |].
    split; [lia |].
    intros now stored _ Hstored. rewrite Hstored.
    assert (H : (size file >? 10 * 1024 * 1024)%Z = false)
      by (rewrite Z.gtb_ltb; apply Z.ltb_ge; exact Esize).
    rewrite H. eexists. reflexivity.
  - repeat split; try discriminate; try lia; intros; intuition (try discriminate; lia).
Qed.

(** X14: the upload handler deletes a file in one case only, when it
    rejects it for its size, and then it deletes that file alone; a 200
    answer describes the parsed file, stamped with the current time. *)
Theorem upload_handler_deletes_only_oversize (now method : string)
    (parsed : Completion (option UploadApi.UploadedFile)) :
  (snd (UploadApi.handler now method parsed) = [] \/
   exists file,
     parsed = Normal (Some file) /\
     method = "POST" /\
     (10 * 1024 * 1024 < UploadApi.fileSize file)%Z /\
     UploadApi.handler now method parsed
     = (UploadApi.failed 400 "Fichier trop volumineux (max 10MB)" None,
        [UploadApi.filepath file])) /\
  (forall info,
     fst (UploadApi.handler now method parsed) = UploadApi.uploaded info ->
     snd (UploadApi.handler now method parsed) = [] /\
     method = "POST" /\
     exists file,
       parsed = Normal (Some file) /\
       (UploadApi.fileSize file <= 10 * 1024 * 1024)%Z /\
       UploadApi.info_size info = UploadApi.fileSize file /\
       UploadApi.info_path info = UploadApi.filepath file /\
       UploadApi.info_filename info = UploadApi.newFilename file /\
       UploadApi.uploadedAt info = now).
Proof.
  unfold UploadApi.handler.
  destruct (String.eqb method "POST") eqn:Emethod; cbn [negb].
  2:{ split; [now left | discriminate]. }
  apply String.eqb_eq in Emethod.
  destruct parsed as [[file |] | message]; cbn [fst snd].
  - destruct (UploadApi.fileSize file >? 10 * 1024 * 1024)%Z eqn:Esize; cbn [fst snd].
    + apply Z.gtb_lt in Esize. split; [| discriminate].
      right. exists file. repeat split; solve [reflexivity | assumption | lia].
    + rewrite Z.gtb_ltb in Esize. apply Z.ltb_ge in Esize.
      split; [now left |].
      intros info [= <-]. split; [reflexivity |]. split; [exact Emethod |].
      exists file. repeat split; solve [reflexivity | assumption | lia].
  - split; [now left | discriminate].
  - split; [now left | discriminate].
Qed.

(** ** The local cache *)

Section Cache.

Variable Data : Type.
Variable stringify : Data -> Z -> string.
Variable parse : string -> cacheService.Parsed Data.

(** X15: a value read back before its expiry is the value that was
    stored.  When the stored text is not empty and parses back to the data
    and the expiry it was made from, [get] at any time up to
    [now + expirationMinutes * 60000] returns the data given to [set] at
    [now], and leaves the storage as it is. *)
Theorem cache_get_after_set (now later : Z) (key : string) (data : Data)
    (expirationMinutes : Z) (store : cacheService.Storage) :
  parse (stringify data (now + expirationMinutes * 60 * 1000)%Z)
    = cacheService.ParsedValue Data (Some data)
        (Some (now + expirationMinutes * 60 * 1000)%Z) ->
  stringify data (now + expirationMinutes * 60 * 1000)%Z <> "" ->
  (later <= now + expirationMinutes * 60 * 1000)%Z ->
  cacheService.get Data parse later key
    (cacheService.set Data stringify now key data expirationMinutes store)
  = (cacheService.value Data data,
     cacheService.set Data stringify now key data expirationMinutes store).
Proof.
  intros Hparse Hnonempty Hlater.
  unfold cacheService.get, cacheService.set, cacheService.getItem, cacheService.setItem.
  rewrite String.eqb_refl.
  destruct (String.eqb _ "") eqn:E; [apply String.eqb_eq in E; contradiction |].
  rewrite Hparse.
  assert (Hfresh : (later >? now + expirationMinutes * 60 * 1000)%Z = false)
    by (rewrite Z.gtb_ltb; apply Z.ltb_ge; exact Hlater).
  now rewrite Hfresh.
Qed.

(** X16: a value read after its expiry is gone for good.  Under the same
    conditions on the stored text, [get] at a time past the expiry returns
    [null] and removes the key, so that every later [get] of that key returns
    [null] as well, while the other keys keep what they held. *)
Theorem cache_get_expired (now later : Z) (key : string) (data : Data)
    (expirationMinutes : Z) (store : cacheService.Storage) :
  parse (stringify data (now + expirationMinutes * 60 * 1000)%Z)
    = cacheService.ParsedValue Data (Some data)
        (Some (now + expirationMinutes * 60 * 1000)%Z) ->
  stringify data (now + expirationMinutes * 60 * 1000)%Z <> "" ->
  (now + expirationMinutes * 60 * 1000 < later)%Z ->
  exists store',
    cacheService.get Data parse later key
      (cacheService.set Data stringify now key data expirationMinutes store)
    = (cacheService.null Data, store') /\
    cacheService.getItem key store' = None /\
    (forall other, other <> key ->
                   cacheService.getItem other store' = cacheService.getItem other store) /\
    (forall again, cacheService.get Data parse again key store'
                   = (cacheService.null Data, store')).
Proof.
  intros Hparse Hnonempty Hlater.
  unfold cacheService.get, cacheService.set, cacheService.getItem, cacheService.setItem.
  rewrite String.eqb_refl.
  destruct (String.eqb _ "") eqn:E; [apply String.eqb_eq in E; contradiction |].
  rewrite Hparse.
  assert (Hstale : (later >? now + expirationMinutes * 60 * 1000)%Z = true)
    by (apply Z.gtb_lt; exact Hlater).
  rewrite Hstale.
  eexists. split; [reflexivity |].
  unfold cacheService.removeItem.
  rewrite String.eqb_refl.
  split; [reflexivity |].
  split; [| reflexivity].
  intros other Hother.
  apply String.eqb_neq in Hother. now rewrite Hother.
Qed.

(** X17: the cache keeps keys apart.  Storing under a key or removing it
    does not change what [get] returns for another key, and [get] of a
    removed key returns [null]. *)
Theorem cache_keys_independent (now later : Z) (key other : string) (data : Data)
    (expirationMinutes : Z) (store : cacheService.Storage) :
  other <> key ->
  fst (cacheService.get Data parse later other
         (cacheService.set Data stringify now key data expirationMinutes store))
  = fst (cacheService.get Data parse later other store) /\
  fst (cacheService.get Data parse later other (cacheService.remove key store))
  = fst (cacheService.get Data parse later other store) /\
  cacheService.get Data parse later key (cacheService.remove key store)
  = (cacheService.null Data, cacheService.remove key store).
Proof.
  intro Hother. apply String.eqb_neq in Hother.
  unfold cacheService.get, cacheService.set, cacheService.remove,
    cacheService.getItem, cacheService.setItem, cacheService.removeItem.
  rewrite Hother, String.eqb_refl.
  split; [| split; [| reflexivity]].
  - destruct (store other) as [item |]; [| reflexivity].
    destruct (String.eqb item ""); [reflexivity |].
    destruct (parse item) as [| | d [e |]]; try reflexivity.
    destruct (later >? e)%Z; reflexivity.
  - destruct (store other) as [item |]; [| reflexivity].
    destruct (String.eqb item ""); [reflexivity |].
    destruct (parse item) as [| | d [e |]]; try reflexivity.
    destruct (later >? e)%Z; reflexivity.
Qed.

End Cache.

Lemma cache_get_after_set_witness :
  (fun s : string => cacheService.ParsedValue string (Some s) (Some 3600000%Z))
    ((fun (d : string) (_ : Z) => d) "tiles" (0 + 60 * 60 * 1000)%Z)
  = cacheService.ParsedValue string (Some "tiles") (Some (0 + 60 * 60 * 1000)%Z) /\
  (fun (d : string) (_ : Z) => d) "tiles" (0 + 60 * 60 * 1000)%Z <> "" /\
  (1000 <= 0 + 60 * 60 * 1000)%Z /\
  fst (cacheService.get string
         (fun s => cacheService.ParsedValue string (Some s) (Some 3600000%Z)) 1000 "recent"
         (cacheService.set string (fun d _ => d) 0 "recent" "tiles" 60 (fun _ => None)))
  = cacheService.value string "tiles".
Proof.
  assert (H1 : (fun s : string => cacheService.ParsedValue string (Some s) (Some 3600000%Z))
                 ((fun (d : string) (_ : Z) => d) "tiles" (0 + 60 * 60 * 1000)%Z)
               = cacheService.ParsedValue string (Some "tiles") (Some (0 + 60 * 60 * 1000)%Z))
    by reflexivity.
  assert (H2 : (fun (d : string) (_ : Z) => d) "tiles" (0 + 60 * 60 * 1000)%Z <> "")
    by discriminate.
  assert (H3 : (1000 <= 0 + 60 * 60 * 1000)%Z) by lia.
  split; [exact H1 |]. split; [exact H2 |]. split; [exact H3 |].
  rewrite (cache_get_after_set string (fun d _ => d)
             (fun s => cacheService.ParsedValue string (Some s) (Some 3600000%Z))
             0 1000 "recent" "tiles" 60 (fun _ => None) H1 H2 H3).
  reflexivity.
Defined.

Lemma cache_get_expired_witness :
  (3600000 < 3600001)%Z /\
  exists store',
    cacheService.get string
      (fun s => cacheService.ParsedValue string (Some s) (Some 3600000%Z)) 3600001 "recent"
      (cacheService.set string (fun d _ => d) 0 "recent" "tiles" 60 (fun _ => None))
    = (cacheService.null string, store') /\
    cacheService.getItem "recent" store' = None.
Proof.
  split; [lia |].
  destruct (cache_get_expired string (fun d _ => d)
              (fun s => cacheService.ParsedValue string (Some s) (Some 3600000%Z))
              0 3600001 "recent" "tiles" 60 (fun _ => None)
              eq_refl ltac:(discriminate) ltac:(lia))
    as (store' & Hget & Hgone & _).
  exists store'. split; assumption.
Defined.

Lemma cache_keys_independent_witness :
  "older" <> "recent" /\
  fst (cacheService.get string
         (fun s => cacheService.ParsedValue string (Some s) (Some 3600000%Z)) 1000 "older"
         (cacheService.set string (fun d _ => d) 0 "recent" "tiles" 60 (fun _ => None)))
  = fst (cacheService.get string
           (fun s => cacheService.ParsedValue string (Some s) (Some 3600000%Z)) 1000 "older"
           (fun _ => None)).
Proof.
  assert (H : "older" <> "recent") by discriminate.
  split; [exact H |].
  exact (proj1 (cache_keys_independent string (fun d _ => d)
                  (fun s => cacheService.ParsedValue string (Some s) (Some 3600000%Z))
                  0 1000 "recent" "older" "tiles" 60 (fun _ => None) H)).
Defined.

(** ** Strings *)

Lemma substring_length_le (s : string) (n m : nat) :
  (String.length (String.substring n m s) <= m)%nat.
Proof.
  revert n m. induction s as [| c s IH]; intros n m.
  - destruct n, m; simpl; lia.
  - destruct n as [| n]; simpl.
    + destruct m as [| m]; simpl; [lia |]. specialize (IH 0%nat m). lia.
    + apply IH.
Qed.

Lemma substring_whole (s : string) (m : nat) :
  (String.length s <= m)%nat -> String.substring 0 m s = s.
Proof.
  revert m. induction s as [| c s IH]; intros m H.
  - destruct m; reflexivity.
  - destruct m as [| m]; simpl in *; [lia |]. rewrite IH; [reflexivity | lia].
Qed.

(** The last [k] code units of a string, read inside a longer suffix. *)
Lemma substring_of_suffix (s suffix : string) (k : nat) :
  (k <= String.length suffix)%nat ->
  (String.length suffix <= String.length s)%nat ->
  String.substring (String.length s - String.length suffix) (String.length suffix) s = suffix ->
  String.substring (String.length s - k) k s
  = String.substring (String.length suffix - k) k suffix.
Proof.
  intros Hk Hm Hsuffix.
  apply String.get_correct. intro p.
  destruct (Nat.lt_ge_cases p k) as [Hp | Hp].
  - rewrite !String.substring_correct1 by exact Hp.
    pose proof (String.substring_correct1 s
                  (String.length s - String.length suffix) (String.length suffix)
                  (p + (String.length suffix - k))) as Hget.
    rewrite Hsuffix in Hget. rewrite Hget by lia.
    f_equal. lia.
  - rewrite !String.substring_correct2 by exact Hp. reflexivity.
Qed.

Lemma slice_from_last (k : nat) (s : string) :
  (0 < k)%nat -> (k <= String.length s)%nat ->
  slice_from (- Z.of_nat k) s = String.substring (String.length s - k) k s.
Proof.
  intros Hpos Hk. unfold slice_from. cbv zeta.
  assert (E : (- Z.of_nat k <? 0)%Z = true) by (apply Z.ltb_lt; lia).
  rewrite E. f_equal; lia.
Qed.

Lemma slice_from_short (k : nat) (s : string) :
  (String.length s <= k)%nat -> (0 < k)%nat -> slice_from (- Z.of_nat k) s = s.
Proof.
  intros Hk Hpos. unfold slice_from. cbv zeta.
  assert (E : (- Z.of_nat k <? 0)%Z = true) by (apply Z.ltb_lt; lia).
  rewrite E. rewrite Z.max_r by lia. simpl. rewrite Z.sub_0_r, Nat2Z.id.
  now apply substring_whole.
Qed.

Lemma slice_from_length (k : nat) (s : string) :
  (0 < k)%nat -> (String.length (slice_from (- Z.of_nat k) s) <= k)%nat.
Proof.
  intro Hpos.
  destruct (Nat.le_ge_cases k (String.length s)) as [H | H].
  - rewrite slice_from_last by assumption. apply substring_length_le.
  - rewrite slice_from_short by assumption. exact H.
Qed.

Lemma endsWith_spec (s suffix : string) :
  endsWith s suffix = true <->
  (String.length suffix <= String.length s)%nat /\
  String.substring (String.length s - String.length suffix) (String.length suffix) s = suffix.
Proof.
  unfold endsWith. rewrite andb_true_iff, Nat.leb_le, String.eqb_eq. reflexivity.
Qed.

(** A string no longer than the suffix ends with it only when it is the
    suffix. *)
Lemma endsWith_same_length (s suffix : string) :
  (String.length s <= String.length suffix)%nat ->
  endsWith s suffix = true -> s = suffix.
Proof.
  intros Hlen H. apply endsWith_spec in H. destruct H as [Hle Hsub].
  assert (E : String.length s = String.length suffix) by lia.
  rewrite E, Nat.sub_diag in Hsub. rewrite <- Hsub.
  symmetry. apply substring_whole. lia.
Qed.

Lemma endsWith_longer (s suffix : string) :
  (String.length s < String.length suffix)%nat -> endsWith s suffix = false.
Proof.
  intro H. unfold endsWith.
  assert (E : (String.length suffix <=? String.length s)%nat = false)
    by (apply Nat.leb_gt; exact H).
  now rewrite E.
Qed.

(** The last four code units of a string that ends with a suffix of five. *)
Lemma slice_last_four_of_five (s suffix : string) :
  String.length suffix = 5%nat ->
  endsWith s suffix = true ->
  slice_from (-4) s = String.substring 1 4 suffix.
Proof.
  intros Hfive H. apply endsWith_spec in H. destruct H as [Hle Hsub].
  change (-4)%Z with (- Z.of_nat 4)%Z.
  rewrite slice_from_last by (simpl; lia).
  rewrite (substring_of_suffix s suffix 4) by (assumption || lia).
  now rewrite Hfive.
Qed.

(** ** The file middleware *)

(** X18: for a file of an allowed type and size, [validateFileMiddleware]
    calls [next()] exactly when the last four code units of the lower-cased
    name are [.jpg], [.png] or [.tif].  A name that ends in [.jpeg] or
    [.tiff] is answered 400 although both are listed in [allowedExtensions]:
    [slice(-4)] keeps four code units, which cannot end with an extension of
    five.  A request without a file passes. *)
Theorem middleware_extension_check (toLowerCase : string -> string)
    (file : Middleware.MulterFile) :
  includes ["image/jpeg"; "image/png"; "image/tiff"; "image/geotiff"]
    (Middleware.mimetype file) = true ->
  (Middleware.size file <= 10 * 1024 * 1024)%Z ->
  (Middleware.validateFileMiddleware toLowerCase (Some file) = Middleware.next
   <-> In (slice_from (-4) (toLowerCase (Middleware.originalname file)))
          [".jpg"; ".png"; ".tif"]) /\
  (endsWith (toLowerCase (Middleware.originalname file)) ".jpeg" = true \/
   endsWith (toLowerCase (Middleware.originalname file)) ".tiff" = true ->
   Middleware.validateFileMiddleware toLowerCase (Some file)
   = Middleware.rejected 400 "Extension de fichier non autorisée") /\
  Middleware.validateFileMiddleware toLowerCase None = Middleware.next.
Proof.
  intros Htype Hsize. unfold Middleware.validateFileMiddleware.
  rewrite Htype. cbn [negb].
  assert (Esize : (Middleware.size file >? 10 * 1024 * 1024)%Z = false)
    by (rewrite Z.gtb_ltb; apply Z.ltb_ge; exact Hsize).
  rewrite Esize.
  set (extension := slice_from (-4) (toLowerCase (Middleware.originalname file))).
  assert (Hshort : (String.length extension <= 4)%nat)
    by (apply (slice_from_length 4); lia).
  assert (Hfive : forall ext, String.length ext = 5%nat -> endsWith extension ext = false)
    by (intros ext Hext; apply endsWith_longer; lia).
  cbn [existsb].
  rewrite (Hfive ".jpeg" eq_refl), (Hfive ".tiff" eq_refl).
  rewrite !orb_false_r.
  split; [| split; [| reflexivity]].
  - split.
    + intro Hnext.
      destruct (endsWith extension ".jpg") eqn:Ejpg.
      { apply endsWith_same_length in Ejpg; [| exact Hshort]. rewrite Ejpg. simpl. tauto. }
      destruct (endsWith extension ".png") eqn:Epng.
      { apply endsWith_same_length in Epng; [| exact Hshort]. rewrite Epng. simpl. tauto. }
      destruct (endsWith extension ".tif") eqn:Etif.
      { apply endsWith_same_length in Etif; [| exact Hshort]. rewrite Etif. simpl. tauto. }
      discriminate.
    + intros [H | [H | [H | []]]]; rewrite <- H; reflexivity.
  - intros [H | H];
      apply slice_last_four_of_five in H; try reflexivity;
      fold extension in H; rewrite H; reflexivity.
Qed.

Lemma middleware_extension_check_witness :
  includes ["image/jpeg"; "image/png"; "image/tiff"; "image/geotiff"] "image/jpeg" = true /\
  (2048 <= 10 * 1024 * 1024)%Z /\
  Middleware.validateFileMiddleware (fun s => s)
    (Some (Middleware.mkMulterFile "image/jpeg" 2048 "parcelle.jpeg"))
  = Middleware.rejected 400 "Extension de fichier non autorisée".
Proof.
  assert (H1 : includes ["image/jpeg"; "image/png"; "image/tiff"; "image/geotiff"]
                 "image/jpeg" = true) by reflexivity.
  assert (H2 : (2048 <= 10 * 1024 * 1024)%Z) by lia.
  split; [exact H1 |]. split; [exact H2 |].
  apply (proj1 (proj2 (middleware_extension_check (fun s => s)
                         (Middleware.mkMulterFile "image/jpeg" 2048 "parcelle.jpeg") H1 H2))).
  left. reflexivity.
Defined.

(** ** Sanitized file names *)

Section Sanitize.

Import sanitize.

Lemma collapse_underscores_cons (c : ascii) (rest : string) :
  collapse_underscores (String c rest)
  = if is_underscore c && starts_with_underscore rest
    then collapse_underscores rest
    else String c (collapse_underscores rest).
Proof.
  cbn [collapse_underscores]. destruct (is_underscore c); [| reflexivity].
  destruct rest as [| c' rest']; [reflexivity |].
  cbn [starts_with_underscore andb]. destruct (is_underscore c'); reflexivity.
Qed.

Lemma collapse_underscores_start (s : string) :
  starts_with_underscore (collapse_underscores s) = starts_with_underscore s.
Proof.
  induction s as [| c rest IH]; [reflexivity |].
  rewrite collapse_underscores_cons.
  destruct (is_underscore c) eqn:Ec; cbn [andb].
  - destruct (starts_with_underscore rest) eqn:Er.
    + rewrite IH. cbn [starts_with_underscore]. now rewrite Ec.
    + reflexivity.
  - reflexivity.
Qed.

Lemma strip_trailing_head (s : string) (k : ascii) (kept : string) :
  strip_trailing s = String k kept -> exists rest, s = String k rest.
Proof.
  destruct s as [| c rest]; [discriminate |]. cbn [strip_trailing].
  destruct (strip_trailing rest); [destruct (is_underscore c) |];
    intros [= <- _]; eauto.
Qed.

Lemma strip_trailing_start (s : string) :
  starts_with_underscore (strip_trailing s) = true -> starts_with_underscore s = true.
Proof.
  destruct (strip_trailing s) as [| k kept] eqn:E; [discriminate |].
  apply strip_trailing_head in E. destruct E as [rest ->]. auto.
Qed.


(** *** What each step keeps *)

Lemma replace_disallowed_allowed (s : string) :
  every_char allowed (replace_disallowed s) = true.
Proof.
  induction s as [| c rest IH]; [reflexivity |]. cbn [replace_disallowed every_char].
  rewrite IH. destruct (allowed c) eqn:E; [now rewrite E | reflexivity].
Qed.

Lemma collapse_underscores_every (class : ascii -> bool) (s : string) :
  every_char class s = true -> every_char class (collapse_underscores s) = true.
Proof.
  induction s as [| c rest IH]; [reflexivity |].
  rewrite collapse_underscores_cons. cbn [every_char].
  intro H. apply andb_true_iff in H. destruct H as [Hc Hrest].
  destruct (is_underscore c && starts_with_underscore rest); [auto |].
  cbn [every_char]. now rewrite Hc, IH.
Qed.

Lemma strip_leading_every (class : ascii -> bool) (s : string) :
  every_char class s = true -> every_char class (strip_leading s) = true.
Proof.
  induction s as [| c rest IH]; [reflexivity |]. cbn [strip_leading].
  intro H. destruct (is_underscore c); [| exact H].
  apply IH. cbn [every_char] in H. now apply andb_true_iff in H.
Qed.

Lemma strip_trailing_every (class : ascii -> bool) (s : string) :
  every_char class s = true -> every_char class (strip_trailing s) = true.
Proof.
  induction s as [| c rest IH]; [reflexivity |]. cbn [strip_trailing every_char].
  intro H. apply andb_true_iff in H. destruct H as [Hc Hrest].
  specialize (IH Hrest).
  destruct (strip_trailing rest) as [| k kept].
  - destruct (is_underscore c); [reflexivity |]. cbn [every_char]. now rewrite Hc.
  - cbn [every_char] in *. now rewrite Hc, IH.
Qed.


Lemma collapse_underscores_no_double (s : string) :
  no_double_underscore (collapse_underscores s) = true.
Proof.
  induction s as [| c rest IH]; [reflexivity |].
  rewrite collapse_underscores_cons.
  destruct (is_underscore c && starts_with_underscore rest) eqn:E; [exact IH |].
  cbn [no_double_underscore]. now rewrite collapse_underscores_start, E, IH.
Qed.

Lemma strip_leading_no_double (s : string) :
  no_double_underscore s = true -> no_double_underscore (strip_leading s) = true.
Proof.
  induction s as [| c rest IH]; [reflexivity |]. cbn [strip_leading].
  intro H. destruct (is_underscore c); [| exact H].
  apply IH. cbn [no_double_underscore] in H. now apply andb_true_iff in H.
Qed.

Lemma strip_trailing_no_double (s : string) :
  no_double_underscore s = true -> no_double_underscore (strip_trailing s) = true.
Proof.
  induction s as [| c rest IH]; [reflexivity |]. cbn [no_double_underscore].
  intro H. apply andb_true_iff in H. destruct H as [Hc Hrest].
  specialize (IH Hrest). cbn [strip_trailing].
  destruct (strip_trailing rest) as [| k kept] eqn:E.
  - destruct (is_underscore c); [reflexivity |].
    cbn [no_double_underscore starts_with_underscore]. now rewrite andb_false_r.
  - cbn [no_double_underscore] in *. rewrite IH, andb_true_r.
    apply negb_true_iff. apply negb_true_iff in Hc.
    destruct (is_underscore c); [| reflexivity]. cbn [andb] in *.
    destruct (starts_with_underscore (String k kept)) eqn:Es; [| reflexivity].
    rewrite <- E in Es. apply strip_trailing_start in Es. congruence.
Qed.


Lemma strip_leading_start (s : string) :
  starts_with_underscore (strip_leading s) = false.
Proof.
  induction s as [| c rest IH]; [reflexivity |]. cbn [strip_leading].
  destruct (is_underscore c) eqn:E; [exact IH |]. cbn [starts_with_underscore]. exact E.
Qed.

Lemma strip_trailing_end (s : string) :
  ends_with_underscore (strip_trailing s) = false.
Proof.
  induction s as [| c rest IH]; [reflexivity |]. cbn [strip_trailing].
  destruct (strip_trailing rest) as [| k kept].
  - destruct (is_underscore c) eqn:E; [reflexivity |]. cbn [ends_with_underscore]. exact E.
  - exact IH.
Qed.

(** *** What each step leaves alone *)

Lemma replace_disallowed_fixed (s : string) :
  every_char allowed s = true -> replace_disallowed s = s.
Proof.
  induction s as [| c rest IH]; [reflexivity |]. cbn [every_char replace_disallowed].
  intro H. apply andb_true_iff in H. destruct H as [Hc Hrest].
  now rewrite Hc, IH.
Qed.

Lemma collapse_underscores_fixed (s : string) :
  no_double_underscore s = true -> collapse_underscores s = s.
Proof.
  induction s as [| c rest IH]; [reflexivity |].
  rewrite collapse_underscores_cons. cbn [no_double_underscore].
  intro H. apply andb_true_iff in H. destruct H as [Hc Hrest].
  apply negb_true_iff in Hc. now rewrite Hc, IH.
Qed.

Lemma strip_leading_fixed (s : string) :
  starts_with_underscore s = false -> strip_leading s = s.
Proof.
  destruct s as [| c rest]; [reflexivity |]. cbn [starts_with_underscore strip_leading].
  now intros ->.
Qed.

Lemma strip_trailing_fixed (s : string) :
  ends_with_underscore s = false -> strip_trailing s = s.
Proof.
  induction s as [| c rest IH]; [reflexivity |].
  destruct rest as [| c' rest'].
  - cbn. now intros ->.
  - intro H. change (ends_with_underscore (String c' rest') = false) in H.
    cbn [strip_trailing] in *. now rewrite (IH H).
Qed.

(** *** Lengths *)

Lemma replace_disallowed_length (s : string) :
  String.length (replace_disallowed s) = String.length s.
Proof. induction s as [| c rest IH]; simpl; [reflexivity | now rewrite IH]. Qed.

Lemma collapse_underscores_length (s : string) :
  (String.length (collapse_underscores s) <= String.length s)%nat.
Proof.
  induction s as [| c rest IH]; [reflexivity |].
  rewrite collapse_underscores_cons.
  destruct (is_underscore c && starts_with_underscore rest); simpl; lia.
Qed.

Lemma strip_leading_length (s : string) :
  (String.length (strip_leading s) <= String.length s)%nat.
Proof.
  induction s as [| c rest IH]; [reflexivity |]. cbn [strip_leading].
  destruct (is_underscore c); simpl; lia.
Qed.

Lemma strip_trailing_length (s : string) :
  (String.length (strip_trailing s) <= String.length s)%nat.
Proof.
  induction s as [| c rest IH]; [reflexivity |]. cbn [strip_trailing].
  destruct (strip_trailing rest); [destruct (is_underscore c) |]; simpl in *; lia.
Qed.

End Sanitize.

(** The name before the final cut. *)
Lemma sanitize_filename_shape_steps (name : string) :
  let cleaned :=
    sanitize.strip_trailing
      (sanitize.strip_leading
         (sanitize.collapse_underscores (sanitize.replace_disallowed name))) in
  every_char sanitize.allowed cleaned = true /\
  starts_with_underscore cleaned = false /\
  no_double_underscore cleaned = true /\
  ends_with_underscore cleaned = false /\
  (String.length cleaned <= String.length name)%nat.
Proof.
  intro cleaned. subst cleaned.
  split.
  { apply strip_trailing_every, strip_leading_every,
      collapse_underscores_every, replace_disallowed_allowed. }
  split.
  { match goal with |- ?b = false => destruct b eqn:E; [| reflexivity] end.
    apply strip_trailing_start in E. now rewrite strip_leading_start in E. }
  split.
  { apply strip_trailing_no_double, strip_leading_no_double,
      collapse_underscores_no_double. }
  split; [apply strip_trailing_end |].
  eapply Nat.le_trans; [apply strip_trailing_length |].
  eapply Nat.le_trans; [apply strip_leading_length |].
  eapply Nat.le_trans; [apply collapse_underscores_length |].
  now rewrite replace_disallowed_length.
Qed.


(** X20: on a name of at most 255 code units [sanitize.filename] is
    idempotent, and its result does not end with an underscore.  (On a longer
    name the final [slice(0, 255)] can cut right after an underscore, which a
    second pass would then remove.) *)
Theorem sanitize_filename_idempotent (name : string) :
  (String.length name <= 255)%nat ->
  ends_with_underscore (sanitize.filename name) = false /\
  sanitize.filename (sanitize.filename name) = sanitize.filename name.
Proof.
  intro Hlen.
  destruct (sanitize_filename_shape_steps name) as (Hallowed & Hstart & Hdouble & Hend & Hshort).
  unfold sanitize.filename at 1 3 4.
  set (cleaned := sanitize.strip_trailing
                    (sanitize.strip_leading
                       (sanitize.collapse_underscores (sanitize.replace_disallowed name)))) in *.
  assert (Hcut : slice_to 255 cleaned = cleaned)
    by (apply substring_whole; lia).
  rewrite !Hcut. split; [exact Hend |].
  unfold sanitize.filename.
  rewrite (replace_disallowed_fixed cleaned Hallowed).
  rewrite (collapse_underscores_fixed cleaned Hdouble).
  rewrite (strip_leading_fixed cleaned Hstart).
  rewrite (strip_trailing_fixed cleaned Hend).
  exact Hcut.
Qed.

Example sanitize_filename_long_name_not_idempotent :
  let long := (String.concat "" (repeat "a" 254) ++ "_b")%string in
  String.length (sanitize.filename long) = 255%nat /\
  ends_with_underscore (sanitize.filename long) = true /\
  sanitize.filename (sanitize.filename long) <> sanitize.filename long.
Proof.
  cbv zeta. split; [vm_compute; reflexivity |].
  split; [vm_compute; reflexivity |].
  intro H.
  apply (f_equal String.length) in H. vm_compute in H. discriminate.
Qed.

Lemma sanitize_filename_idempotent_witness :
  (String.length "__my  photo (1)__.JPG" <= 255)%nat /\
  sanitize.filename "__my  photo (1)__.JPG" = "my_photo_1_.JPG" /\
  sanitize.filename (sanitize.filename "__my  photo (1)__.JPG")
  = sanitize.filename "__my  photo (1)__.JPG".
Proof.
  assert (H : (String.length "__my  photo (1)__.JPG" <= 255)%nat) by (simpl; lia).
  split; [exact H |]. split; [reflexivity |].
  exact (proj2 (sanitize_filename_idempotent "__my  photo (1)__.JPG" H)).
Defined.

(** ** Password strength *)

(** X21: [checkPasswordStrength] scores a password from 0 to 5, one
    point per check; it is rated strong exactly from 4 points and weak
    exactly up to 1.  The length is one check among five: a password with a
    lower-case letter, an upper-case letter, a digit and a symbol is strong
    however short it is, and a password that passes no check but the length
    is weak however long it is. *)
Theorem checkPasswordStrength_rating (password : string) :
  (security.score (security.checkPasswordStrength password) <= 5)%nat /\
  security.maxScore (security.checkPasswordStrength password) = 5%nat /\
  (security.strength (security.checkPasswordStrength password) = "strong"
   <-> (4 <= security.score (security.checkPasswordStrength password))%nat) /\
  (security.strength (security.checkPasswordStrength password) = "weak"
   <-> (security.score (security.checkPasswordStrength password) <= 1)%nat) /\
  (security.some_char security.lowercase password = true ->
   security.some_char security.uppercase password = true ->
   security.some_char security.digit password = true ->
   security.some_char security.symbol password = true ->
   security.strength (security.checkPasswordStrength password) = "strong") /\
  (security.some_char security.lowercase password = false ->
   security.some_char security.uppercase password = false ->
   security.some_char security.digit password = false ->
   security.some_char security.symbol password = false ->
   security.strength (security.checkPasswordStrength password) = "weak").
Proof.
  unfold security.checkPasswordStrength.
  cbn [security.score security.maxScore security.strength security.checks
       security.check_length security.check_lowercase security.check_uppercase
       security.check_numbers security.check_symbols].
  destruct (8 <=? String.length password)%nat,
           (security.some_char security.lowercase password),
           (security.some_char security.uppercase password),
           (security.some_char security.digit password),
           (security.some_char security.symbol password);
    cbn [List.filter List.length Nat.ltb Nat.leb];
    repeat split; intros; solve [reflexivity | discriminate | lia].
Qed.

Example short_password_rated_strong :
  security.strength (security.checkPasswordStrength "aA1!") = "strong" /\
  security.strength (security.checkPasswordStrength "aaaaaaaaaaaaaaaaaaaaaaaa") = "medium".
Proof. split; reflexivity. Qed.

(** ** The rate limiter *)

Section RateLimiter.

Variable maxRequests windowMs : Z.

Lemma filter_filter_weaker {A : Type} (p q : A -> bool) (l : list A) :
  (forall x, p x = true -> q x = true) ->
  List.filter p (List.filter q l) = List.filter p l.
Proof.
  intro H. induction l as [| x l IH]; [reflexivity |]. simpl.
  destruct (q x) eqn:Eq; simpl.
  - now rewrite IH.
  - destruct (p x) eqn:Ep; [| exact IH].
    apply H in Ep. congruence.
Qed.

Lemma in_window_app (t : Z) (key : string) (log more : list (string * Z)) :
  in_window windowMs t key (log ++ more)
  = in_window windowMs t key log ++ in_window windowMs t key more.
Proof. unfold in_window. apply filter_app. Qed.

Lemma in_window_one (t : Z) (key key0 : string) (t0 : Z) :
  in_window windowMs t key [(key0, t0)]
  = if String.eqb key0 key && (t0 >? t - windowMs)%Z then [(key0, t0)] else [].
Proof. reflexivity. Qed.

Lemma rate_step_tracks (state : list (string * Z) * security.RateLimiter)
    (call : string * Z) (bound : Z) :
  tracks windowMs state bound ->
  tracks windowMs (rate_step maxRequests windowMs state call) (Z.max bound (snd call)).
Proof.
  destruct state as [log rateLimiter]. destruct call as [key0 t0].
  unfold tracks, rate_step, security.checkRateLimit, stored. cbn [fst snd].
  intros Htracks key t Ht.
  assert (Hbound : (bound <= t)%Z) by lia.
  assert (Ht0 : (t0 <= t)%Z) by lia.
  specialize (Htracks key t Hbound).
  set (held := match rateLimiter key0 with Some requests => requests | None => [] end).
  assert (Hheld :
            match
              match rateLimiter key0 with
              | Some _ => rateLimiter
              | None => fun k => if String.eqb k key0 then Some [] else rateLimiter k
              end key0
            with
            | Some requests => requests
            | None => []
            end = held).
  { unfold held. destruct (rateLimiter key0) eqn:E.
    - now rewrite E.
    - now rewrite String.eqb_refl. }
  rewrite Hheld.
  assert (Hsame :
            forall k,
              match
                match rateLimiter key0 with
                | Some _ => rateLimiter
                | None => fun k => if String.eqb k key0 then Some [] else rateLimiter k
                end k
              with
              | Some requests => requests
              | None => []
              end
              = match rateLimiter k with Some requests => requests | None => [] end).
  { intro k. destruct (rateLimiter key0) eqn:E; [reflexivity |].
    destruct (String.eqb k key0) eqn:Ek; [| reflexivity].
    apply String.eqb_eq in Ek. subst k. now rewrite E. }
  destruct (Z.of_nat (List.length (List.filter (fun time => (time >? t0 - windowMs)%Z) held))
            >=? maxRequests)%Z; cbn [fst snd security.allowed].
  - rewrite Hsame. exact Htracks.
  - rewrite in_window_app, map_app.
    destruct (String.eqb key key0) eqn:Ekey.
    + apply String.eqb_eq in Ekey. subst key.
      rewrite filter_app.
      rewrite filter_filter_weaker by (intros x Hx; apply Z.gtb_lt in Hx; apply Z.gtb_lt; lia).
      fold held in Htracks. rewrite Htracks. f_equal.
      rewrite in_window_one, String.eqb_refl. cbn [andb List.filter].
      destruct (t0 >? t - windowMs)%Z; reflexivity.
    + rewrite Hsame, Htracks.
      rewrite in_window_one, String.eqb_sym, Ekey. cbn [andb map]. now rewrite app_nil_r.
Qed.

Lemma rate_session_tracks (calls : list (string * Z))
    (state : list (string * Z) * security.RateLimiter) (bound : Z) :
  tracks windowMs state bound ->
  tracks windowMs (fold_left (rate_step maxRequests windowMs) calls state)
    (fold_left Z.max (map snd calls) bound).
Proof.
  revert state bound. induction calls as [| call calls IH]; intros state bound H.
  - exact H.
  - cbn [fold_left map]. apply IH. now apply rate_step_tracks.
Qed.

Lemma fold_max_bounded (times : list Z) (bound now : Z) :
  (bound <= now)%Z -> Forall (fun t => (t <= now)%Z) times ->
  (fold_left Z.max times bound <= now)%Z.
Proof.
  revert bound. induction times as [| t times IH]; intros bound Hb Hall; [exact Hb |].
  inversion Hall; subst. cbn [fold_left]. apply IH; [lia | assumption].
Qed.

(** X22: the rate limiter is an exact sliding window.  After any session
    of calls, none of them later than [now], a call for [key] at [now] is
    allowed exactly when fewer than [maxRequests] of the calls that were
    allowed for that key fall in the window of [windowMs] that ends at [now];
    an allowed call is told how many are left after it, a refused one that
    none is. *)
Theorem checkRateLimit_sliding_window (calls : list (string * Z)) (key : string) (now : Z) :
  Forall (fun call => (snd call <= now)%Z) calls ->
  let log := fst (rate_session maxRequests windowMs calls) in
  let result :=
    fst (security.checkRateLimit now key maxRequests windowMs
           (snd (rate_session maxRequests windowMs calls))) in
  let recent := Z.of_nat (List.length (in_window windowMs now key log)) in
  security.allowed result = (recent <? maxRequests)%Z /\
  (security.allowed result = true ->
   security.remaining result = (maxRequests - (recent + 1))%Z /\
   security.resetTime result = Some (now + windowMs)%Z) /\
  (security.allowed result = false -> security.remaining result = 0%Z).
Proof.
  intros Hcalls log result recent.
  assert (Htracks : tracks windowMs (rate_session maxRequests windowMs calls) now).
  { assert (Hinit : tracks windowMs ([], fun _ => None) now) by (intros k t _; reflexivity).
    pose proof (rate_session_tracks calls _ _ Hinit) as H.
    intros k t Ht. apply H.
    assert (fold_left Z.max (map snd calls) now <= now)%Z; [| lia].
    apply fold_max_bounded; [lia |].
    rewrite Forall_map. exact Hcalls. }
  specialize (Htracks key now (Z.le_refl _)).
  subst result recent log.
  destruct (rate_session maxRequests windowMs calls) as [log rateLimiter].
  unfold stored in Htracks. cbn [fst snd] in *.
  unfold security.checkRateLimit.
  set (held := match rateLimiter key with Some requests => requests | None => [] end) in *.
  assert (Hheld :
            match
              match rateLimiter key with
              | Some _ => rateLimiter
              | None => fun k => if String.eqb k key then Some [] else rateLimiter k
              end key
            with
            | Some requests => requests
            | None => []
            end = held).
  { unfold held. destruct (rateLimiter key) eqn:E.
    - now rewrite E.
    - now rewrite String.eqb_refl. }
  rewrite Hheld, Htracks, length_map.
  set (recent := Z.of_nat (List.length (in_window windowMs now key log))).
  destruct (recent >=? maxRequests)%Z eqn:E; cbn [fst security.allowed security.remaining
                                                  security.resetTime].
  - rewrite Z.geb_leb in E. apply Z.leb_le in E.
    split; [symmetry; apply Z.ltb_ge; exact E |].
    split; [discriminate | reflexivity].
  - rewrite Z.geb_leb in E. apply Z.leb_gt in E.
    split; [symmetry; apply Z.ltb_lt; exact E |].
    split; [| discriminate].
    intros _. split; [| reflexivity].
    rewrite length_app, length_map. cbn [List.length]. subst recent. lia.
Qed.

End RateLimiter.

Lemma checkRateLimit_sliding_window_witness :
  Forall (fun call : string * Z => (snd call <= 61000)%Z)
    [("ip", 0%Z); ("ip", 1000%Z); ("ip", 2000%Z); ("other", 2500%Z)] /\
  security.allowed
    (fst (security.checkRateLimit 61000 "ip" 2 60000
            (snd (rate_session 2 60000
                    [("ip", 0%Z); ("ip", 1000%Z); ("ip", 2000%Z); ("other", 2500%Z)]))))
  = (Z.of_nat
       (List.length
          (in_window 60000 61000 "ip"
             (fst (rate_session 2 60000
                     [("ip", 0%Z); ("ip", 1000%Z); ("ip", 2000%Z); ("other", 2500%Z)]))))
     <? 2)%Z.
Proof.
  assert (H : Forall (fun call : string * Z => (snd call <= 61000)%Z)
                [("ip", 0%Z); ("ip", 1000%Z); ("ip", 2000%Z); ("other", 2500%Z)])
    by (repeat constructor; simpl; lia).
  split; [exact H |].
  exact (proj1 (checkRateLimit_sliding_window 2 60000 _ "ip" 61000 H)).
Defined.

Example rate_session_refuses_third_call :
  fst (rate_session 2 60000
         [("ip", 0%Z); ("ip", 1000%Z); ("ip", 2000%Z); ("other", 2500%Z)])
  = [("ip", 0%Z); ("ip", 1000%Z); ("other", 2500%Z)] /\
  fst (security.checkRateLimit 60500 "ip" 2 60000
         (snd (rate_session 2 60000 [("ip", 0%Z); ("ip", 1000%Z)])))
  = security.mkRateLimit true 0 (Some 120500%Z) /\
  fst (security.checkRateLimit 3000 "ip" 2 60000
         (snd (rate_session 2 60000 [("ip", 0%Z); ("ip", 1000%Z)])))
  = security.mkRateLimit false 0 (Some 60000%Z).
Proof. repeat split; reflexivity. Qed.

(** ** Retrying *)

Section Retry.

Variable Value Error : Type.
Variable fn : nat -> Performance.Attempt Value Error.
Variable maxRetries delay : Z.

Lemma backoff_from (i n : nat) :
  map (fun j => (delay * 2 ^ Z.of_nat j)%Z) (seq i (S n))
  = (delay * 2 ^ Z.of_nat i)%Z :: map (fun j => (delay * 2 ^ Z.of_nat j)%Z) (seq (S i) n).
Proof. reflexivity. Qed.

(** The loop, started at [i] with enough rounds left, up to the first
    attempt that resolves. *)
Lemma retry_from_resolves (n i rounds : nat) (waited : list Z) (value : Value) :
  (Z.of_nat (i + n) <= maxRetries)%Z ->
  (n < rounds)%nat ->
  (forall j, (i <= j < i + n)%nat -> exists error, fn j = Performance.rejects Value Error error) ->
  fn (i + n)%nat = Performance.resolves Value Error value ->
  Performance.retry_from Value Error fn maxRetries delay i rounds waited
  = (Performance.fulfilled Value Error value,
     waited ++ map (fun j => (delay * 2 ^ Z.of_nat j)%Z) (seq i n)).
Proof.
  revert i rounds waited.
  induction n as [| n IH]; intros i rounds waited Hmax Hrounds Hrejects Hresolves.
  - destruct rounds as [| rounds]; [lia |]. cbn [Performance.retry_from].
    rewrite Nat.add_0_r in Hresolves. rewrite Hresolves. now rewrite app_nil_r.
  - destruct rounds as [| rounds]; [lia |]. cbn [Performance.retry_from].
    destruct (Hrejects i ltac:(lia)) as [error Herror]. rewrite Herror.
    assert (E : (Z.of_nat i =? maxRetries)%Z = false) by (apply Z.eqb_neq; lia).
    rewrite E, backoff_from.
    rewrite (IH (S i) rounds).
    + now rewrite <- app_assoc.
    + replace (S i + n)%nat with (i + S n)%nat by lia. exact Hmax.
    + lia.
    + intros j Hj. apply Hrejects. lia.
    + replace (S i + n)%nat with (i + S n)%nat by lia. exact Hresolves.
Qed.

(** The loop when every attempt up to [maxRetries] is rejected. *)
Lemma retry_from_rejects (n i rounds : nat) (waited : list Z) (error : Error) :
  Z.of_nat (i + n) = maxRetries ->
  (n < rounds)%nat ->
  (forall j, (i <= j < i + n)%nat -> exists e, fn j = Performance.rejects Value Error e) ->
  fn (i + n)%nat = Performance.rejects Value Error error ->
  Performance.retry_from Value Error fn maxRetries delay i rounds waited
  = (Performance.rejected Value Error error,
     waited ++ map (fun j => (delay * 2 ^ Z.of_nat j)%Z) (seq i n)).
Proof.
  revert i rounds waited.
  induction n as [| n IH]; intros i rounds waited Hmax Hrounds Hrejects Hlast.
  - destruct rounds as [| rounds]; [lia |]. cbn [Performance.retry_from].
    rewrite Nat.add_0_r in Hlast, Hmax. rewrite Hlast.
    assert (E : (Z.of_nat i =? maxRetries)%Z = true) by (apply Z.eqb_eq; exact Hmax).
    now rewrite E, app_nil_r.
  - destruct rounds as [| rounds]; [lia |]. cbn [Performance.retry_from].
    destruct (Hrejects i ltac:(lia)) as [e He]. rewrite He.
    assert (E : (Z.of_nat i =? maxRetries)%Z = false) by (apply Z.eqb_neq; lia).
    rewrite E, backoff_from.
    rewrite (IH (S i) rounds).
    + now rewrite <- app_assoc.
    + replace (S i + n)%nat with (i + S n)%nat by lia. exact Hmax.
    + lia.
    + intros j Hj. apply Hrejects. lia.
    + replace (S i + n)%nat with (i + S n)%nat by lia. exact Hlast.
Qed.

Lemma backoff_total (k : nat) :
  fold_right Z.add 0%Z (backoff delay k) = (delay * (2 ^ Z.of_nat k - 1))%Z.
Proof.
  unfold backoff. induction k as [| k IH].
  - simpl. lia.
  - rewrite seq_S, map_app, fold_right_app. cbn [map fold_right Nat.add].
    assert (Hshift : forall (l : list Z) (z : Z),
              fold_right Z.add z l = (fold_right Z.add 0 l + z)%Z).
    { induction l as [| x l IHl]; intro z; cbn [fold_right]; [lia |].
      rewrite IHl. lia. }
    rewrite Hshift, IH, Nat2Z.inj_succ, Z.pow_succ_r by lia. lia.
Qed.

(** X23: [withRetry] calls the function until an attempt resolves, at
    most [maxRetries + 1] times.  If attempt [k] is the first to resolve, the
    promise is fulfilled with its value after waits of [delay], [2 * delay],
    ... that add up to [delay * (2^k - 1)]; if every attempt is rejected, it
    is rejected with the error of the last one, with no wait after it; with
    a negative [maxRetries] the function is never called and the promise is
    fulfilled with [undefined]. *)
Theorem withRetry_outcomes :
  ((maxRetries < 0)%Z ->
   Performance.withRetry Value Error fn maxRetries delay
   = (Performance.fulfilled_undefined Value Error, [])) /\
  (forall k value,
     (Z.of_nat k <= maxRetries)%Z ->
     (forall j, (j < k)%nat -> exists error, fn j = Performance.rejects Value Error error) ->
     fn k = Performance.resolves Value Error value ->
     Performance.withRetry Value Error fn maxRetries delay
     = (Performance.fulfilled Value Error value, backoff delay k) /\
     fold_right Z.add 0%Z (backoff delay k) = (delay * (2 ^ Z.of_nat k - 1))%Z) /\
  (forall error,
     (0 <= maxRetries)%Z ->
     (forall j, (Z.of_nat j < maxRetries)%Z ->
                exists e, fn j = Performance.rejects Value Error e) ->
     fn (Z.to_nat maxRetries) = Performance.rejects Value Error error ->
     Performance.withRetry Value Error fn maxRetries delay
     = (Performance.rejected Value Error error, backoff delay (Z.to_nat maxRetries))).
Proof.
  unfold Performance.withRetry. split; [| split].
  - intro Hneg. replace (Z.to_nat (maxRetries + 1)) with 0%nat by lia. reflexivity.
  - intros k value Hk Hrejects Hresolves. split; [| apply backoff_total].
    apply (retry_from_resolves k 0 _ [] value); cbn [Nat.add]; try assumption; try lia.
    intros j Hj. apply Hrejects. lia.
  - intros error Hmax Hrejects Hlast.
    apply (retry_from_rejects (Z.to_nat maxRetries) 0 _ [] error);
      cbn [Nat.add]; try assumption; try lia.
    intros j Hj. apply Hrejects. lia.
Qed.

End Retry.

Example withRetry_third_attempt :
  Performance.withRetry nat string
    (fun i => if (i <? 2)%nat then Performance.rejects nat string "timeout"
              else Performance.resolves nat string 42%nat)
    3 1000
  = (Performance.fulfilled nat string 42%nat, [1000%Z; 2000%Z]) /\
  Performance.withRetry nat string (fun _ => Performance.rejects nat string "timeout") 3 1000
  = (Performance.rejected nat string "timeout", [1000%Z; 2000%Z; 4000%Z]) /\
  Performance.withRetry nat string (fun _ => Performance.resolves nat string 42%nat) (-1) 1000
  = (Performance.fulfilled_undefined nat string, []).
Proof. repeat split; reflexivity. Qed.

(** ** The error monitor *)

Section ErrorMonitor.

Variable Context : Type.
Variable isEnabled : bool.
Variable sessionId : string.

(** One capture: the error goes last, the list is cut to its last 50
    once it holds more than 100, and production tracks one event. *)
Lemma captureError_step (capture : Monitoring.Env * Monitoring.JsError * Context)
    (state : Monitoring.State Context) :
  let after :=
    Monitoring.captureError Context isEnabled sessionId
      (fst (fst capture)) (snd (fst capture)) (snd capture) state in
  (exists dropped,
     Monitoring.errors Context state ++ recorded isEnabled sessionId capture
     = dropped ++ Monitoring.errors Context after) /\
  List.length (Monitoring.errors Context after)
  = (if (List.length (Monitoring.errors Context state) <? 100)%nat
     then S (List.length (Monitoring.errors Context state))
     else 50%nat) /\
  List.length (Monitoring.events Context after)
  = (List.length (Monitoring.events Context state) + if isEnabled then 1 else 0)%nat.
Proof.
  destruct capture as [[env error] context]. destruct state as [errors events].
  unfold Monitoring.captureError, Monitoring.trackError, Monitoring.last_elements.
  cbn [fst snd Monitoring.errors Monitoring.events].
  set (info := Monitoring.mkErrorInfo Context _ _ _ _ _ _).
  change (recorded isEnabled sessionId (env, error, context)) with [info].
  rewrite length_app. cbn [List.length].
  split; [| split].
  - destruct (100 <? List.length errors + 1)%nat.
    + exists (firstn (List.length errors + 1 - 50) (errors ++ [info])).
      now rewrite firstn_skipn.
    + now exists [].
  - destruct (100 <? List.length errors + 1)%nat eqn:E;
      [apply Nat.ltb_lt in E | apply Nat.ltb_ge in E].
    + assert (E' : (List.length errors <? 100)%nat = false) by (apply Nat.ltb_ge; lia).
      rewrite E', length_skipn, length_app. cbn [List.length]. lia.
    + assert (E' : (List.length errors <? 100)%nat = true) by (apply Nat.ltb_lt; lia).
      rewrite E', length_app. cbn [List.length]. lia.
  - destruct isEnabled; cbn [negb]; [rewrite length_app; reflexivity | lia].
Qed.

Lemma capture_all_from (captures : list (Monitoring.Env * Monitoring.JsError * Context))
    (state : Monitoring.State Context) (history : list (Monitoring.ErrorInfo Context)) :
  (List.length (Monitoring.errors Context state) <= 100)%nat ->
  (exists dropped, history = dropped ++ Monitoring.errors Context state) ->
  let final := capture_all isEnabled sessionId captures state in
  (List.length (Monitoring.errors Context final) <= 100)%nat /\
  (exists dropped,
     history ++ flat_map (recorded isEnabled sessionId) captures
     = dropped ++ Monitoring.errors Context final) /\
  ((List.length (Monitoring.errors Context state) + List.length captures <= 100)%nat ->
   List.length (Monitoring.errors Context final)
   = (List.length (Monitoring.errors Context state) + List.length captures)%nat) /\
  ((100 < List.length (Monitoring.errors Context state) + List.length captures)%nat ->
   (50 <= List.length (Monitoring.errors Context final))%nat) /\
  List.length (Monitoring.events Context final)
  = (List.length (Monitoring.events Context state)
     + if isEnabled then List.length captures else 0)%nat.
Proof.
  revert state history.
  induction captures as [| capture captures IH]; intros state history Hcap [dropped Hsuffix].
  - cbn. rewrite app_nil_r. repeat split; try lia.
    + now exists dropped.
    + destruct isEnabled; lia.
  - cbn [capture_all fold_left flat_map List.length].
    destruct (captureError_step capture state) as ([dropped' Hkept] & Hlength & Hevents).
    set (after := Monitoring.captureError Context isEnabled sessionId
                    (fst (fst capture)) (snd (fst capture)) (snd capture) state) in *.
    assert (Hcap' : (List.length (Monitoring.errors Context after) <= 100)%nat).
    { rewrite Hlength.
      destruct (List.length (Monitoring.errors Context state) <? 100)%nat eqn:E;
        [apply Nat.ltb_lt in E |]; lia. }
    assert (Hsuffix' : exists d,
               history ++ recorded isEnabled sessionId capture
               = d ++ Monitoring.errors Context after).
    { exists (dropped ++ dropped').
      rewrite Hsuffix, <- !app_assoc. f_equal. exact Hkept. }
    destruct (IH after (history ++ recorded isEnabled sessionId capture) Hcap' Hsuffix')
      as (H1 & H2 & H3 & H4 & H5).
    fold (capture_all isEnabled sessionId captures after).
    split; [exact H1 |].
    split; [rewrite app_assoc; exact H2 |].
    split; [| split].
    + intro Hfew. rewrite H3; rewrite Hlength;
        assert (E : (List.length (Monitoring.errors Context state) <? 100)%nat = true)
          by (apply Nat.ltb_lt; lia);
        rewrite E; lia.
    + intro Hmany.
      destruct (Nat.le_gt_cases
                  (List.length (Monitoring.errors Context after) + List.length captures) 100)
        as [Hle | Hgt].
      * rewrite (H3 Hle). rewrite Hlength.
        destruct (List.length (Monitoring.errors Context state) <? 100)%nat eqn:E;
          [apply Nat.ltb_lt in E | apply Nat.ltb_ge in E]; lia.
      * exact (H4 Hgt).
    + rewrite H5, Hevents. destruct isEnabled; lia.
Qed.

(** X24: the error monitor keeps a bounded, most-recent log.  After any
    number of captures from an empty log, [errors] holds at most 100 entries;
    they are the last entries of everything that was captured, in order;
    all of it is kept up to 100 captures and at least the last 50 beyond.
    The analytics log, in contrast, grows by one event per capture in
    production and not at all elsewhere. *)
Theorem captureError_keeps_recent
    (captures : list (Monitoring.Env * Monitoring.JsError * Context)) :
  let final :=
    capture_all isEnabled sessionId captures (Monitoring.mkState Context [] []) in
  (List.length (Monitoring.errors Context final) <= 100)%nat /\
  (exists dropped,
     flat_map (recorded isEnabled sessionId) captures
     = dropped ++ Monitoring.errors Context final) /\
  ((List.length captures <= 100)%nat ->
   Monitoring.errors Context final = flat_map (recorded isEnabled sessionId) captures) /\
  ((100 < List.length captures)%nat ->
   (50 <= List.length (Monitoring.errors Context final))%nat) /\
  List.length (Monitoring.events Context final)
  = (if isEnabled then List.length captures else 0%nat).
Proof.
  intro final.
  destruct (capture_all_from captures (Monitoring.mkState Context [] []) []
              ltac:(cbn; lia) ltac:(now exists []))
    as (H1 & [dropped H2] & H3 & H4 & H5).
  fold final in H1, H2, H3, H4, H5. cbn [Monitoring.errors Monitoring.events List.length app Nat.add] in *.
  split; [exact H1 |].
  split; [now exists dropped |].
  split; [| split; [exact H4 | exact H5]].
  intro Hfew. specialize (H3 Hfew).
  assert (Hall : List.length (flat_map (recorded isEnabled sessionId) captures)
                 = List.length captures).
  { clear. induction captures as [| c cs IH]; [reflexivity |].
    cbn [flat_map]. rewrite length_app, IH.
    destruct c as [[env error] context]. reflexivity. }
  assert (Hnone : dropped = []).
  { apply (f_equal (@List.length _)) in H2.
    rewrite length_app, Hall, H3 in H2.
    destruct dropped; [reflexivity | cbn in H2; lia]. }
  subst dropped. now rewrite H2.
Qed.

End ErrorMonitor.

(** ** The two formatters side by side *)

(** X25: the CSV row and the GeoJSON feature of a result carry the same
    data.  For the result at position [i], the cells of the row are the
    properties of the feature, the class and the action between double
    quotes; the latitude and longitude cells are the second and first
    coordinate of the point, except that a coordinate of 0 (absent, or
    really 0) is an empty cell. *)
Theorem csv_and_geojson_agree (results : list ClassificationResult)
    (i : nat) (result : ClassificationResult) :
  nth_error results i = Some result ->
  exists feature longitude latitude,
    nth_error (GeoJSON.features (generateGeoJSON results)) i = Some feature /\
    GeoJSON.coordinates (GeoJSON.geometry feature) = [Num longitude; Num latitude] /\
    csvRow result i
    = [ Num (GeoJSON.id (GeoJSON.properties feature));
        Str (quoted (GeoJSON.culture_predite (GeoJSON.properties feature)));
        Num (GeoJSON.confiance (GeoJSON.properties feature));
        Num (inject_Z (GeoJSON.niveau_confiance (GeoJSON.properties feature)));
        Str (quoted (GeoJSON.action_recommandee (GeoJSON.properties feature)));
        Num (GeoJSON.ndvi (GeoJSON.properties feature));
        Num (GeoJSON.evi (GeoJSON.properties feature));
        Num (GeoJSON.savi (GeoJSON.properties feature));
        Num (GeoJSON.surface_ha (GeoJSON.properties feature));
        (if Qeq_bool latitude 0 then Str "" else Num latitude);
        (if Qeq_bool longitude 0 then Str "" else Num longitude);
        Str (GeoJSON.timestamp (GeoJSON.properties feature)) ].
Proof.
  intro H. unfold generateGeoJSON. cbn [GeoJSON.features].
  rewrite (map_indexed_nth_error _ 0 results i result H). cbn [Nat.add].
  assert (Hor : forall o,
            exists q, or_else o (Num 0) = Num q /\
                      or_else o (Str "") = if Qeq_bool q 0 then Str "" else Num q).
  { intros [q |]; cbn [or_else].
    - destruct (Qeq_bool q 0) eqn:E.
      + exists 0. split; reflexivity.
      + exists q. now rewrite E.
    - exists 0. split; reflexivity. }
  destruct (Hor (optional_lng result)) as (longitude & Hlng0 & Hlng).
  destruct (Hor (optional_lat result)) as (latitude & Hlat0 & Hlat).
  eexists. exists longitude, latitude.
  split; [reflexivity |].
  cbn [GeoJSON.geometry GeoJSON.coordinates GeoJSON.properties GeoJSON.id
       GeoJSON.culture_predite GeoJSON.confiance GeoJSON.niveau_confiance
       GeoJSON.action_recommandee GeoJSON.ndvi GeoJSON.evi GeoJSON.savi
       GeoJSON.surface_ha GeoJSON.timestamp].
  split; [now rewrite Hlng0, Hlat0 |].
  unfold csvRow. now rewrite Hlat, Hlng.
Qed.

Lemma csv_and_geojson_agree_witness :
  nth_error [forest_result; located_result] 1 = Some located_result /\
  exists feature longitude latitude,
    nth_error (GeoJSON.features (generateGeoJSON [forest_result; located_result])) 1
    = Some feature /\
    GeoJSON.coordinates (GeoJSON.geometry feature) = [Num longitude; Num latitude] /\
    nth_error (csvRow located_result 1) 9
    = Some (if Qeq_bool latitude 0 then Str "" else Num latitude).
Proof.
  split; [reflexivity |].
  destruct (csv_and_geojson_agree [forest_result; located_result] 1 located_result eq_refl)
    as (feature & longitude & latitude & Hfeature & Hpoint & Hrow).
  exists feature, longitude, latitude.
  split; [exact Hfeature |]. split; [exact Hpoint |].
  now rewrite Hrow.
Defined.
